(** * ccda2omop: the rule-driven mapping core, embedded and verified

    A shallow embedding of the Python modules
      - [mapper/vocabulary.py]   (code-system resolver)
      - [mapper/vocab_loader.py] (vocabulary index)
      - [omop/ids.py]            (deterministic identifiers)
      - [mapper/extractor.py]    (inclusion filter)
      - [mapper/rule_engine.py]  (rule execution engine)
      - [mapper/rule_loader.py]  (rule files)
    followed by the properties established about them.

    Conventions.
      - A Python [str] is a [string] holding its UTF-8 encoding, so that
        [s.encode("utf-8")] is the list of the bytes of [s]; equality,
        dictionary lookup and splitting at ASCII delimiters are exactly
        those of the byte string.
      - Python integers are unbounded: [Z].
      - A call that may raise returns a [res]; [Raise] carries the
        exception class.
      - A [dict] is a [gmap]; a list is a [list]. *)

From Stdlib Require Import ZArith List String Ascii Lia Bool.
From stdpp Require Import gmap strings list fin_maps pretty sorting.

Set Warnings "-register-all".
Open Scope Z_scope.

(** ** Exceptions and results *)

Module Py.

Inductive exc : Type :=
| ValueError | TypeError | AttributeError | IndexError | KeyError
| StopIteration | XPathEvalError | OSError | YAMLError.

Inductive res (A : Type) : Type :=
| Ok (a : A)
| Raise (e : exc).
Arguments Ok {A} a.
Arguments Raise {A} e.

Definition bind {A B} (m : res A) (k : A -> res B) : res B :=
  match m with
  | Ok a => k a
  | Raise e => Raise e
  end.

Definition raises {A} (m : res A) : Prop :=
  match m with Raise _ => True | Ok _ => False end.

Definition is_ok {A} (m : res A) : bool :=
  match m with Ok _ => true | Raise _ => false end.

(** The value of a call that returned; the default if it raised. *)
Definition value_or {A} (d : A) (m : res A) : A :=
  match m with Ok a => a | Raise _ => d end.

(** Truth value of a [str]: the empty string is false. *)
Definition truthy (s : string) : bool :=
  match s with EmptyString => false | String _ _ => true end.

(** [row[i]] for an index known to be in range. *)
Definition col (row : list string) (i : nat) : string :=
  default "" (row !! i).

End Py.

Export Py.

Notation "'let!' x ':=' m 'in' k" := (Py.bind m (fun x => k))
  (at level 10, x name, m at level 100, k at level 200,
   format "'[v' 'let!'  x  :=  m  'in' '/' k ']'").

(** ** XML elements as lxml presents them *)

Inductive Element : Type :=
| Elem (tag : string) (attrib : list (string * string))
       (text : option string) (children : list Element).

(** What an XPath evaluation hands back: a node-set (elements, or the
    strings lxml returns for attribute and text nodes), or the scalar of
    an expression such as [string(..)], [count(..)] or [true()]; an
    invalid expression raises. *)
Inductive xitem : Type :=
| XElem (e : Element)
| XText (s : string).

Inductive xresult : Type :=
| XNodes (items : list xitem)
| XString (s : string)
| XNumber (nonzero : bool)
| XBoolean (b : bool)
| XInvalid.

(** ** What the interpreter and lxml provide

    [int], [float], [str.lower], [datetime] and the XPath engine are not
    code of the repository; the development is parametric in them. *)

Class Builtins : Type := {
  pyfloat : Type;
  datetime : Type;
  (** [int(s)]; [None] stands for [ValueError]. *)
  py_int : string -> option Z;
  (** [float(s)]; [None] stands for [ValueError]. *)
  py_float : string -> option pyfloat;
  (** [s.lower()] *)
  str_lower : string -> string;
  (** [parse_hl7_time(s)] of [ccda/hl7_time.py], which catches the
      [ValueError] of [strptime] itself. *)
  parse_hl7_time : string -> option datetime;
  (** [dt.replace(hour=0, minute=0, second=0, microsecond=0)] *)
  at_midnight : datetime -> datetime;
  (** [element.xpath(expression)] *)
  element_xpath : Element -> string -> xresult;
  (** [str(element)], which shows the tag and the address of the object *)
  element_str : Element -> string
}.

(** ** mapper/vocabulary.py: the code-system resolver *)

Module Vocabulary.

Definition CONCEPT_NO_MAPPING : Z := 0.

(** The dictionary literal of [oid_to_vocabulary_id], in source order. *)
Definition mapping : list (string * string) :=
  [ ("2.16.840.1.113883.6.96", "SNOMED");
    ("2.16.840.1.113883.6.88", "RxNorm");
    ("2.16.840.1.113883.6.1", "LOINC");
    ("2.16.840.1.113883.6.90", "ICD10CM");
    ("2.16.840.1.113883.6.103", "ICD9CM");
    ("2.16.840.1.113883.6.12", "CPT4");
    ("2.16.840.1.113883.6.14", "HCPCS");
    ("2.16.840.1.113883.6.13", "HCPCS");
    ("2.16.840.1.113883.12.292", "CVX");
    ("2.16.840.1.113883.6.59", "CVX");
    ("2.16.840.1.113883.6.69", "NDC");
    ("2.16.840.1.113883.4.9", "UNII");
    ("2.16.840.1.113883.3.26.1.5", "NDFRT");
    ("2.16.840.1.113883.3.26.1.1", "NCI");
    ("2.16.840.1.113883.5.4", "ActCode");
    ("2.16.840.1.113883.5.112", "RouteOfAdministration");
    ("SNOMED", "SNOMED");
    ("SNOMED CT", "SNOMED");
    ("SNOMEDCT", "SNOMED");
    ("RxNorm", "RxNorm");
    ("LOINC", "LOINC");
    ("ICD10CM", "ICD10CM");
    ("ICD-10-CM", "ICD10CM");
    ("ICD10", "ICD10CM");
    ("ICD9CM", "ICD9CM");
    ("ICD-9-CM", "ICD9CM");
    ("ICD9", "ICD9CM");
    ("CPT4", "CPT4");
    ("CPT", "CPT4");
    ("CPT-4", "CPT4");
    ("HCPCS", "HCPCS");
    ("CVX", "CVX");
    ("NDC", "NDC");
    ("UNII", "UNII");
    ("NDFRT", "NDFRT");
    ("NDF-RT", "NDFRT");
    ("NCI", "NCI");
    ("NCIt", "NCI");
    ("ActCode", "ActCode");
    ("ASSERTION", "ActCode");
    ("RouteOfAdministration", "RouteOfAdministration") ].

(** A dictionary display keeps, for a repeated key, the last value. *)
Definition dict_of (items : list (string * string)) : gmap string string :=
  fold_left (fun d kv => <[kv.1 := kv.2]> d) items ∅.

(** [mapping.get(oid, "")] *)
Definition oid_to_vocabulary_id (oid : string) : string :=
  default "" (dict_of mapping !! oid).

Definition mapping_keys : list string := fst <$> mapping.

(** The fourteen vocabularies the resolver knows, by canonical id. *)
Definition canonical_ids : list string :=
  [ "SNOMED"; "RxNorm"; "LOINC"; "ICD10CM"; "ICD9CM"; "CPT4"; "HCPCS";
    "CVX"; "NDC"; "UNII"; "NDFRT"; "NCI"; "ActCode";
    "RouteOfAdministration" ].

End Vocabulary.

(** ** mapper/vocab_loader.py: the vocabulary index *)

Module VocabLoader.

Record Concept : Type := {
  concept_id : Z;
  concept_name : string;
  domain_id : string;
  vocabulary_id : string;
  concept_class_id : string;
  standard_concept : string;
  concept_code : string
}.

Definition RELEVANT_VOCABS : list string :=
  [ "SNOMED"; "RxNorm"; "LOINC"; "ICD10CM"; "ICD9CM"; "CPT4"; "HCPCS";
    "CVX"; "NDC"; "UNII"; "NDFRT"; "NCI"; "ActCode";
    "RouteOfAdministration"; "Gender"; "Race"; "Ethnicity"; "UCUM";
    "Visit" ].

(** The three dictionaries of a [VocabLoader] instance. *)
Record t : Type := {
  _concept_index : gmap string Concept;
  _concept_by_id : gmap Z Concept;
  _maps_to : gmap Z (list Z)
}.

(** [VocabLoader()] *)
Definition new : t :=
  {| _concept_index := ∅; _concept_by_id := ∅; _maps_to := ∅ |}.

Definition _concept_key (vocab_id code : string) : string :=
  vocab_id +:+ "|" +:+ code.

Section Loading.
Context `{Builtins}.

(** One turn of the row loop of [load_concepts]; the state is the
    running count and the loader. *)
Definition load_concepts_row (st : Z * t) (row : list string) : Z * t :=
  let '(count, vl) := st in
  if (length row <? 10)%nat then st
  else
    let vocab_id := col row 3 in
    if negb (bool_decide (vocab_id ∈ RELEVANT_VOCABS)) then st
    else
      match py_int (col row 0) with
      | None => st
      | Some cid =>
          if truthy (col row 9) then st
          else
            let concept :=
              {| concept_id := cid;
                 concept_name := col row 1;
                 domain_id := col row 2;
                 vocabulary_id := vocab_id;
                 concept_class_id := col row 4;
                 standard_concept := col row 5;
                 concept_code := col row 6 |} in
            let key := _concept_key vocab_id (concept_code concept) in
            (count + 1,
             {| _concept_index := <[key := concept]> (_concept_index vl);
                _concept_by_id := <[cid := concept]> (_concept_by_id vl);
                _maps_to := _maps_to vl |})
      end.

(** [load_concepts]: the file is given as the rows the csv reader
    yields, header first. *)
Definition load_concepts (rows : list (list string)) (vl : t)
  : res (Z * t) :=
  match rows with
  | [] => Raise StopIteration
  | [] :: _ => Raise IndexError
  | (h0 :: _) :: body =>
      if negb (String.prefix "concept_id" h0) then Raise ValueError
      else Ok (fold_left load_concepts_row body (0, vl))
  end.

(** One turn of the row loop of [load_concept_relationships]. *)
Definition load_relationships_row (st : Z * t) (row : list string)
  : Z * t :=
  let '(count, vl) := st in
  if (length row <? 6)%nat then st
  else if negb (String.eqb (col row 2) "Maps to") then st
  else if truthy (col row 5) then st
  else
    match py_int (col row 0) with
    | None => st
    | Some source_id =>
        match py_int (col row 1) with
        | None => st
        | Some target_id =>
            match _concept_by_id vl !! source_id with
            | None => st
            | Some _ =>
                let edges := default [] (_maps_to vl !! source_id) in
                (count + 1,
                 {| _concept_index := _concept_index vl;
                    _concept_by_id := _concept_by_id vl;
                    _maps_to :=
                      <[source_id := edges ++ [target_id]]> (_maps_to vl) |})
            end
        end
    end.

Definition load_concept_relationships (rows : list (list string)) (vl : t)
  : res (Z * t) :=
  match rows with
  | [] => Raise StopIteration
  | [] :: _ => Raise IndexError
  | (h0 :: _) :: body =>
      if negb (String.prefix "concept_id_1" h0) then Raise ValueError
      else Ok (fold_left load_relationships_row body (0, vl))
  end.

End Loading.

Definition lookup_concept (vl : t) (vocab_id code : string)
  : option Concept :=
  _concept_index vl !! _concept_key vocab_id code.

Definition lookup_concept_by_id (vl : t) (cid : Z) : option Concept :=
  _concept_by_id vl !! cid.

(** [self._maps_to.get(cid, [])] *)
Definition maps_to_get (vl : t) (cid : Z) : list Z :=
  default [] (_maps_to vl !! cid).

Definition get_standard_concept_ids (vl : t) (vocab_id code : string)
  : list Z :=
  match lookup_concept vl vocab_id code with
  | None => []
  | Some concept =>
      if String.eqb (standard_concept concept) "S"
      then [concept_id concept]
      else
        let target_ids := maps_to_get vl (concept_id concept) in
        match target_ids with
        | _ :: _ => target_ids
        | [] => [concept_id concept]
        end
  end.

(** [ids[0] if ids else 0] *)
Definition get_standard_concept_id (vl : t) (vocab_id code : string) : Z :=
  match get_standard_concept_ids vl vocab_id code with
  | i :: _ => i
  | [] => 0
  end.

Definition get_concept_domain (vl : t) (cid : Z) : string :=
  match _concept_by_id vl !! cid with
  | Some concept => domain_id concept
  | None => ""
  end.

(** The target ids of the live "Maps to" rows of a relationship table
    that leave concept [src], in row order. *)
Section LiveEdges.
Context `{Builtins}.

Definition live_edge (src : Z) (row : list string) : option Z :=
  if (length row <? 6)%nat then None
  else if negb (String.eqb (col row 2) "Maps to") then None
  else if truthy (col row 5) then None
  else
    match py_int (col row 0), py_int (col row 1) with
    | Some s, Some tgt => if bool_decide (s = src) then Some tgt else None
    | _, _ => None
    end.

Definition live_targets (body : list (list string)) (src : Z) : list Z :=
  omap (live_edge src) body.
End LiveEdges.

(** Every indexed concept is also indexed by its id. *)
Definition indexed_by_id (vl : t) : Prop :=
  ∀ key c, _concept_index vl !! key = Some c ->
           is_Some (_concept_by_id vl !! concept_id c).

End VocabLoader.

(** ** omop/ids.py: deterministic identifiers *)

(** SHA-256 (FIPS 180-4) over bytes, the function behind
    [hashlib.sha256]. Words are integers below 2^32. *)
Module Sha256.

Definition w32 (x : Z) : Z := x mod 2 ^ 32.
Definition add32 (x y : Z) : Z := w32 (x + y).
Definition rotr (n x : Z) : Z :=
  Z.lor (Z.shiftr x n) (w32 (Z.shiftl x (32 - n))).
Definition not32 (x : Z) : Z := Z.lxor x (2 ^ 32 - 1).

Definition Ch (x y z : Z) : Z :=
  Z.lxor (Z.land x y) (Z.land (not32 x) z).
Definition Maj (x y z : Z) : Z :=
  Z.lxor (Z.lxor (Z.land x y) (Z.land x z)) (Z.land y z).
Definition Sum0 (x : Z) : Z :=
  Z.lxor (Z.lxor (rotr 2 x) (rotr 13 x)) (rotr 22 x).
Definition Sum1 (x : Z) : Z :=
  Z.lxor (Z.lxor (rotr 6 x) (rotr 11 x)) (rotr 25 x).
Definition sig0 (x : Z) : Z :=
  Z.lxor (Z.lxor (rotr 7 x) (rotr 18 x)) (Z.shiftr x 3).
Definition sig1 (x : Z) : Z :=
  Z.lxor (Z.lxor (rotr 17 x) (rotr 19 x)) (Z.shiftr x 10).

(** The round constants are the first 32 fractional bits of the cube
    roots of the first 64 primes, the initial state those of the square
    roots of the first 8. *)
Definition primes : list Z :=
  [ 2; 3; 5; 7; 11; 13; 17; 19; 23; 29; 31; 37; 41; 43; 47; 53; 59; 61;
    67; 71; 73; 79; 83; 89; 97; 101; 103; 107; 109; 113; 127; 131; 137;
    139; 149; 151; 157; 163; 167; 173; 179; 181; 191; 193; 197; 199; 211;
    223; 227; 229; 233; 239; 241; 251; 257; 263; 269; 271; 277; 281; 283;
    293; 307; 311 ].

(** Integer cube root, one bit at a time from bit 39 down. *)
Definition icbrt (n : Z) : Z :=
  fold_left
    (fun r i => let c := r + 2 ^ Z.of_nat i in
                if c * c * c <=? n then c else r)
    (rev (seq 0 40)) 0.

Definition K : list Z :=
  map (fun p => w32 (icbrt (p * 2 ^ 96))) primes.

Definition state : Type := Z * Z * Z * Z * Z * Z * Z * Z.

Definition H0 : state :=
  let h (p : Z) := w32 (Z.sqrt (p * 2 ^ 64)) in
  (h 2, h 3, h 5, h 7, h 11, h 13, h 17, h 19).

(** Padding: the bit 1, zeros up to 56 modulo 64 bytes, and the bit
    length as a 64-bit big-endian integer. *)
Definition be_bytes (n : nat) (x : Z) : list Z :=
  map (fun i => (x / 2 ^ (8 * Z.of_nat i)) mod 256) (rev (seq 0 n)).

Definition pad (msg : list Z) : list Z :=
  let len := length msg in
  msg ++ [128] ++ repeat 0 ((119 - len mod 64) mod 64)%nat
      ++ be_bytes 8 (8 * Z.of_nat len).

Definition be_word (bs : list Z) : Z :=
  fold_left (fun acc b => acc * 256 + b) bs 0.

Fixpoint chunks (fuel n : nat) (l : list Z) : list (list Z) :=
  match fuel, l with
  | O, _ | _, [] => []
  | S fuel', _ => take n l :: chunks fuel' n (drop n l)
  end.

(** The message schedule: sixteen words of the block, then forty-eight
    derived ones. *)
Definition schedule (block : list Z) : list Z :=
  let w16 := map be_word (chunks 16 4 block) in
  fold_left
    (fun w t =>
       let at_ (i : nat) := nth (t - i) w 0 in
       w ++ [add32 (add32 (sig1 (at_ 2%nat)) (at_ 7%nat))
                   (add32 (sig0 (at_ 15%nat)) (at_ 16%nat))])
    (seq 16 48) w16.

Definition round (s : state) (kw : Z * Z) : state :=
  let '(a, b, c, d, e, f, g, h) := s in
  let t1 := add32 (add32 (add32 h (Sum1 e)) (add32 (Ch e f g) kw.1)) kw.2 in
  let t2 := add32 (Sum0 a) (Maj a b c) in
  (add32 t1 t2, a, b, c, add32 d t1, e, f, g).

Definition compress (s : state) (block : list Z) : state :=
  let '(a, b, c, d, e, f, g, h) := s in
  let '(a', b', c', d', e', f', g', h') :=
    fold_left round (zip K (schedule block)) s in
  (add32 a a', add32 b b', add32 c c', add32 d d',
   add32 e e', add32 f f', add32 g g', add32 h h').

(** The 32 bytes of the digest. *)
Definition digest (msg : list Z) : list Z :=
  let padded := pad msg in
  let '(a, b, c, d, e, f, g, h) :=
    fold_left compress (chunks (length padded) 64 padded) H0 in
  be_bytes 4 a ++ be_bytes 4 b ++ be_bytes 4 c ++ be_bytes 4 d ++
  be_bytes 4 e ++ be_bytes 4 f ++ be_bytes 4 g ++ be_bytes 4 h.

End Sha256.

Module Ids.

(** [s.encode("utf-8")] *)
Definition encode (s : string) : list Z :=
  map (fun c => Z.of_N (N_of_ascii c)) (list_ascii_of_string s).

(** A [hashlib] hash object: the bytes fed to it so far. *)
Definition hasher : Type := list Z.
Definition sha256_new : hasher := [].
Definition update (h : hasher) (data : list Z) : hasher := h ++ data.
Definition hash_digest (h : hasher) : list Z := Sha256.digest h.

(** [struct.unpack(">Q", b)[0]] for eight bytes [b]. *)
Definition unpack_Q (b : list Z) : Z :=
  fold_left (fun acc x => acc * 256 + x) b 0.

Definition generate_id (values : list string) : Z :=
  let h :=
    fold_left (fun h v => update (update h (encode v)) [0]) values
              sha256_new in
  let digest := hash_digest h in
  let raw_id := unpack_Q (take 8 digest) in
  let raw_id := if raw_id >? 2 ^ 63 - 1 then raw_id - 2 ^ 64 else raw_id in
  Z.abs raw_id.

Definition generate_person_id (patient_id source_system : string) : Z :=
  generate_id ["person"; patient_id; source_system].

(** The definition in the words of the specification: digest of the
    concatenation of the parts, each followed by one zero byte; the
    first eight digest bytes as a big-endian unsigned 64-bit number,
    read again as a two's-complement signed one; its absolute value. *)
Fixpoint big_endian (bytes : list Z) : Z :=
  match bytes with
  | [] => 0
  | b :: rest => b * 256 ^ Z.of_nat (length rest) + big_endian rest
  end.

Definition as_signed64 (u : Z) : Z :=
  if Z.testbit u 63 then u - 2 ^ 64 else u.

Definition reference_id (parts : list string) : Z :=
  let message := concat (map (fun p => encode p ++ [0]) parts) in
  Z.abs (as_signed64 (big_endian (take 8 (Sha256.digest message)))).

End Ids.

(** ** Helpers on [str] *)

Module Str.

(** [s.split(sep)] for a one-character separator. *)
Fixpoint split (sep : ascii) (s : string) : list string :=
  match s with
  | EmptyString => [""]
  | String c rest =>
      if Ascii.eqb c sep then "" :: split sep rest
      else match split sep rest with
           | [] => [String c ""]
           | part :: parts => String c part :: parts
           end
  end.

(** [sep.join(parts)] *)
Fixpoint join (sep : string) (parts : list string) : string :=
  match parts with
  | [] => ""
  | [part] => part
  | part :: rest => part +:+ sep +:+ join sep rest
  end.

(** [c in s] for a one-character [c]. *)
Fixpoint contains (c : ascii) (s : string) : bool :=
  match s with
  | EmptyString => false
  | String c' rest => Ascii.eqb c' c || contains c rest
  end.

(** [needle in s] for strings. *)
Fixpoint has_substring (needle s : string) : bool :=
  String.prefix needle s ||
  match s with
  | EmptyString => false
  | String _ rest => has_substring needle rest
  end.

(** The first character of a non-empty [str]: the leading byte and the
    continuation bytes (10xxxxxx) that follow it. *)
Fixpoint continuation (s : string) : string :=
  match s with
  | String c rest =>
      if (128 <=? Z.of_N (N_of_ascii c)) && (Z.of_N (N_of_ascii c) <? 192)
      then String c (continuation rest) else ""
  | EmptyString => ""
  end.

Definition first_char (s : string) : string :=
  match s with
  | String c rest => String c (continuation rest)
  | EmptyString => ""
  end.

(** [list(s)]: the characters of [s], each with its continuation
    bytes. *)
Fixpoint chars (s : string) : list string :=
  match s with
  | EmptyString => []
  | String c rest =>
      match continuation rest, chars rest with
      | String _ _, h :: t => String c h :: t
      | _, cs => String c "" :: cs
      end
  end.

End Str.

(** ** mapper/rules.py: the rule model *)

Module Condition.
Record t : Type := { type : string; field : string; value : string }.
End Condition.

Module Extraction.
Record t : Type := { field : string; xpath : string; type : string }.
End Extraction.

Module SourceSpec.
Record t : Type := {
  section : string;
  section_oid : string;
  section_oid_entries_required : string;
  entry_xpath : string;
  entry_type : string;
  extraction : list Extraction.t;
  conditions : list Condition.t
}.
End SourceSpec.

Module TargetSpec.
Record t : Type := { table : string; type_concept_id : Z }.
End TargetSpec.

Module FieldMapping.
Record t : Type := {
  target : string;
  xpath : string;
  fallback_xpath : string;
  vocab_xpath : string;
  transform : string;
  optional : bool;
  source : string;
  vocab_field : string
}.
End FieldMapping.

Module IDGenSpec.
Record t : Type := { base_fields : list string; generator : string }.
End IDGenSpec.

Module MappingRule.
Record t : Type := {
  name : string;
  source : SourceSpec.t;
  target : TargetSpec.t;
  fields : list FieldMapping.t;
  id_gen : IDGenSpec.t
}.
End MappingRule.

(** ** mapper/vocabulary.py: [VocabularyMapper] *)

Module VocabularyMapper.
Import Vocabulary.

Record t : Type := { vocab_loader : option VocabLoader.t }.

Definition map_unit_code (vm : t) (unit : string) : Z :=
  match vocab_loader vm with
  | None => CONCEPT_NO_MAPPING
  | Some vl =>
      if negb (truthy unit) then CONCEPT_NO_MAPPING
      else VocabLoader.get_standard_concept_id vl "UCUM" unit
  end.

(** [map_route_code] and [map_observation_value_code] have one body. *)
Definition map_route_code (vm : t) (code code_system : string) : Z :=
  match vocab_loader vm with
  | None => CONCEPT_NO_MAPPING
  | Some vl =>
      if negb (truthy code) then CONCEPT_NO_MAPPING
      else
        let vocab_id := oid_to_vocabulary_id code_system in
        let vocab_id := if truthy vocab_id then vocab_id else "SNOMED" in
        VocabLoader.get_standard_concept_id vl vocab_id code
  end.

Definition map_observation_value_code := map_route_code.

Definition get_concept_domain (vm : t) (cid : Z) : string :=
  match vocab_loader vm with
  | None => ""
  | Some vl => VocabLoader.get_concept_domain vl cid
  end.

End VocabularyMapper.

(** ** mapper/extractor.py *)

Module Extractor.

Definition tag (e : Element) : string :=
  let 'Elem t _ _ _ := e in t.
Definition attrib (e : Element) : list (string * string) :=
  let 'Elem _ a _ _ := e in a.
Definition text (e : Element) : option string :=
  let 'Elem _ _ t _ := e in t.
Definition children (e : Element) : list Element :=
  let 'Elem _ _ _ c := e in c.

(** [node.get(key, "")] *)
Definition get (node : Element) (key : string) : string :=
  match List.find (fun kv => String.eqb kv.1 key) (attrib node) with
  | Some kv => kv.2
  | None => ""
  end.

(** [node.find(name)] for a plain tag name: the first child so named. *)
Definition find (node : Element) (name : string) : option Element :=
  List.find (fun c => String.eqb (tag c) name) (children node).

Definition should_include_entry (node : option Element) : bool :=
  match node with
  | None => false
  | Some node =>
      let mood_code := get node "moodCode" in
      if truthy mood_code && negb (String.eqb mood_code "EVN") then false
      else
        match find node "statusCode" with
        | Some status_node =>
            let status := get status_node "code" in
            if truthy status &&
               negb (String.eqb status "completed"
                     || String.eqb status "active")
            then false else true
        | None => true
        end
  end.

Section WithBuiltins.
Context `{Builtins}.

(** [node.xpath(expression)], followed by the test [if result] and
    the indexing [result[0]]: a string result yields its first
    character, a true number or boolean cannot be indexed. *)
Definition xpath_first (node : Element) (expression : string)
  : res (option xitem) :=
  match element_xpath node expression with
  | XInvalid => Raise XPathEvalError
  | XNodes [] => Ok None
  | XNodes (item :: _) => Ok (Some item)
  | XString s =>
      if truthy s then Ok (Some (XText (Str.first_char s))) else Ok None
  | XNumber nonzero | XBoolean nonzero =>
      if nonzero then Raise TypeError else Ok None
  end.

Definition extract_time (node : option Element) (expression : string)
  : res (option datetime) :=
  match node with
  | None => Ok None
  | Some node =>
      let! first := xpath_first node expression in
      match first with
      | None => Ok None
      | Some (XElem e) => Ok (parse_hl7_time (get e "value"))
      | Some (XText s) => Ok (parse_hl7_time s)
      end
  end.

End WithBuiltins.

End Extractor.

(** ** mapper/transforms.py *)

Module Transforms.

(** "code: display_name" if both present, otherwise the non-empty one. *)
Definition format_source_value (code display_name : string) : string :=
  if truthy code && truthy display_name
  then code +:+ ": " +:+ display_name
  else if truthy display_name then display_name else code.

End Transforms.

(** ** mapper/rule_engine.py *)

Module RuleEngine.
Import Extractor.

(** The scalars a record holds, over the types of floats and times. *)
Inductive value_of (F DT : Type) : Type :=
| VInt (z : Z)
| VStr (s : string)
| VFloat (x : F)
| VTime (dt : DT).
Arguments VInt {F DT} z.
Arguments VStr {F DT} s.
Arguments VFloat {F DT} x.
Arguments VTime {F DT} dt.

Section WithBuiltins.
Context `{Builtins}.

Local Abbreviation value := (value_of pyfloat datetime).

(** A record under construction: [dict[str, Any]]. *)
Local Abbreviation record := (gmap string value).

(** [str(item) if not isinstance(item, etree._Element)
     else item.text or ""] *)
Definition item_text (item : xitem) : string :=
  match item with
  | XElem e => default "" (text e)
  | XText s => s
  end.

(** [str(item)] *)
Definition item_str (item : xitem) : string :=
  match item with
  | XElem e => element_str e
  | XText s => s
  end.

(** [result = entry.xpath(e); if result: return <text of result[0]>];
    [None] when the test fails. *)
Definition xpath_text (entry : Element) (expression : string)
  : res (option string) :=
  let! first := xpath_first entry expression in
  Ok (item_text <$> first).

Definition _extract_xpath_value
    (entry : Element) (xpath fallback_xpath : string) : res string :=
  if negb (truthy xpath) then
    if truthy fallback_xpath then
      let! found := xpath_text entry fallback_xpath in
      Ok (default "" found)
    else Ok ""
  else
    let! found := xpath_text entry xpath in
    match found with
    | Some s => Ok s
    | None =>
        if truthy fallback_xpath then
          let! found := xpath_text entry fallback_xpath in
          Ok (default "" found)
        else Ok ""
    end.

Variable vocab : VocabularyMapper.t.

(** The body of the loop of [_extract_concept_ids] for one field whose
    transform is "vocab" and whose code is [code]: the ids the
    vocabulary gives, possibly none. *)
Definition vocab_field_ids
    (entry : Element) (fm : FieldMapping.t) (code : string)
  : res (list Z) :=
  let! code_system :=
    (if truthy (FieldMapping.vocab_xpath fm) then
       let! found := xpath_text entry (FieldMapping.vocab_xpath fm) in
       Ok (default "" found)
     else Ok "") in
  let vocab_id := Vocabulary.oid_to_vocabulary_id code_system in
  match VocabularyMapper.vocab_loader vocab with
  | Some vl =>
      if truthy vocab_id
      then Ok (VocabLoader.get_standard_concept_ids vl vocab_id code)
      else Ok []
  | None => Ok []
  end.

Fixpoint extract_concept_ids_loop
    (fields : list FieldMapping.t) (entry : Element)
    (entries_required : bool) : res (list Z) :=
  match fields with
  | [] => Ok []
  | fm :: rest =>
      if String.eqb (FieldMapping.transform fm) "vocab" then
        let! code := _extract_xpath_value entry (FieldMapping.xpath fm)
                                     (FieldMapping.fallback_xpath fm) in
        if negb (truthy code)
        then extract_concept_ids_loop rest entry entries_required
        else
          let! ids := vocab_field_ids entry fm code in
          match ids with
          | _ :: _ => Ok ids
          | [] =>
              if negb entries_required then Ok [0]
              else extract_concept_ids_loop rest entry entries_required
          end
      else extract_concept_ids_loop rest entry entries_required
  end.

Definition _extract_concept_ids
    (rule : MappingRule.t) (entry : Element) (entries_required : bool)
  : res (list Z) :=
  extract_concept_ids_loop (MappingRule.fields rule) entry
                           entries_required.

Fixpoint _check_conditions
    (conditions : list Condition.t) (entry : Element) (concept_id : Z)
  : bool :=
  match conditions with
  | [] => true
  | cond :: rest =>
      let domain := VocabularyMapper.get_concept_domain vocab concept_id in
      if String.eqb (Condition.type cond) "domain_equals" then
        if negb (String.eqb domain (Condition.value cond)) then false
        else _check_conditions rest entry concept_id
      else if String.eqb (Condition.type cond) "domain_not_equals" then
        if String.eqb domain (Condition.value cond) then false
        else _check_conditions rest entry concept_id
      else _check_conditions rest entry concept_id
  end.

(** The XPath expression [_generate_id] builds from a field path. *)
Definition id_field_xpath (field_path : string) : string :=
  if Str.contains "." field_path then
    let parts := Str.split "." field_path in
    str_lower (Str.join "/" (removelast parts))
      +:+ "/@" +:+ str_lower (List.last parts "")
  else str_lower field_path +:+ "/@value".

Fixpoint id_values
    (base_fields : list string) (entry : Element) (values : list string)
  : res (list string) :=
  match base_fields with
  | [] => Ok values
  | field_path :: rest =>
      let! first := xpath_first entry (id_field_xpath field_path) in
      match first with
      | Some item => id_values rest entry (values ++ [item_str item])
      | None => id_values rest entry values
      end
  end.

Definition _generate_id
    (rule : MappingRule.t) (entry : Element) (person_id : Z) : res Z :=
  let! values := id_values (IDGenSpec.base_fields (MappingRule.id_gen rule))
                     entry [pretty person_id] in
  let generator :=
    if truthy (IDGenSpec.generator (MappingRule.id_gen rule))
    then IDGenSpec.generator (MappingRule.id_gen rule)
    else TargetSpec.table (MappingRule.target rule) in
  Ok (Ids.generate_id (generator :: values)).

(** The code system read for the "route" and "value_vocab"
    transforms. *)
Definition code_system_str (entry : Element) (vocab_xpath : string)
  : res string :=
  if truthy vocab_xpath then
    let! first := xpath_first entry vocab_xpath in
    Ok (default "" (item_str <$> first))
  else Ok "".

Definition _extract_field_value
    (entry : Element) (fm : FieldMapping.t) (concept_id : Z)
    (visit_map : gmap string Z) : res (option value) :=
  let transform := FieldMapping.transform fm in
  if String.eqb transform "vocab" then Ok (Some (VInt concept_id))
  else
    let! raw := _extract_xpath_value entry (FieldMapping.xpath fm)
                                (FieldMapping.fallback_xpath fm) in
    if String.eqb transform "date" then
      let! dt := extract_time (Some entry) (FieldMapping.xpath fm) in
      Ok (VTime <$> (at_midnight <$> dt))
    else if String.eqb transform "time_ptr" then
      let! dt := extract_time (Some entry) (FieldMapping.xpath fm) in
      Ok (VTime <$> dt)
    else if String.eqb transform "float" then
      Ok (VFloat <$> py_float raw)
    else if String.eqb transform "int" then
      Ok (VInt <$> py_int raw)
    else if String.eqb transform "unit" then
      Ok (if truthy raw
          then Some (VInt (VocabularyMapper.map_unit_code vocab raw))
          else None)
    else if String.eqb transform "route" then
      let! code_system := code_system_str entry (FieldMapping.vocab_xpath fm) in
      Ok (if truthy raw
          then Some (VInt (VocabularyMapper.map_route_code
                             vocab raw code_system))
          else None)
    else if String.eqb transform "value_vocab" then
      let! code_system := code_system_str entry (FieldMapping.vocab_xpath fm) in
      Ok (if truthy raw
          then Some (VInt (VocabularyMapper.map_observation_value_code
                             vocab raw code_system))
          else None)
    else if String.eqb transform "format_source" then
      let! display := code_system_str entry (FieldMapping.fallback_xpath fm) in
      Ok (Some (VStr (Transforms.format_source_value raw display)))
    else Ok (Some (VStr raw)).

(** The loop of [_create_record] over the field mappings; [None] is
    the early [return None]. *)
Fixpoint fill_fields
    (fields : list FieldMapping.t) (entry : Element) (concept_id : Z)
    (visit_map : gmap string Z) (entries_required : bool)
    (rec : record) : option record :=
  match fields with
  | [] => Some rec
  | fm :: rest =>
      let is_optional := FieldMapping.optional fm || negb entries_required in
      match _extract_field_value entry fm concept_id visit_map with
      | Ok (Some v) =>
          fill_fields rest entry concept_id visit_map entries_required
                      (<[FieldMapping.target fm := v]> rec)
      | Ok None | Raise _ =>
          if is_optional
          then fill_fields rest entry concept_id visit_map
                           entries_required rec
          else None
      end
  end.

Definition id_field (rule : MappingRule.t) : string :=
  TargetSpec.table (MappingRule.target rule) +:+ "_id".

Definition type_field (rule : MappingRule.t) : string :=
  List.hd "" (Str.split "_" (TargetSpec.table (MappingRule.target rule)))
    +:+ "_type_concept_id".

Definition _create_record
    (rule : MappingRule.t) (entry : Element) (person_id record_id : Z)
    (concept_id : Z) (visit_map : gmap string Z)
    (entries_required : bool) : option record :=
  let rec : record :=
    <[type_field rule :=
        VInt (TargetSpec.type_concept_id (MappingRule.target rule))]>
      (<["person_id" := VInt person_id]>
         (<[id_field rule := VInt record_id]> ∅)) in
  match fill_fields (MappingRule.fields rule) entry concept_id visit_map
                    entries_required rec with
  | None => None
  | Some rec =>
      Some (<["mapping_rule" :=
                VStr ("RuleMapper:" +:+ MappingRule.name rule)]> rec)
  end.

(** The loop of [map_entry] over [enumerate(concept_ids)]; [i] is the
    index of the head of [concept_ids]. *)
Fixpoint fan_out
    (rule : MappingRule.t) (entry : Element) (person_id base_id : Z)
    (visit_map : gmap string Z) (entries_required : bool)
    (i : Z) (concept_ids : list Z) : list record :=
  match concept_ids with
  | [] => []
  | concept_id :: rest =>
      let tail :=
        fan_out rule entry person_id base_id visit_map entries_required
                (i + 1) rest in
      match _create_record rule entry person_id (base_id + i) concept_id
                           visit_map entries_required with
      | Some rec => rec :: tail
      | None => tail
      end
  end.

Definition map_entry
    (rule : MappingRule.t) (entry : option Element) (person_id : Z)
    (visit_map : gmap string Z) (entries_required : bool)
  : res (list record) :=
  match entry with
  | None => Ok []
  | Some node =>
      if negb (should_include_entry entry) then Ok []
      else
        let! concept_ids := _extract_concept_ids rule node entries_required in
        let resolved :=
          match concept_ids with
          | [] => if negb entries_required then Some [0] else None
          | _ :: _ => Some concept_ids
          end in
        match resolved with
        | None => Ok []
        | Some concept_ids =>
            let conditions :=
              SourceSpec.conditions (MappingRule.source rule) in
            if match conditions with [] => false | _ :: _ => true end
               && negb (_check_conditions conditions node
                                          (List.hd 0 concept_ids))
            then Ok []
            else
              let! base_id := _generate_id rule node person_id in
              Ok (fan_out rule node person_id base_id visit_map
                          entries_required 0 concept_ids)
        end
  end.

Fixpoint map_entries
    (rule : MappingRule.t) (entries : list (option Element))
    (person_id : Z) (visit_map : gmap string Z) (entries_required : bool)
  : res (list record) :=
  match entries with
  | [] => Ok []
  | entry :: rest =>
      let! mapped := map_entry rule entry person_id visit_map entries_required in
      let! results := map_entries rule rest person_id visit_map entries_required in
      Ok (mapped ++ results)
  end.

End WithBuiltins.

Abbreviation value := (value_of pyfloat datetime).
Abbreviation record := (gmap string value).

End RuleEngine.

(** ** A concrete interpreter for worked examples

    The examples below run the model; they need an instance of
    [Builtins]. This one covers what the examples use: location paths
    [name/.../name] and [name/.../@name] relative to the entry, [int] on
    plain decimal literals, ASCII lower-casing. An expression outside that
    fragment is reported invalid; [float] and HL7 times are not consulted
    by any example. *)

Module Fragment.

Definition is_letter (c : ascii) : bool :=
  let n := Z.of_N (N_of_ascii c) in
  ((65 <=? n) && (n <=? 90)) || ((97 <=? n) && (n <=? 122)) || (n =? 95).

Definition is_digit (c : ascii) : bool :=
  let n := Z.of_N (N_of_ascii c) in (48 <=? n) && (n <=? 57).

Fixpoint all_chars (p : ascii -> bool) (s : string) : bool :=
  match s with
  | EmptyString => true
  | String c rest => p c && all_chars p rest
  end.

Definition valid_name (s : string) : bool :=
  match s with
  | EmptyString => false
  | String c rest =>
      is_letter c && all_chars (fun c => is_letter c || is_digit c) rest
  end.

Definition children_named (name : string) (nodes : list Element)
  : list Element :=
  flat_map
    (fun n => List.filter (fun c => String.eqb (Extractor.tag c) name)
                          (Extractor.children n))
    nodes.

Definition attribute_values (name : string) (nodes : list Element)
  : list string :=
  omap
    (fun n => snd <$> List.find (fun kv => String.eqb kv.1 name)
                                (Extractor.attrib n))
    nodes.

Fixpoint eval_steps (steps : list string) (nodes : list Element) : xresult :=
  match steps with
  | [] => XInvalid
  | [step] =>
      match step with
      | String "@" name =>
          if valid_name name
          then XNodes (XText <$> attribute_values name nodes)
          else XInvalid
      | _ =>
          if valid_name step
          then XNodes (XElem <$> children_named step nodes)
          else XInvalid
      end
  | step :: rest =>
      if valid_name step then eval_steps rest (children_named step nodes)
      else XInvalid
  end.

Definition xpath (node : Element) (expression : string) : xresult :=
  eval_steps (Str.split "/" expression) [node].

Fixpoint digits_value (s : string) (acc : Z) : option Z :=
  match s with
  | EmptyString => Some acc
  | String c rest =>
      if is_digit c
      then digits_value rest (10 * acc + (Z.of_N (N_of_ascii c) - 48))
      else None
  end.

Definition int_of_decimal (s : string) : option Z :=
  match s with
  | EmptyString => None
  | String "-" (String _ _ as rest) => Z.opp <$> digits_value rest 0
  | _ => digits_value s 0
  end.

Definition lower_char (c : ascii) : ascii :=
  let n := N_of_ascii c in
  if ((65 <=? Z.of_N n) && (Z.of_N n <=? 90)) then ascii_of_N (n + 32) else c.

Fixpoint lower (s : string) : string :=
  match s with
  | EmptyString => EmptyString
  | String c rest => String (lower_char c) (lower rest)
  end.

#[export] Instance builtins : Builtins := {|
  pyfloat := Empty_set;
  datetime := Empty_set;
  py_int := int_of_decimal;
  py_float := fun _ => None;
  str_lower := lower;
  parse_hl7_time := fun _ => None;
  at_midnight := fun dt => dt;
  element_xpath := xpath;
  element_str := fun e => "<Element " +:+ Extractor.tag e +:+ ">"
|}.

End Fragment.

(** ** Worked data: a small vocabulary, two rules, some entries *)

Module Examples.
Import Fragment.

(** CONCEPT.csv and CONCEPT_RELATIONSHIP.csv, as rows of fields. *)
Definition concept_rows : list (list string) :=
  [ [ "concept_id"; "concept_name"; "domain_id"; "vocabulary_id";
      "concept_class_id"; "standard_concept"; "concept_code";
      "valid_start_date"; "valid_end_date"; "invalid_reason" ];
    [ "201826"; "Type 2 diabetes mellitus"; "Condition"; "SNOMED";
      "Clinical Finding"; "S"; "44054006"; "19700101"; "20991231"; "" ];
    [ "443731"; "Renal disorder due to type 2 diabetes mellitus";
      "Condition"; "SNOMED"; "Clinical Finding"; "S"; "420279001";
      "19700101"; "20991231"; "" ];
    [ "45561952"; "Type 2 diabetes with nephropathy"; "Condition";
      "ICD10CM"; "5-char"; ""; "E11.21"; "19700101"; "20991231"; "" ];
    [ "45600001"; "Orphan code"; "Observation"; "ICD10CM"; "5-char"; "";
      "Z00.0"; "19700101"; "20991231"; "" ];
    [ "999"; "Retired"; "Condition"; "SNOMED"; "Clinical Finding"; "S";
      "999"; "19700101"; "20001231"; "D" ] ].

Definition relationship_rows : list (list string) :=
  [ [ "concept_id_1"; "concept_id_2"; "relationship_id";
      "valid_start_date"; "valid_end_date"; "invalid_reason" ];
    [ "45561952"; "443731"; "Maps to"; "19700101"; "20991231"; "" ];
    [ "45561952"; "77"; "Maps to"; "19700101"; "20001231"; "D" ];
    [ "45561952"; "201826"; "Is a"; "19700101"; "20991231"; "" ];
    [ "45561952"; "201826"; "Maps to"; "19700101"; "20991231"; "" ];
    [ "5"; "6"; "Maps to"; "19700101"; "20991231"; "" ] ].

(** The loader after both files have been loaded. *)
Definition concepts_loaded : VocabLoader.t :=
  match VocabLoader.load_concepts concept_rows VocabLoader.new with
  | Ok (_, vl) => vl
  | Raise _ => VocabLoader.new
  end.

Definition loaded : VocabLoader.t :=
  match VocabLoader.load_concept_relationships relationship_rows
          concepts_loaded with
  | Ok (_, vl) => vl
  | Raise _ => concepts_loaded
  end.

Definition vocab : VocabularyMapper.t :=
  {| VocabularyMapper.vocab_loader := Some loaded |}.

Definition no_vocab : VocabularyMapper.t :=
  {| VocabularyMapper.vocab_loader := None |}.

Definition field
    (target xpath vocab_xpath transform : string) (optional : bool)
  : FieldMapping.t :=
  {| FieldMapping.target := target;
     FieldMapping.xpath := xpath;
     FieldMapping.fallback_xpath := "";
     FieldMapping.vocab_xpath := vocab_xpath;
     FieldMapping.transform := transform;
     FieldMapping.optional := optional;
     FieldMapping.source := "";
     FieldMapping.vocab_field := "" |}.

Definition rule_with
    (name table : string) (conditions : list Condition.t)
    (fields : list FieldMapping.t) : MappingRule.t :=
  {| MappingRule.name := name;
     MappingRule.source :=
       {| SourceSpec.section := "Problems";
          SourceSpec.section_oid := "2.16.840.1.113883.10.20.22.2.5";
          SourceSpec.section_oid_entries_required :=
            "2.16.840.1.113883.10.20.22.2.5.1";
          SourceSpec.entry_xpath := "entry/act";
          SourceSpec.entry_type := "Act";
          SourceSpec.extraction := [];
          SourceSpec.conditions := conditions |};
     MappingRule.target :=
       {| TargetSpec.table := table; TargetSpec.type_concept_id := 32817 |};
     MappingRule.fields := fields;
     MappingRule.id_gen :=
       {| IDGenSpec.base_fields := ["code.code"];
          IDGenSpec.generator := "" |} |}.

Definition concept_field : FieldMapping.t :=
  field "condition_concept_id" "code/@code" "code/@codeSystem" "vocab" false.

Definition source_value_field : FieldMapping.t :=
  field "condition_source_value" "code/@displayName" "" "string" false.

Definition condition_rule : MappingRule.t :=
  rule_with "problem_to_condition" "condition_occurrence"
    [ {| Condition.type := "domain_equals"; Condition.field := "";
         Condition.value := "Condition" |} ]
    [ concept_field; source_value_field ].

Definition observation_rule : MappingRule.t :=
  rule_with "problem_to_observation" "observation"
    [ {| Condition.type := "domain_equals"; Condition.field := "";
         Condition.value := "Observation" |} ]
    [ concept_field; source_value_field ].

(** [<act moodCode=M><statusCode code=S/>
      <code code=C codeSystem=O displayName=D/></act>] *)
Definition act (mood status code code_system display : string) : Element :=
  Elem "act" [("moodCode", mood)] None
    [ Elem "statusCode" [("code", status)] None [];
      Elem "code"
        [("code", code); ("codeSystem", code_system);
         ("displayName", display)] None [] ].

Definition diabetes_nephropathy : Element :=
  act "EVN" "active" "E11.21" "2.16.840.1.113883.6.90"
      "Type 2 diabetes with nephropathy".

Definition diabetes : Element :=
  act "EVN" "active" "44054006" "2.16.840.1.113883.6.96"
      "Type 2 diabetes mellitus".

Definition unknown_code : Element :=
  act "EVN" "completed" "X99" "2.16.840.1.113883.6.90" "Unknown".

Definition planned : Element :=
  act "INT" "active" "44054006" "2.16.840.1.113883.6.96" "Planned".

Definition cancelled : Element :=
  act "EVN" "cancelled" "44054006" "2.16.840.1.113883.6.96" "Cancelled".

(** Two of the concepts of [concept_rows]. *)
Definition nephropathy_concept : VocabLoader.Concept :=
  {| VocabLoader.concept_id := 45561952;
     VocabLoader.concept_name := "Type 2 diabetes with nephropathy";
     VocabLoader.domain_id := "Condition";
     VocabLoader.vocabulary_id := "ICD10CM";
     VocabLoader.concept_class_id := "5-char";
     VocabLoader.standard_concept := "";
     VocabLoader.concept_code := "E11.21" |}.

Definition diabetes_concept : VocabLoader.Concept :=
  {| VocabLoader.concept_id := 201826;
     VocabLoader.concept_name := "Type 2 diabetes mellitus";
     VocabLoader.domain_id := "Condition";
     VocabLoader.vocabulary_id := "SNOMED";
     VocabLoader.concept_class_id := "Clinical Finding";
     VocabLoader.standard_concept := "S";
     VocabLoader.concept_code := "44054006" |}.

(** A rule without conditions. *)
Definition plain_rule : MappingRule.t :=
  rule_with "problem_plain" "condition_occurrence" []
    [ concept_field; source_value_field ].

(** A rule whose vocabulary field has a malformed XPath expression. *)
Definition malformed_rule : MappingRule.t :=
  rule_with "problem_malformed" "condition_occurrence" []
    [ field "condition_concept_id" "[" "code/@codeSystem" "vocab" false;
      source_value_field ].

(** A rule one of whose field mappings writes the column "person_id". *)
Definition overwriting_rule : MappingRule.t :=
  rule_with "problem_overwriting" "condition_occurrence" []
    [ concept_field;
      field "person_id" "code/@displayName" "" "string" false ].

(** The records the condition rule gives for the two-concept entry. *)
Definition nephropathy_records : list RuleEngine.record :=
  value_or [] (RuleEngine.map_entry vocab condition_rule
                 (Some diabetes_nephropathy) 12345 ∅ true).

(** The records the overwriting rule gives for the diabetes entry. *)
Definition overwritten_records : list RuleEngine.record :=
  value_or [] (RuleEngine.map_entry vocab overwriting_rule
                 (Some diabetes) 12345 ∅ true).




(** A rule with a malformed XPath expression in a field other than the
    vocabulary field. *)
Definition caught_rule : MappingRule.t :=
  rule_with "problem_caught" "condition_occurrence" []
    [ concept_field; field "condition_source_value" "[" "" "string" false ].

End Examples.

(** ** Vocabulary for stating the properties of the engine *)

Module EngineSpec.
Import RuleEngine.

(** The last character of a string. *)
Fixpoint last_char (s : string) : option ascii :=
  match s with
  | EmptyString => None
  | String c EmptyString => Some c
  | String _ rest => last_char rest
  end.

Section WithBuiltins.
Context `{Builtins}.
Variable vocab : VocabularyMapper.t.

(** [fm.optional or not entries_required] *)
Definition is_optional (fm : FieldMapping.t) (entries_required : bool)
  : bool :=
  FieldMapping.optional fm || negb entries_required.

(** The extraction of a field yields no value: it returns [None] or it
    raises. *)
Definition field_fails
    (entry : Element) (concept_id : Z) (visit_map : gmap string Z)
    (fm : FieldMapping.t) : Prop :=
  match _extract_field_value vocab entry fm concept_id visit_map with
  | Ok (Some _) => False
  | Ok None | Raise _ => True
  end.

Definition required_field_fails
    (entry : Element) (concept_id : Z) (visit_map : gmap string Z)
    (entries_required : bool) (fm : FieldMapping.t) : Prop :=
  is_optional fm entries_required = false ∧
  field_fails entry concept_id visit_map fm.


(** One condition, read against the domain of a concept. *)
Definition condition_holds (concept_id : Z) (cond : Condition.t) : Prop :=
  (Condition.type cond = "domain_equals" ->
   VocabularyMapper.get_concept_domain vocab concept_id
     = Condition.value cond) ∧
  (Condition.type cond = "domain_not_equals" ->
   VocabularyMapper.get_concept_domain vocab concept_id
     ≠ Condition.value cond).

(** The rule has no conditions, or they hold of the concept. *)
Definition conditions_pass
    (rule : MappingRule.t) (entry : Element) (concept_id : Z) : Prop :=
  SourceSpec.conditions (MappingRule.source rule) = [] ∨
  _check_conditions vocab (SourceSpec.conditions (MappingRule.source rule))
                    entry concept_id = true.

(** No vocabulary field of the rule resolves to a concept: each one has
    no code in the entry, or a code for which the vocabulary has no id. *)
Definition resolves_nothing
    (rule : MappingRule.t) (entry : Element) : Prop :=
  Forall
    (fun fm =>
       FieldMapping.transform fm = "vocab" ->
       ∃ code,
         _extract_xpath_value entry (FieldMapping.xpath fm)
                              (FieldMapping.fallback_xpath fm) = Ok code ∧
         (code = "" ∨ vocab_field_ids vocab entry fm code = Ok []))
    (MappingRule.fields rule).

(** No field mapping of the rule writes the column [key]. *)
Definition untargeted (rule : MappingRule.t) (key : string) : Prop :=
  key ∉ (FieldMapping.target <$> MappingRule.fields rule).

End WithBuiltins.

End EngineSpec.

(** ** ccda/hl7_time.py *)

(** More of [str]: lengths and slices count characters, not bytes. *)
Module PyStr.

(** [s.rstrip(c)] for a one-character [c]. *)
Fixpoint rstrip (c : ascii) (s : string) : string :=
  match s with
  | EmptyString => ""
  | String a rest =>
      match rstrip c rest with
      | EmptyString => if Ascii.eqb a c then "" else String a ""
      | stripped => String a stripped
      end
  end.

(** The bytes left when the continuation bytes in front are dropped. *)
Fixpoint skip_continuation (s : string) : string :=
  match s with
  | String c rest =>
      if (128 <=? Z.of_N (N_of_ascii c)) && (Z.of_N (N_of_ascii c) <? 192)
      then skip_continuation rest else s
  | EmptyString => ""
  end.

(** [s[1:]] *)
Definition after_first (s : string) : string :=
  match s with
  | String _ rest => skip_continuation rest
  | EmptyString => ""
  end.

(** [s[:s.rfind(c)]] when [c] occurs in [s]; [None] when [rfind] gives
    -1. *)
Fixpoint before_last (c : ascii) (s : string) : option string :=
  match s with
  | EmptyString => None
  | String a rest =>
      match before_last c rest with
      | Some prefix => Some (String a prefix)
      | None => if Ascii.eqb a c then Some "" else None
      end
  end.

(** [len(s)] *)
Definition len (s : string) : nat := length (Str.chars s).

(** [s[:n]] *)
Definition prefix (n : nat) (s : string) : string :=
  fold_right String.append "" (take n (Str.chars s)).

End PyStr.

Module Hl7Time.

Section WithStrptime.

(** The values of [datetime], and [datetime.strptime(text, format)];
    [None] stands for the [ValueError] of a text that does not match. *)
Variable datetime : Type.
Variable strptime : string -> string -> option datetime.

(** What the loop over the two signs does for one of them: the text cut
    at the last sign, if the sign occurs after the first character. *)
Definition cut_at (sep : ascii) (s : string) : option string :=
  if Str.contains sep (PyStr.after_first s) then
    match PyStr.before_last sep s with
    | Some prefix => if truthy prefix then Some prefix else None
    | None => None
    end
  else None.

(** The text without its time zone: trailing "Z"s removed, then cut at
    the last "+", or else at the last "-". *)
Definition without_zone (s : string) : string :=
  let s := PyStr.rstrip "Z" s in
  match cut_at "+" s with
  | Some prefix => prefix
  | None =>
      match cut_at "-" s with
      | Some prefix => prefix
      | None => s
      end
  end.

Definition formats : list (string * nat) :=
  [ ("%Y%m%d%H%M%S", 14%nat);
    ("%Y%m%d%H%M", 12%nat);
    ("%Y%m%d%H", 10%nat);
    ("%Y%m%d", 8%nat);
    ("%Y%m", 6%nat);
    ("%Y", 4%nat) ].

(** The loop over the formats. *)
Fixpoint first_match (formats : list (string * nat)) (s : string)
  : option datetime :=
  match formats with
  | [] => None
  | (fmt, length) :: rest =>
      if (length <=? PyStr.len s)%nat then
        match strptime (PyStr.prefix length s) fmt with
        | Some dt => Some dt
        | None => first_match rest s
        end
      else first_match rest s
  end.

Definition parse_hl7_time (s : string) : option datetime :=
  if negb (truthy s) then None
  else first_match formats (without_zone s).

End WithStrptime.

Arguments first_match {datetime} strptime formats s.
Arguments parse_hl7_time {datetime} strptime s.

(** A text of ASCII characters. *)
Definition ascii_only (s : string) : Prop :=
  Forall (λ c, Z.of_N (N_of_ascii c) < 128) (list_ascii_of_string s).

(** A text of ASCII characters in which none of "Z", "+" and "-"
    occurs. *)
Definition plain (s : string) : Prop :=
  Forall (λ c, Z.of_N (N_of_ascii c) < 128
               ∧ c ≠ "Z"%char ∧ c ≠ "+"%char ∧ c ≠ "-"%char)
         (list_ascii_of_string s).

End Hl7Time.

(** A stand-in for [strptime] to run the parser with: it accepts the
    texts of digits, whatever the format, and returns them as they
    are. *)
Module TimeExamples.

Definition digits (text format : string) : option string :=
  if Fragment.all_chars Fragment.is_digit text then Some text else None.

End TimeExamples.

(** ** mapper/vocabulary.py: the other lookups *)

Module ConceptMaps.
Import Vocabulary.

Definition OID_SNOMED_CT : string := "2.16.840.1.113883.6.96".
Definition OID_RXNORM : string := "2.16.840.1.113883.6.88".
Definition OID_LOINC : string := "2.16.840.1.113883.6.1".
Definition OID_ICD10CM : string := "2.16.840.1.113883.6.90".
Definition OID_ICD9CM : string := "2.16.840.1.113883.6.103".
Definition OID_CPT : string := "2.16.840.1.113883.6.12".
Definition OID_CVX : string := "2.16.840.1.113883.12.292".

Definition CONCEPT_MALE : Z := 8507.
Definition CONCEPT_FEMALE : Z := 8532.
Definition CONCEPT_UNKNOWN : Z := 0.
Definition CONCEPT_UNKNOWN_RACE : Z := 0.
Definition CONCEPT_OUTPATIENT : Z := 9202.

(** [d.get(key, default)] for a dictionary display whose keys are
    distinct, given by its items. *)
Definition get {V} (d : list (string * V)) (key : string) (default : V)
  : V :=
  match List.find (fun kv => String.eqb kv.1 key) d with
  | Some kv => kv.2
  | None => default
  end.

(** The dictionary of [get_code_system_name]. *)
Definition names : list (string * string) :=
  [ (OID_SNOMED_CT, "SNOMED-CT");
    (OID_RXNORM, "RxNorm");
    (OID_LOINC, "LOINC");
    (OID_ICD10CM, "ICD-10-CM");
    (OID_ICD9CM, "ICD-9-CM");
    (OID_CPT, "CPT");
    (OID_CVX, "CVX") ].

Definition get_code_system_name (oid : string) : string :=
  get names oid oid.

Definition named_oids : list string := fst <$> names.

(** The four dictionaries [__init__] builds; they are the same in every
    mapper. *)
Definition _gender_concepts : list (string * Z) :=
  [ ("M", CONCEPT_MALE); ("F", CONCEPT_FEMALE); ("UN", CONCEPT_UNKNOWN) ].

Definition _race_concepts : list (string * Z) :=
  [ ("2106-3", 8527); ("2054-5", 8516); ("2028-9", 8515);
    ("1002-5", 8657); ("2076-8", 8557); ("2131-1", 8522) ].

Definition _ethnicity_concepts : list (string * Z) :=
  [ ("2135-2", 38003563); ("2186-5", 38003564) ].

Definition _visit_type_concepts : list (string * Z) :=
  [ ("IMP", 9201); ("AMB", CONCEPT_OUTPATIENT); ("EMER", 9203);
    ("VR", 581477) ].

Definition map_gender (vm : VocabularyMapper.t) (code : string) : Z :=
  get _gender_concepts code CONCEPT_UNKNOWN.

Definition map_race (vm : VocabularyMapper.t) (code : string) : Z :=
  get _race_concepts code CONCEPT_UNKNOWN_RACE.

Definition map_ethnicity (vm : VocabularyMapper.t) (code : string) : Z :=
  get _ethnicity_concepts code CONCEPT_NO_MAPPING.

Definition map_visit_type (vm : VocabularyMapper.t) (class_code : string)
  : Z :=
  get _visit_type_concepts class_code CONCEPT_OUTPATIENT.

(** [map_condition_codes]; the methods for drugs, procedures,
    measurements, observations and devices have the same body. *)
Definition map_condition_codes
    (vm : VocabularyMapper.t) (code code_system : string) : list Z :=
  match VocabularyMapper.vocab_loader vm with
  | None => []
  | Some vl =>
      if negb (truthy code) then []
      else
        let vocab_id := oid_to_vocabulary_id code_system in
        if negb (truthy vocab_id) then []
        else VocabLoader.get_standard_concept_ids vl vocab_id code
  end.

(** [ids[0] if ids else CONCEPT_NO_MAPPING] *)
Definition map_condition_code
    (vm : VocabularyMapper.t) (code code_system : string) : Z :=
  match map_condition_codes vm code code_system with
  | i :: _ => i
  | [] => CONCEPT_NO_MAPPING
  end.

Definition map_drug_codes := map_condition_codes.
Definition map_drug_code := map_condition_code.
Definition map_procedure_codes := map_condition_codes.
Definition map_procedure_code := map_condition_code.
Definition map_measurement_codes := map_condition_codes.
Definition map_measurement_code := map_condition_code.
Definition map_observation_codes := map_condition_codes.
Definition map_observation_code := map_condition_code.
Definition map_device_codes := map_condition_codes.
Definition map_device_code := map_condition_code.

(** [map_measurement_value_code] has the body of [map_route_code]. *)
Definition map_measurement_value_code := VocabularyMapper.map_route_code.

End ConceptMaps.

(** Terms in which the loading of the vocabulary tables is described. *)
Module VocabSpec.
Import VocabLoader.

Definition key_of (c : Concept) : string :=
  _concept_key (vocabulary_id c) (concept_code c).

Section WithBuiltins.
Context `{Builtins}.

(** The concept a row of CONCEPT.csv stands for, when the loader keeps
    the row: ten fields at least, a vocabulary of interest, an integer
    id, no invalid reason. *)
Definition accepted (row : list string) : option Concept :=
  if (length row <? 10)%nat then None
  else if negb (bool_decide (col row 3 ∈ RELEVANT_VOCABS)) then None
  else
    match py_int (col row 0) with
    | None => None
    | Some cid =>
        if truthy (col row 9) then None
        else Some {| concept_id := cid;
                     concept_name := col row 1;
                     domain_id := col row 2;
                     vocabulary_id := col row 3;
                     concept_class_id := col row 4;
                     standard_concept := col row 5;
                     concept_code := col row 6 |}
    end.

(** The edge a row of CONCEPT_RELATIONSHIP.csv stands for, when it is a
    live "Maps to" row with integer ends. *)
Definition live (row : list string) : option (Z * Z) :=
  if (length row <? 6)%nat then None
  else if negb (String.eqb (col row 2) "Maps to") then None
  else if truthy (col row 5) then None
  else
    match py_int (col row 0), py_int (col row 1) with
    | Some source_id, Some target_id => Some (source_id, target_id)
    | _, _ => None
    end.

(** The live edges that leave a concept the loader has indexed. *)
Definition stored (vl : t) (body : list (list string)) : list (Z * Z) :=
  filter (λ edge, is_Some (_concept_by_id vl !! edge.1)) (omap live body).

End WithBuiltins.

(** Every stored list of targets is non-empty and belongs to an indexed
    concept. *)
Definition edges_sound (vl : t) : Prop :=
  ∀ source_id targets,
    _maps_to vl !! source_id = Some targets ->
    targets ≠ [] ∧ is_Some (_concept_by_id vl !! source_id).

End VocabSpec.

(** Terms in which the seeds of the rule engine are described. *)
Module SeedSpec.
Import RuleEngine.

(** [rule.id_gen.generator or rule.target.table] *)
Definition generator_of (rule : MappingRule.t) : string :=
  if truthy (IDGenSpec.generator (MappingRule.id_gen rule))
  then IDGenSpec.generator (MappingRule.id_gen rule)
  else TargetSpec.table (MappingRule.target rule).

Section WithBuiltins.
Context `{Builtins}.

(** The values the base fields of the rule find in the entry, in the
    order of the fields; a field that finds nothing leaves no trace. *)
Definition found_values (rule : MappingRule.t) (entry : Element)
  : res (list string) :=
  id_values (IDGenSpec.base_fields (MappingRule.id_gen rule)) entry [].

End WithBuiltins.

End SeedSpec.

(** ** omop/ids.py: the typed generators *)

Module TypedIds.
Import Ids.

(** [str(n)] for an [int]. *)
Definition str_int (n : Z) : string := pretty n.

Definition generate_visit_id (person_id : Z) (encounter_id : string) : Z :=
  generate_id ["visit"; str_int person_id; encounter_id].

Definition generate_condition_id
    (person_id : Z) (condition_code start_date : string) : Z :=
  generate_id ["condition"; str_int person_id; condition_code; start_date].

Definition generate_drug_exposure_id
    (person_id : Z) (drug_code start_date : string) : Z :=
  generate_id ["drug"; str_int person_id; drug_code; start_date].

Definition generate_procedure_id
    (person_id : Z) (procedure_code date : string) : Z :=
  generate_id ["procedure"; str_int person_id; procedure_code; date].

Definition generate_measurement_id
    (person_id : Z) (measurement_code date value : string) : Z :=
  generate_id
    ["measurement"; str_int person_id; measurement_code; date; value].

Definition generate_observation_id
    (person_id : Z) (observation_code date : string) : Z :=
  generate_id ["observation"; str_int person_id; observation_code; date].

Definition generate_device_exposure_id
    (person_id : Z) (device_code start_date : string) : Z :=
  generate_id ["device"; str_int person_id; device_code; start_date].

End TypedIds.

Module IdsSpec.
Import Ids.

(** The bytes [generate_id] has fed to the hash object when its loop
    ends. *)
Definition fed (values : list string) : hasher :=
  fold_left (fun h v => update (update h (encode v)) [0]) values sha256_new.

(** What [generate_id] makes of the bytes fed. *)
Definition id_of (h : hasher) : Z :=
  let raw_id := unpack_Q (take 8 (hash_digest h)) in
  Z.abs (if raw_id >? 2 ^ 63 - 1 then raw_id - 2 ^ 64 else raw_id).

(** The value has no character U+0000. *)
Definition nul_free (v : string) : Prop := 0 ∉ encode v.

End IdsSpec.

(** ** mapper/rule_loader.py: rule files *)

Module Yaml.

(** What [yaml.safe_load] returns: [None], a scalar ([bool], [int],
    [float], [date] or [datetime], [bytes], [str]), a [list] or a
    [dict]. A [dict] is given by its items in insertion order, the keys
    distinct; a key is hashable, hence a scalar. *)
Inductive value : Type :=
| Null
| Bool (b : bool)
| Int (n : Z)
| Float (repr : string)
| Timestamp (repr : string)
| Binary (data : string)
| Str (s : string)
| Seq (items : list value)
| Map (items : list (value * value)).

(** [key == k] for a [str] [key]: only an equal [str] is equal to it. *)
Definition is_key (key : string) (k : value) : bool :=
  match k with
  | Str s => String.eqb key s
  | _ => false
  end.

Fixpoint lookup (key : string) (items : list (value * value))
  : option value :=
  match items with
  | [] => None
  | (k, v) :: rest => if is_key key k then Some v else lookup key rest
  end.

Definition has_key (key : string) (items : list (value * value)) : bool :=
  match lookup key items with
  | Some _ => true
  | None => false
  end.

(** [key in d] *)
Definition contains (key : string) (d : value) : res bool :=
  match d with
  | Map items => Ok (has_key key items)
  | Seq items => Ok (existsb (is_key key) items)
  | Str s => Ok (Str.has_substring key s)
  | Null | Bool _ | Int _ | Float _ | Timestamp _ | Binary _ =>
      Raise TypeError
  end.

(** [d[key]] *)
Definition getitem (d : value) (key : string) : res value :=
  match d with
  | Map items =>
      match lookup key items with
      | Some v => Ok v
      | None => Raise KeyError
      end
  | _ => Raise TypeError
  end.

(** [d.get(key, default)]: only a [dict] has the method. *)
Definition get (d : value) (key : string) (default : value) : res value :=
  match d with
  | Map items =>
      Ok (match lookup key items with Some v => v | None => default end)
  | _ => Raise AttributeError
  end.

(** [list(d)]: what a [for] loop over [d] visits. *)
Definition iter (d : value) : res (list value) :=
  match d with
  | Seq items => Ok items
  | Map items => Ok (fst <$> items)
  | Str s => Ok (Str <$> Str.chars s)
  | Binary data =>
      Ok ((λ c, Int (Z.of_N (N_of_ascii c))) <$> list_ascii_of_string data)
  | Null | Bool _ | Int _ | Float _ | Timestamp _ => Raise TypeError
  end.

End Yaml.

(** The dataclasses of [mapper/rules.py] as the loader fills them: a
    dataclass does not check the types of its fields, which hold
    whatever the document had. *)
Module Loaded.

Module Condition.
Record t : Type := { type : Yaml.value; field : Yaml.value; value : Yaml.value }.
End Condition.

Module Extraction.
Record t : Type := { field : Yaml.value; xpath : Yaml.value; type : Yaml.value }.
End Extraction.

Module SourceSpec.
Record t : Type := {
  section : Yaml.value;
  section_oid : Yaml.value;
  section_oid_entries_required : Yaml.value;
  entry_xpath : Yaml.value;
  entry_type : Yaml.value;
  extraction : list Extraction.t;
  conditions : list Condition.t
}.
End SourceSpec.

Module TargetSpec.
Record t : Type := { table : Yaml.value; type_concept_id : Yaml.value }.
End TargetSpec.

Module FieldMapping.
Record t : Type := {
  target : Yaml.value;
  xpath : Yaml.value;
  fallback_xpath : Yaml.value;
  vocab_xpath : Yaml.value;
  transform : Yaml.value;
  optional : Yaml.value;
  source : Yaml.value;
  vocab_field : Yaml.value
}.
End FieldMapping.

Module IDGenSpec.
Record t : Type := { base_fields : Yaml.value; generator : Yaml.value }.
End IDGenSpec.

Module MappingRule.
Record t : Type := {
  name : Yaml.value;
  source : SourceSpec.t;
  target : TargetSpec.t;
  fields : list FieldMapping.t;
  id_gen : IDGenSpec.t
}.
End MappingRule.

End Loaded.

Module RuleLoader.

(** A path as the loader sees it: its last component, whether it is a
    regular file, and what [open] followed by [yaml.safe_load] gives for
    it, the document or the exception. *)
Module Path.
Record t : Type := {
  name : string;
  is_file : bool;
  parsed : res Yaml.value
}.
End Path.

(** The argument of [load_rules_from_yaml]: a directory, with the
    entries [iterdir] yields in the order it yields them, or anything
    else. *)
Inductive location : Type :=
| Directory (listing : list Path.t)
| NotDirectory (filepath : Path.t).

(** [[f x for x in xs]] *)
Fixpoint comprehension {A B} (f : A -> res B) (xs : list A)
  : res (list B) :=
  match xs with
  | [] => Ok []
  | x :: rest =>
      let! y := f x in
      let! ys := comprehension f rest in
      Ok (y :: ys)
  end.

Definition convert_condition (c : Yaml.value) : res Loaded.Condition.t :=
  let! type := Yaml.get c "type" (Yaml.Str "") in
  let! field := Yaml.get c "field" (Yaml.Str "") in
  let! value := Yaml.get c "value" (Yaml.Str "") in
  Ok {| Loaded.Condition.type := type;
        Loaded.Condition.field := field;
        Loaded.Condition.value := value |}.

Definition convert_extraction (e : Yaml.value) : res Loaded.Extraction.t :=
  let! field := Yaml.get e "field" (Yaml.Str "") in
  let! xpath := Yaml.get e "xpath" (Yaml.Str "") in
  let! type := Yaml.get e "type" (Yaml.Str "") in
  Ok {| Loaded.Extraction.field := field;
        Loaded.Extraction.xpath := xpath;
        Loaded.Extraction.type := type |}.

Definition convert_field (f : Yaml.value) : res Loaded.FieldMapping.t :=
  let! target := Yaml.get f "target" (Yaml.Str "") in
  let! xpath := Yaml.get f "xpath" (Yaml.Str "") in
  let! fallback_xpath := Yaml.get f "fallback_xpath" (Yaml.Str "") in
  let! vocab_xpath := Yaml.get f "vocab_xpath" (Yaml.Str "") in
  let! transform := Yaml.get f "transform" (Yaml.Str "") in
  let! optional := Yaml.get f "optional" (Yaml.Bool false) in
  let! source := Yaml.get f "source" (Yaml.Str "") in
  let! vocab_field := Yaml.get f "vocab_field" (Yaml.Str "") in
  Ok {| Loaded.FieldMapping.target := target;
        Loaded.FieldMapping.xpath := xpath;
        Loaded.FieldMapping.fallback_xpath := fallback_xpath;
        Loaded.FieldMapping.vocab_xpath := vocab_xpath;
        Loaded.FieldMapping.transform := transform;
        Loaded.FieldMapping.optional := optional;
        Loaded.FieldMapping.source := source;
        Loaded.FieldMapping.vocab_field := vocab_field |}.

(** [[convert(x) for x in d.get(key, [])]] *)
Definition converted {A} (convert : Yaml.value -> res A)
    (d : Yaml.value) (key : string) : res (list A) :=
  let! listed := Yaml.get d key (Yaml.Seq []) in
  let! listed := Yaml.iter listed in
  comprehension convert listed.

Definition _convert_yaml_rule (data : Yaml.value)
  : res Loaded.MappingRule.t :=
  let! source_data := Yaml.get data "source" (Yaml.Map []) in
  let! target_data := Yaml.get data "target" (Yaml.Map []) in
  let! id_gen_data := Yaml.get data "id_gen" (Yaml.Map []) in
  let! conditions := converted convert_condition source_data "conditions" in
  let! extractions := converted convert_extraction source_data "extraction" in
  let! fields := converted convert_field data "fields" in
  let! name := Yaml.get data "name" (Yaml.Str "") in
  let! section := Yaml.get source_data "section" (Yaml.Str "") in
  let! section_oid := Yaml.get source_data "section_oid" (Yaml.Str "") in
  let! entries_required :=
    Yaml.get source_data "section_oid_entries_required" (Yaml.Str "") in
  let! entry_xpath := Yaml.get source_data "entry_xpath" (Yaml.Str "") in
  let! entry_type := Yaml.get source_data "entry_type" (Yaml.Str "") in
  let! table := Yaml.get target_data "table" (Yaml.Str "") in
  let! type_concept_id :=
    Yaml.get target_data "type_concept_id" (Yaml.Int 0) in
  let! base_fields := Yaml.get id_gen_data "base_fields" (Yaml.Seq []) in
  let! generator := Yaml.get id_gen_data "generator" (Yaml.Str "") in
  Ok {| Loaded.MappingRule.name := name;
        Loaded.MappingRule.source :=
          {| Loaded.SourceSpec.section := section;
             Loaded.SourceSpec.section_oid := section_oid;
             Loaded.SourceSpec.section_oid_entries_required :=
               entries_required;
             Loaded.SourceSpec.entry_xpath := entry_xpath;
             Loaded.SourceSpec.entry_type := entry_type;
             Loaded.SourceSpec.extraction := extractions;
             Loaded.SourceSpec.conditions := conditions |};
        Loaded.MappingRule.target :=
          {| Loaded.TargetSpec.table := table;
             Loaded.TargetSpec.type_concept_id := type_concept_id |};
        Loaded.MappingRule.fields := fields;
        Loaded.MappingRule.id_gen :=
          {| Loaded.IDGenSpec.base_fields := base_fields;
             Loaded.IDGenSpec.generator := generator |} |}.

Definition _load_rules_from_file (filepath : Path.t)
  : res (list Loaded.MappingRule.t) :=
  let! data := Path.parsed filepath in
  match data with
  | Yaml.Null => Ok []
  | _ =>
      let! single := Yaml.contains "name" data in
      if single then
        let! rule := _convert_yaml_rule data in
        Ok [rule]
      else
        let! several := Yaml.contains "rules" data in
        if several then
          let! listed := Yaml.getitem data "rules" in
          let! listed := Yaml.iter listed in
          comprehension _convert_yaml_rule listed
        else Ok []
  end.

(** [Path.suffix]: the last component from its last dot on, unless that
    dot is its first or its last character. *)
Definition suffix (name : string) : string :=
  match reverse (Str.split "." name) with
  | extension :: stem :: before =>
      if truthy extension
         && truthy (Str.join "." (reverse (stem :: before)))
      then "." +:+ extension
      else ""
  | _ => ""
  end.

(** The filter of the generator expression. *)
Definition recognized (f : Path.t) : bool :=
  (bool_decide (suffix (Path.name f) ∈ [".yaml"; ".yml"]))
  && Path.is_file f.

(** The order of the paths of one directory: that of their last
    components, character by character. *)
Definition path_le (f g : Path.t) : Prop :=
  String.leb (Path.name f) (Path.name g) = true.

#[global] Instance path_le_dec f g : Decision (path_le f g) :=
  decide (String.leb (Path.name f) (Path.name g) = true).

(** [sorted(f for f in dir_path.iterdir() if ..)] *)
Definition yaml_files (listing : list Path.t) : list Path.t :=
  merge_sort path_le (filter recognized listing).

(** The loop over the sorted files; [rules] is the list being
    extended. *)
Fixpoint extend_with (rules : list Loaded.MappingRule.t)
  (files : list Path.t) : res (list Loaded.MappingRule.t) :=
  match files with
  | [] => Ok rules
  | filepath :: rest =>
      let! file_rules := _load_rules_from_file filepath in
      extend_with (rules ++ file_rules) rest
  end.

Definition _load_rules_from_directory (listing : list Path.t)
  : res (list Loaded.MappingRule.t) :=
  extend_with [] (yaml_files listing).

Definition load_rules_from_yaml (path : location)
  : res (list Loaded.MappingRule.t) :=
  match path with
  | Directory listing => _load_rules_from_directory listing
  | NotDirectory filepath => _load_rules_from_file filepath
  end.

(** The three functions below work on rules whose section and name are
    [str], as the dataclass declares them. *)

(** [index_rules_by_section]: one turn of the loop, then the loop. *)
Definition index_rule (result : gmap string (list MappingRule.t))
    (rule : MappingRule.t) : gmap string (list MappingRule.t) :=
  let section := SourceSpec.section (MappingRule.source rule) in
  let result :=
    match result !! section with
    | None => <[section := []]> result
    | Some _ => result
    end in
  <[section := default [] (result !! section) ++ [rule]]> result.

Definition index_rules_by_section (rules : list MappingRule.t)
  : gmap string (list MappingRule.t) :=
  fold_left index_rule rules ∅.

Fixpoint get_rule_by_section (rules : list MappingRule.t)
    (section : string) : option MappingRule.t :=
  match rules with
  | [] => None
  | rule :: rest =>
      if String.eqb (SourceSpec.section (MappingRule.source rule)) section
      then Some rule
      else get_rule_by_section rest section
  end.

Fixpoint get_rule_by_name (rules : list MappingRule.t) (name : string)
  : option MappingRule.t :=
  match rules with
  | [] => None
  | rule :: rest =>
      if String.eqb (MappingRule.name rule) name
      then Some rule
      else get_rule_by_name rest name
  end.

End RuleLoader.

(** ** mapper/rule_mapper.py: how the mapper finds its rules *)

Module RuleMapper.

(** [self.rules_by_section.get(section, [])] *)
Definition _get_rules_by_section
    (rules_by_section : gmap string (list MappingRule.t))
    (section : string) : list MappingRule.t :=
  default [] (rules_by_section !! section).

(** [rules[0] if rules else None] *)
Definition _get_rule_by_section
    (rules_by_section : gmap string (list MappingRule.t))
    (section : string) : option MappingRule.t :=
  match _get_rules_by_section rules_by_section section with
  | rule :: _ => Some rule
  | [] => None
  end.

Fixpoint fields_use_xpath (fields : list FieldMapping.t) : bool :=
  match fields with
  | [] => false
  | fm :: rest =>
      if truthy (FieldMapping.xpath fm) then true else fields_use_xpath rest
  end.

Definition _rule_uses_xpath (rule : MappingRule.t) : bool :=
  fields_use_xpath (MappingRule.fields rule).

End RuleMapper.

(** ** mapper/rule_mapper.py: mapping the entries of a section *)

(** [SectionMetadata] of [ccda/models.py]. *)
Module SectionMetadata.
Record t : Type := { template_oid : string; entries_required : bool }.
End SectionMetadata.

Module RuleBasedMapper.
Import Extractor RuleMapper.

(** An element of [doc.problems] and the like: an lxml element, or an
    object of another type. *)
Inductive parsed_entry : Type :=
| AsElement (e : Element)
| AsObject.

Section WithBuiltins.
Context `{Builtins}.
Variable vocab : VocabularyMapper.t.

(** What [for x in result] runs over: the items of a node-set, the
    characters of a string; a number or a boolean is not iterable. *)
Definition iterate (result : xresult) : res (list xitem) :=
  match result with
  | XInvalid => Raise XPathEvalError
  | XNodes items => Ok items
  | XString s => Ok (XText <$> Str.chars s)
  | XNumber _ | XBoolean _ => Raise TypeError
  end.

(** [if result] *)
Definition nonempty (result : xresult) : bool :=
  match result with
  | XNodes [] => false
  | XNodes (_ :: _) => true
  | XString s => truthy s
  | XNumber nonzero | XBoolean nonzero => nonzero
  | XInvalid => false
  end.

(** [root == rule.source.section_oid
     or root == rule.source.section_oid_entries_required]
    for [root = t.get("root", "")] *)
Definition root_matches (rule : MappingRule.t) (t : Element) : bool :=
  let root := get t "root" in
  String.eqb root (SourceSpec.section_oid (MappingRule.source rule))
  || String.eqb root
       (SourceSpec.section_oid_entries_required (MappingRule.source rule)).

(** The loop over the templates of one section; a string has no
    [get]. *)
Fixpoint template_found (rule : MappingRule.t) (templates : list xitem)
  : res bool :=
  match templates with
  | [] => Ok false
  | XText _ :: _ => Raise AttributeError
  | XElem t :: rest =>
      if root_matches rule t then Ok true else template_found rule rest
  end.

(** The loop over the sections; a string has no [xpath]. *)
Fixpoint find_section (rule : MappingRule.t) (sections : list xitem)
  : res (option Element) :=
  match sections with
  | [] => Ok None
  | XText _ :: _ => Raise AttributeError
  | XElem s :: rest =>
      let! templates := iterate (element_xpath s "templateId") in
      let! found := template_found rule templates in
      if found then Ok (Some s) else find_section rule rest
  end.

(** [entries_required], [True] unless the metadata of the rule's section
    say otherwise. *)
Definition entries_required_of
    (rule : MappingRule.t) (section_meta : gmap string SectionMetadata.t)
  : bool :=
  match section_meta !! SourceSpec.section (MappingRule.source rule) with
  | Some meta => SectionMetadata.entries_required meta
  | None => true
  end.

(** [self.engine.map_entry(rule, entry, ...)] for an item of an XPath
    result; on a string [should_include_entry] fails at [node.get]. *)
Definition map_item
    (rule : MappingRule.t) (item : xitem) (person_id : Z)
    (visit_map : gmap string Z) (entries_required : bool)
  : res (list RuleEngine.record) :=
  match item with
  | XElem e =>
      RuleEngine.map_entry vocab rule (Some e) person_id visit_map
        entries_required
  | XText _ => Raise AttributeError
  end.

Fixpoint map_items
    (rule : MappingRule.t) (items : list xitem) (person_id : Z)
    (visit_map : gmap string Z) (entries_required : bool)
  : res (list RuleEngine.record) :=
  match items with
  | [] => Ok []
  | item :: rest =>
      let! mapped := map_item rule item person_id visit_map
                       entries_required in
      let! results := map_items rule rest person_id visit_map
                        entries_required in
      Ok (mapped ++ results)
  end.

Definition _map_with_xpath
    (rule : MappingRule.t) (xml_root : option Element) (person_id : Z)
    (visit_map : gmap string Z)
    (section_meta : gmap string SectionMetadata.t)
  : res (list RuleEngine.record) :=
  match xml_root with
  | None => Ok []
  | Some xml_root =>
      let! sections :=
        iterate (element_xpath xml_root "//component/section") in
      let! section := find_section rule sections in
      match section with
      | None => Ok []
      | Some section =>
          let entries_required := entries_required_of rule section_meta in
          let entries :=
            element_xpath section
              (SourceSpec.entry_xpath (MappingRule.source rule)) in
          match entries with
          | XInvalid => Raise XPathEvalError
          | _ =>
              if negb (nonempty entries) then Ok []
              else
                let! items := iterate entries in
                map_items rule items person_id visit_map entries_required
          end
      end
  end.

(** The entries that are lxml elements. *)
Fixpoint xml_entries (entries : list parsed_entry) : list (option Element) :=
  match entries with
  | [] => []
  | AsElement e :: rest => Some e :: xml_entries rest
  | AsObject :: rest => xml_entries rest
  end.

Definition _map_with_rule_and_meta
    (rule : MappingRule.t) (entries : list parsed_entry) (person_id : Z)
    (visit_map : gmap string Z)
    (section_meta : gmap string SectionMetadata.t)
  : res (list RuleEngine.record) :=
  RuleEngine.map_entries vocab rule (xml_entries entries) person_id
    visit_map (entries_required_of rule section_meta).

Definition _map_with_rule_or_xpath
    (rule : MappingRule.t) (entries : list parsed_entry)
    (xml_root : option Element) (person_id : Z)
    (visit_map : gmap string Z)
    (section_meta : gmap string SectionMetadata.t)
  : res (list RuleEngine.record) :=
  if _rule_uses_xpath rule
     && match xml_root with Some _ => true | None => false end
  then _map_with_xpath rule xml_root person_id visit_map section_meta
  else _map_with_rule_and_meta rule entries person_id visit_map
         section_meta.

End WithBuiltins.

(** The sections that carry a template of the rule, given the templates
    of each section. *)
Definition carries
    (rule : MappingRule.t) (templates_of : Element -> list Element)
    (section : Element) : bool :=
  existsb (root_matches rule) (templates_of section).

End RuleBasedMapper.

(** ** A document to run the mapper on

    The interpreter of [Fragment], extended with the expressions
    [//name/.../name], evaluated at the root element of a document. *)

Module DocumentExamples.
Import Examples.

Fixpoint descendants (e : Element) : list Element :=
  match e with
  | Elem _ _ _ children => e :: flat_map descendants children
  end.

Definition xpath (node : Element) (expression : string) : xresult :=
  match expression with
  | String "/" (String "/" path) =>
      Fragment.eval_steps (Str.split "/" path) (descendants node)
  | _ => Fragment.xpath node expression
  end.

Definition builtins : Builtins := {|
  pyfloat := Empty_set;
  datetime := Empty_set;
  py_int := Fragment.int_of_decimal;
  py_float := fun _ => None;
  str_lower := Fragment.lower;
  parse_hl7_time := fun _ => None;
  at_midnight := fun dt => dt;
  element_xpath := xpath;
  element_str := fun e => "<Element " +:+ Extractor.tag e +:+ ">"
|}.

Definition section (templates : list string) (acts : list Element)
  : Element :=
  Elem "section" [] None
    (((fun root => Elem "templateId" [("root", root)] None []) <$> templates)
     ++ ((fun a => Elem "entry" [] None [a]) <$> acts)).

Definition medications_section : Element :=
  section ["2.16.840.1.113883.10.20.22.2.1.1"] [planned].

Definition problems_section : Element :=
  section ["2.16.840.1.113883.10.20.22.2.5.1"]
          [diabetes_nephropathy; diabetes].

(** A section whose template has no root attribute. *)
Definition anonymous_section : Element :=
  Elem "section" [] None
    [ Elem "templateId" [] None []; Elem "entry" [] None [unknown_code] ].

Definition document_of (sections : list Element) : Element :=
  Elem "ClinicalDocument" [] None
    [ Elem "component" [] None
        [ Elem "structuredBody" [] None
            ((fun s => Elem "component" [] None [s]) <$> sections) ] ].

Definition document : Element :=
  document_of [medications_section; problems_section].

(** The templates of a section of these documents. *)
Definition templates_of (s : Element) : list Element :=
  List.filter (fun c => String.eqb (Extractor.tag c) "templateId")
              (Extractor.children s).

(** A rule that leaves the second identifier of its section empty. *)
Definition short_rule : MappingRule.t :=
  {| MappingRule.name := "problem_short";
     MappingRule.source :=
       {| SourceSpec.section := "Problems";
          SourceSpec.section_oid := "2.16.840.1.113883.10.20.22.2.5";
          SourceSpec.section_oid_entries_required := "";
          SourceSpec.entry_xpath := "entry/act";
          SourceSpec.entry_type := "Act";
          SourceSpec.extraction := [];
          SourceSpec.conditions := [] |};
     MappingRule.target := MappingRule.target plain_rule;
     MappingRule.fields := MappingRule.fields plain_rule;
     MappingRule.id_gen := MappingRule.id_gen plain_rule |}.

(** Metadata saying that the problems section may come without
    entries. *)
Definition optional_entries : gmap string SectionMetadata.t :=
  {[ "Problems" := {| SectionMetadata.template_oid :=
                        "2.16.840.1.113883.10.20.22.2.5";
                      SectionMetadata.entries_required := false |} ]}.

End DocumentExamples.

(** What the loader is expected to do, in plain terms. *)
Module LoaderSpec.

(** The rules of the files, concatenated in the order of the files; the
    first file that fails to load fails the whole. *)
Fixpoint concatenated {A} (loaded : list (res (list A))) : res (list A) :=
  match loaded with
  | [] => Ok []
  | file_rules :: rest =>
      let! rules := file_rules in
      let! more := concatenated rest in
      Ok (rules ++ more)
  end.

(** A document that is neither a rule nor a list of rules: nothing, or
    a mapping with neither key, or a sequence or text in which neither
    word occurs. *)
Definition unrecognized (d : Yaml.value) : bool :=
  match d with
  | Yaml.Null => true
  | Yaml.Map items =>
      negb (Yaml.has_key "name" items) && negb (Yaml.has_key "rules" items)
  | Yaml.Seq items =>
      negb (existsb (Yaml.is_key "name") items)
      && negb (existsb (Yaml.is_key "rules") items)
  | Yaml.Str s =>
      negb (Str.has_substring "name" s)
      && negb (Str.has_substring "rules" s)
  | _ => false
  end.

(** A document on which [in] is not defined. *)
Definition scalar (d : Yaml.value) : bool :=
  match d with
  | Yaml.Bool _ | Yaml.Int _ | Yaml.Float _ | Yaml.Timestamp _
  | Yaml.Binary _ => true
  | _ => false
  end.

Definition is_mapping (d : Yaml.value) : bool :=
  match d with Yaml.Map _ => true | _ => false end.

(** The word is an element of the sequence, or occurs in the text. *)
Definition mentions (word : string) (d : Yaml.value) : bool :=
  match d with
  | Yaml.Seq items => existsb (Yaml.is_key word) items
  | Yaml.Str s => Str.has_substring word s
  | _ => false
  end.

(** The call raises no exception outside [P]. *)
Definition raises_only {A} (P : exc -> Prop) (m : res A) : Prop :=
  ∀ e, m = Raise e -> P e.

Definition lookup_error (e : exc) : Prop :=
  e = AttributeError ∨ e = TypeError.

Definition section_of (rule : MappingRule.t) : string :=
  SourceSpec.section (MappingRule.source rule).

(** The rule a mapping with none of the keys "source", "target",
    "id_gen" and "fields" stands for. *)
Definition bare_rule (name : Yaml.value) : Loaded.MappingRule.t :=
  {| Loaded.MappingRule.name := name;
     Loaded.MappingRule.source :=
       {| Loaded.SourceSpec.section := Yaml.Str "";
          Loaded.SourceSpec.section_oid := Yaml.Str "";
          Loaded.SourceSpec.section_oid_entries_required := Yaml.Str "";
          Loaded.SourceSpec.entry_xpath := Yaml.Str "";
          Loaded.SourceSpec.entry_type := Yaml.Str "";
          Loaded.SourceSpec.extraction := [];
          Loaded.SourceSpec.conditions := [] |};
     Loaded.MappingRule.target :=
       {| Loaded.TargetSpec.table := Yaml.Str "";
          Loaded.TargetSpec.type_concept_id := Yaml.Int 0 |};
     Loaded.MappingRule.fields := [];
     Loaded.MappingRule.id_gen :=
       {| Loaded.IDGenSpec.base_fields := Yaml.Seq [];
          Loaded.IDGenSpec.generator := Yaml.Str "" |} |}.

End LoaderSpec.

(** Rule files for the worked examples. *)
Module LoaderExamples.
Import RuleLoader.

Definition named (name section table : string) : Yaml.value :=
  Yaml.Map
    [ (Yaml.Str "name", Yaml.Str name);
      (Yaml.Str "source", Yaml.Map [(Yaml.Str "section", Yaml.Str section)]);
      (Yaml.Str "target", Yaml.Map [(Yaml.Str "table", Yaml.Str table)]);
      (Yaml.Str "fields", Yaml.Seq []) ].

Definition medications : Yaml.value :=
  named "medications" "Medications" "drug_exposure".

Definition problems : Yaml.value :=
  Yaml.Map
    [ (Yaml.Str "rules",
       Yaml.Seq [ named "problem_to_condition" "Problems"
                        "condition_occurrence";
                  named "problem_to_observation" "Problems"
                        "observation" ]) ].

Definition file (name : string) (document : Yaml.value) : Path.t :=
  {| Path.name := name; Path.is_file := true; Path.parsed := Ok document |}.

(** A directory as [iterdir] may list it: two rule files, a text file,
    a sub-directory whose name ends in ".yaml", a hidden file. *)
Definition rules_dir : list Path.t :=
  [ file "20_medications.yaml" medications;
    file "notes.txt" (Yaml.Str "see the rules");
    {| Path.name := "archive.yaml"; Path.is_file := false;
       Path.parsed := Raise OSError |};
    file "10_problems.yml" problems;
    file ".yaml" (Yaml.Int 1) ].

Definition other_keys : Yaml.value :=
  Yaml.Map [ (Yaml.Str "some_other_key", Yaml.Str "value");
             (Yaml.Str "another_key", Yaml.Int 123) ].

End LoaderExamples.

(* ================================================================== *)
(** * Properties *)
(* ================================================================== *)

Section VocabularyFacts.
Import Vocabulary.

Lemma mapping_keys_distinct : NoDup mapping_keys.
Proof. apply (bool_decide_unpack _). vm_compute. exact I. Qed.

Lemma dict_of_list_to_map (items : list (string * string)) :
  dict_of items = list_to_map (reverse items).
Proof.
  unfold dict_of, reverse. rewrite <- rev_alt.
  rewrite <- (fold_left_rev_right (fun kv d => <[kv.1 := kv.2]> d)).
  generalize (rev items) as l.
  induction l as [|[k v] l IH]; simpl; [done|]. by rewrite IH.
Qed.

Lemma dict_of_lookup_Some (items : list (string * string)) k v :
  NoDup (items.*1) ->
  dict_of items !! k = Some v <-> (k, v) ∈ items.
Proof.
  intros Hnd. rewrite dict_of_list_to_map.
  rewrite <- elem_of_list_to_map
    by (by rewrite fmap_reverse, reverse_Permutation).
  by rewrite elem_of_reverse.
Qed.

Lemma dict_of_lookup_None (items : list (string * string)) k :
  dict_of items !! k = None <-> k ∉ items.*1.
Proof.
  rewrite dict_of_list_to_map, <- not_elem_of_list_to_map.
  by rewrite fmap_reverse, elem_of_reverse.
Qed.

Lemma oid_in_table k v :
  (k, v) ∈ mapping -> oid_to_vocabulary_id k = v.
Proof.
  intros Hin. unfold oid_to_vocabulary_id.
  apply (dict_of_lookup_Some _ _ _ mapping_keys_distinct) in Hin.
  by rewrite Hin.
Qed.

Lemma oid_outside_table oid :
  oid ∉ mapping_keys -> oid_to_vocabulary_id oid = "".
Proof.
  intros Hout. unfold oid_to_vocabulary_id.
  apply dict_of_lookup_None in Hout. by rewrite Hout.
Qed.

Lemma oid_values_canonical : Forall (fun v => v ∈ canonical_ids) (mapping.*2).
Proof. apply (bool_decide_unpack _). vm_compute. exact I. Qed.

Lemma oid_canonical_fixed :
  Forall (fun c => oid_to_vocabulary_id c = c) canonical_ids.
Proof. apply (bool_decide_unpack _). vm_compute. exact I. Qed.

Lemma oid_cases oid :
  ((oid ∉ mapping_keys) ∧ oid_to_vocabulary_id oid = "") ∨
  (∃ v, ((oid, v) ∈ mapping) ∧ oid_to_vocabulary_id oid = v).
Proof.
  unfold oid_to_vocabulary_id.
  destruct (dict_of mapping !! oid) as [v|] eqn:E.
  - right. exists v. split; [|done].
    by apply (dict_of_lookup_Some _ _ _ mapping_keys_distinct).
  - left. split; [|done]. by apply dict_of_lookup_None.
Qed.

(** C8. The resolver is the table: each listed identifier resolves to
    the vocabulary the table gives it, every other string resolves to
    the empty string, the result is always empty or one of the fourteen
    canonical ids, each canonical id resolves to itself, and resolving
    twice is resolving once; the three spellings of ICD-10-CM agree. *)
Theorem oid_to_vocabulary_id_closed_table :
  (∀ k v, (k, v) ∈ mapping -> oid_to_vocabulary_id k = v) ∧
  (∀ oid, oid ∉ mapping_keys -> oid_to_vocabulary_id oid = "") ∧
  (∀ oid, oid_to_vocabulary_id oid = "" ∨
          oid_to_vocabulary_id oid ∈ canonical_ids) ∧
  (∀ c, c ∈ canonical_ids -> oid_to_vocabulary_id c = c) ∧
  (∀ oid, oid_to_vocabulary_id (oid_to_vocabulary_id oid)
          = oid_to_vocabulary_id oid) ∧
  oid_to_vocabulary_id "ICD-10-CM" = "ICD10CM" ∧
  oid_to_vocabulary_id "ICD10" = "ICD10CM" ∧
  oid_to_vocabulary_id "ICD10CM" = "ICD10CM".
Proof.
  assert (Hcanon : ∀ c, c ∈ canonical_ids -> oid_to_vocabulary_id c = c).
  { intros c Hc. by apply (proj1 (Forall_forall _ _) oid_canonical_fixed). }
  assert (Hval : ∀ k v, (k, v) ∈ mapping -> v ∈ canonical_ids).
  { intros k v Hin.
    apply (proj1 (Forall_forall _ _) oid_values_canonical).
    apply list_elem_of_fmap. by exists (k, v). }
  split; [exact oid_in_table|].
  split; [exact oid_outside_table|].
  split.
  { intros oid. destruct (oid_cases oid) as [[_ ->]|(v & Hin & ->)];
      [by left|right; eauto]. }
  split; [exact Hcanon|].
  split.
  { intros oid. destruct (oid_cases oid) as [[_ ->]|(v & Hin & ->)].
    - by vm_compute.
    - apply Hcanon. eauto. }
  by vm_compute.
Qed.

Lemma oid_to_vocabulary_id_closed_table_witness :
  oid_to_vocabulary_id "CPT-4" = "CPT4" ∧
  oid_to_vocabulary_id "urn:oid:1.2.3" = "".
Proof.
  destruct oid_to_vocabulary_id_closed_table as (Hin & Hout & _).
  split.
  - apply Hin. apply (bool_decide_unpack _). vm_compute. exact I.
  - apply Hout. apply (bool_decide_unpack _). vm_compute. exact I.
Defined.

End VocabularyFacts.

Section VocabLoaderFacts.
Import VocabLoader.
Context `{Builtins}.

Lemma load_relationships_row_frame st row :
  _concept_index (load_relationships_row st row).2 = _concept_index st.2 ∧
  _concept_by_id (load_relationships_row st row).2 = _concept_by_id st.2.
Proof.
  destruct st as [count vl]. unfold load_relationships_row.
  repeat (case_match; simpl; try done).
Qed.

(** One row appends its target to the edge list of its source, and to
    no other list; rows that are not live, or whose source is not
    indexed, change nothing. *)
Lemma load_relationships_row_edges st row src :
  maps_to_get (load_relationships_row st row).2 src =
  maps_to_get st.2 src ++
    (if _concept_by_id st.2 !! src is Some _
     then option_list (live_edge src row) else []).
Proof.
  destruct st as [count vl]. unfold load_relationships_row, live_edge.
  simpl.
  destruct (length row <? 6)%nat; simpl.
  { destruct (_concept_by_id vl !! src); by rewrite app_nil_r. }
  destruct (negb (col row 2 =? "Maps to")%string); simpl.
  { destruct (_concept_by_id vl !! src); by rewrite app_nil_r. }
  destruct (truthy (col row 5)); simpl.
  { destruct (_concept_by_id vl !! src); by rewrite app_nil_r. }
  destruct (py_int (col row 0)) as [s|]; simpl;
    [|destruct (_concept_by_id vl !! src); by rewrite app_nil_r].
  destruct (py_int (col row 1)) as [tgt|]; simpl;
    [|destruct (_concept_by_id vl !! src); by rewrite app_nil_r].
  case_bool_decide as Hs.
  - subst s. destruct (_concept_by_id vl !! src) eqn:Hby; simpl.
    + unfold maps_to_get; simpl. by rewrite lookup_insert_eq.
    + by rewrite app_nil_r.
  - assert (Hother : maps_to_get
              (match _concept_by_id vl !! s with
               | Some _ =>
                   (count + 1,
                    {| _concept_index := _concept_index vl;
                       _concept_by_id := _concept_by_id vl;
                       _maps_to :=
                         <[s := default [] (_maps_to vl !! s) ++ [tgt]]>
                           (_maps_to vl) |})
               | None => (count, vl)
               end).2 src = maps_to_get vl src).
    { destruct (_concept_by_id vl !! s); simpl; [|done].
      unfold maps_to_get; simpl. by rewrite lookup_insert_ne. }
    rewrite Hother.
    destruct (_concept_by_id vl !! src); by rewrite app_nil_r.
Qed.

Lemma load_relationships_rows_edges body : ∀ st src,
  maps_to_get (fold_left load_relationships_row body st).2 src =
  maps_to_get st.2 src ++
    (if _concept_by_id st.2 !! src is Some _
     then live_targets body src else []).
Proof.
  induction body as [|row body IH]; intros st src; simpl.
  { destruct (_concept_by_id st.2 !! src); by rewrite app_nil_r. }
  rewrite IH, load_relationships_row_edges.
  destruct (load_relationships_row_frame st row) as [_ ->].
  unfold live_targets; simpl.
  destruct (_concept_by_id st.2 !! src); [|by rewrite !app_nil_r].
  rewrite <- app_assoc. f_equal.
  by destruct (live_edge src row).
Qed.

Lemma load_relationships_rows_frame body : ∀ st,
  _concept_index (fold_left load_relationships_row body st).2
    = _concept_index st.2.
Proof.
  induction body as [|row body IH]; intros st; simpl; [done|].
  rewrite IH. apply load_relationships_row_frame.
Qed.

(** Loading concepts keeps every indexed concept indexed by id. *)
Lemma load_concepts_row_indexed st row :
  indexed_by_id st.2 -> indexed_by_id (load_concepts_row st row).2.
Proof.
  destruct st as [count vl]. unfold load_concepts_row. simpl. intros Hwf.
  repeat (case_match; simpl; try done).
  intros key c. simpl.
  destruct (decide (_concept_key (col row 3) (col row 6) = key)) as [->|Hne].
  - rewrite lookup_insert_eq. intros [= <-]. simpl.
    rewrite lookup_insert_eq. eauto.
  - rewrite lookup_insert_ne by done. intros Hc.
    destruct (decide (z = concept_id c)) as [->|Hz].
    + rewrite lookup_insert_eq. eauto.
    + rewrite lookup_insert_ne by done. eauto.
Qed.

Lemma load_concepts_indexed rows vl n vl' :
  indexed_by_id vl -> load_concepts rows vl = Ok (n, vl') ->
  indexed_by_id vl'.
Proof.
  intros Hwf. unfold load_concepts.
  destruct rows as [|[|h0 hs] body]; try done.
  destruct (negb _); [done|]. intros [= Hfold].
  assert (Hgen : ∀ st, indexed_by_id st.2 ->
                       indexed_by_id (fold_left load_concepts_row body st).2).
  { clear Hfold.
    induction body as [|row body IH]; intros st Hst; simpl; [done|].
    apply IH. by apply load_concepts_row_indexed. }
  specialize (Hgen (0, vl) Hwf). by rewrite Hfold in Hgen.
Qed.

Lemma new_indexed : indexed_by_id new.
Proof. intros key c. unfold new; simpl. by rewrite lookup_empty. Qed.

(** C1. What [get_standard_concept_ids] returns, in any state of the
    loader: nothing when the key has no concept; for a concept that is
    there, never nothing: its own id when it is flagged "S", else its
    stored edge list when that is not empty, else its own id. And the
    stored edge list of an indexed concept, after the relationship table
    has been loaded into a loader without edges, is the list of targets
    of the live "Maps to" rows leaving it, in row order. *)
Theorem get_standard_concept_ids_spec (vl : t) (vocab_id code : string) :
  match lookup_concept vl vocab_id code with
  | None => get_standard_concept_ids vl vocab_id code = []
  | Some c =>
      get_standard_concept_ids vl vocab_id code ≠ [] ∧
      (standard_concept c = "S" ->
       get_standard_concept_ids vl vocab_id code = [concept_id c]) ∧
      (standard_concept c ≠ "S" -> maps_to_get vl (concept_id c) ≠ [] ->
       get_standard_concept_ids vl vocab_id code
         = maps_to_get vl (concept_id c)) ∧
      (standard_concept c ≠ "S" -> maps_to_get vl (concept_id c) = [] ->
       get_standard_concept_ids vl vocab_id code = [concept_id c]) ∧
      (∀ vl0 header body n,
          indexed_by_id vl0 -> _maps_to vl0 = ∅ ->
          load_concept_relationships (header :: body) vl0 = Ok (n, vl) ->
          maps_to_get vl (concept_id c) = live_targets body (concept_id c))
  end.
Proof.
  unfold get_standard_concept_ids.
  destruct (lookup_concept vl vocab_id code) as [c|] eqn:Hc; [|done].
  destruct (String.eqb_spec (standard_concept c) "S") as [HS|HS].
  - repeat split; try done.
    + intros vl0 header body n Hwf Hempty Hload. revert Hload.
      unfold load_concept_relationships.
      destruct header as [|h0 hs]; [done|].
      destruct (negb _); [done|]. intros [= Hfold].
      pose proof (load_relationships_rows_edges body (0, vl0) (concept_id c))
        as Hedges.
      pose proof (load_relationships_rows_frame body (0, vl0)) as Hframe.
      rewrite Hfold in Hedges, Hframe. simpl in Hedges, Hframe.
      unfold lookup_concept in Hc. rewrite Hframe in Hc.
      destruct (Hwf _ _ Hc) as [c' Hby]. rewrite Hby in Hedges.
      rewrite Hedges. unfold maps_to_get. by rewrite Hempty, lookup_empty.
  - destruct (maps_to_get vl (concept_id c)) as [|t0 ts] eqn:Hm.
    + repeat split; try done.
      intros vl0 header body n Hwf Hempty Hload. revert Hload.
      unfold load_concept_relationships.
      destruct header as [|h0 hs]; [done|].
      destruct (negb _); [done|]. intros [= Hfold].
      pose proof (load_relationships_rows_edges body (0, vl0) (concept_id c))
        as Hedges.
      pose proof (load_relationships_rows_frame body (0, vl0)) as Hframe.
      rewrite Hfold in Hedges, Hframe. simpl in Hedges, Hframe.
      unfold lookup_concept in Hc. rewrite Hframe in Hc.
      destruct (Hwf _ _ Hc) as [c' Hby]. rewrite Hby in Hedges.
      rewrite <- Hm, Hedges. unfold maps_to_get.
      by rewrite Hempty, lookup_empty.
    + repeat split; try done.
      intros vl0 header body n Hwf Hempty Hload. revert Hload.
      unfold load_concept_relationships.
      destruct header as [|h0 hs]; [done|].
      destruct (negb _); [done|]. intros [= Hfold].
      pose proof (load_relationships_rows_edges body (0, vl0) (concept_id c))
        as Hedges.
      pose proof (load_relationships_rows_frame body (0, vl0)) as Hframe.
      rewrite Hfold in Hedges, Hframe. simpl in Hedges, Hframe.
      unfold lookup_concept in Hc. rewrite Hframe in Hc.
      destruct (Hwf _ _ Hc) as [c' Hby]. rewrite Hby in Hedges.
      rewrite <- Hm, Hedges. unfold maps_to_get.
      by rewrite Hempty, lookup_empty.
Qed.

End VocabLoaderFacts.

Section IdsFacts.
Import Ids.

(** Test vectors: FIPS 180-4 "abc" and the two-block message. *)
Example sha256_abc :
  Sha256.digest (encode "abc") =
  [186; 120; 22; 191; 143; 1; 207; 234; 65; 65; 64; 222; 93; 174; 34; 35;
   176; 3; 97; 163; 150; 23; 122; 156; 180; 16; 255; 97; 242; 0; 21; 173].
Proof. by vm_compute. Qed.

Example sha256_two_blocks :
  take 4 (Sha256.digest
    (encode "abcdbcdecdefdefgefghfghighijhijkijkljklmklmnlmnomnopnopq"))
  = [36; 141; 106; 97].
Proof. by vm_compute. Qed.

Example generate_id_test : generate_id ["test"] = 3551308991120709321.
Proof. by vm_compute. Qed.

Lemma be_bytes_length n x : length (Sha256.be_bytes n x) = n.
Proof.
  unfold Sha256.be_bytes.
  by rewrite length_map, length_rev, length_seq.
Qed.

Lemma be_bytes_range n x :
  Forall (fun b => 0 <= b < 256) (Sha256.be_bytes n x).
Proof.
  unfold Sha256.be_bytes. apply Forall_forall. intros b Hb.
  apply list_elem_of_fmap in Hb as (i & -> & _).
  apply Z.mod_pos_bound. lia.
Qed.

Lemma digest_shape msg :
  length (Sha256.digest msg) = 32%nat ∧
  Forall (fun b => 0 <= b < 256) (Sha256.digest msg).
Proof.
  unfold Sha256.digest.
  destruct (fold_left _ _ _) as [[[[[[[a b] c] d] e] f] g] h].
  split.
  - rewrite !length_app, !be_bytes_length. reflexivity.
  - repeat (apply Forall_app; split); apply be_bytes_range.
Qed.

Lemma hasher_fold values : ∀ h,
  fold_left (fun h v => update (update h (encode v)) [0]) values h
  = h ++ concat (map (fun p => encode p ++ [0]) values).
Proof.
  induction values as [|v values IH]; intros h; simpl.
  - by rewrite app_nil_r.
  - rewrite IH. unfold update. by rewrite <- !app_assoc.
Qed.

Lemma unpack_Q_acc b : ∀ acc,
  fold_left (fun acc x => acc * 256 + x) b acc
  = acc * 256 ^ Z.of_nat (length b) + big_endian b.
Proof.
  induction b as [|x b IH]; intros acc; simpl big_endian; simpl fold_left.
  - simpl. lia.
  - rewrite IH. simpl length. rewrite Nat2Z.inj_succ, Z.pow_succ_r by lia.
    ring.
Qed.

Lemma unpack_Q_big_endian b : unpack_Q b = big_endian b.
Proof. unfold unpack_Q. rewrite unpack_Q_acc. lia. Qed.

Lemma big_endian_range b :
  Forall (fun x => 0 <= x < 256) b ->
  0 <= big_endian b < 256 ^ Z.of_nat (length b).
Proof.
  induction 1 as [|x b Hx _ IH]; simpl big_endian; simpl length.
  - simpl. lia.
  - rewrite Nat2Z.inj_succ, Z.pow_succ_r by lia.
    assert (0 < 256 ^ Z.of_nat (length b)) by (apply Z.pow_pos_nonneg; lia).
    nia.
Qed.

Lemma signed64_by_comparison u :
  0 <= u < 2 ^ 64 ->
  (if u >? 2 ^ 63 - 1 then u - 2 ^ 64 else u) = as_signed64 u.
Proof.
  intros Hu. unfold as_signed64.
  destruct (Z.testbit u 63) eqn:Hbit.
  - apply Z.testbit_true in Hbit; [|lia].
    destruct (Z.gtb_spec u (2 ^ 63 - 1)) as [_|Hle]; [done|].
    rewrite Z.div_small in Hbit by lia. done.
  - destruct (Z.gtb_spec u (2 ^ 63 - 1)) as [Hgt|_]; [|done].
    assert (Hq : u / 2 ^ 63 = 1).
    { symmetry. apply (Z.div_unique u (2 ^ 63) 1 (u - 2 ^ 63)); lia. }
    assert (Htrue : Z.testbit u 63 = true).
    { apply Z.testbit_true; [lia|]. by rewrite Hq. }
    congruence.
Qed.

Lemma first8_range msg :
  0 <= big_endian (take 8 (Sha256.digest msg)) < 2 ^ 64.
Proof.
  destruct (digest_shape msg) as [Hlen Hrange].
  pose proof (big_endian_range (take 8 (Sha256.digest msg))
                (Forall_take _ 8 _ Hrange)) as Hb.
  rewrite length_take, Hlen in Hb. exact Hb.
Qed.

(** C2. [generate_id] is the reference definition: the digest of the
    parts, each followed by a zero byte, its first eight bytes read as
    a big-endian unsigned number, that number read as a signed 64-bit
    one, and the absolute value of the latter. Being a function of the
    ordered parts alone, it gives equal results on equal inputs; the
    result lies between 0 and 2^63. *)
Theorem generate_id_reference :
  (∀ values, generate_id values = reference_id values) ∧
  (∀ values1 values2,
      values1 = values2 -> generate_id values1 = generate_id values2) ∧
  (∀ values, 0 <= generate_id values <= 2 ^ 63).
Proof.
  assert (Href : ∀ values, generate_id values = reference_id values).
  { intros values. unfold generate_id, reference_id, hash_digest.
    rewrite hasher_fold. unfold sha256_new. simpl app.
    rewrite unpack_Q_big_endian.
    by rewrite signed64_by_comparison by apply first8_range. }
  split; [exact Href|]. split; [by intros ? ? ->|].
  intros values. rewrite Href. unfold reference_id.
  pose proof (first8_range
    (concat (map (fun p => encode p ++ [0]) values))) as Hr.
  rewrite <- signed64_by_comparison by done.
  destruct (Z.gtb_spec (big_endian (take 8 (Sha256.digest
    (concat (map (fun p => encode p ++ [0]) values))))) (2 ^ 63 - 1)); lia.
Qed.

Lemma generate_id_reference_witness :
  generate_id ["person"; "12345"; "system1"]
  = generate_id ["person"; "12345"; "system1"].
Proof.
  apply (proj1 (proj2 generate_id_reference)). reflexivity.
Defined.

End IdsFacts.

Section ExtractorFacts.
Import Extractor.

Lemma truthy_false s : truthy s = false <-> s = "".
Proof. destruct s; simpl; split; congruence. Qed.

Lemma truthy_true s : truthy s = true <-> s ≠ "".
Proof. destruct s; simpl; split; congruence. Qed.

Lemma mood_check node :
  (truthy (get node "moodCode")
   && negb (String.eqb (get node "moodCode") "EVN")) = false
  <-> get node "moodCode" = "" ∨ get node "moodCode" = "EVN".
Proof.
  destruct (String.eqb_spec (get node "moodCode") "EVN") as [->|Hne].
  - rewrite andb_false_r. tauto.
  - rewrite andb_true_r, truthy_false. tauto.
Qed.

Lemma status_check st :
  (truthy (get st "code")
   && negb (String.eqb (get st "code") "completed"
            || String.eqb (get st "code") "active")) = false
  <-> get st "code" = "" ∨ get st "code" = "completed"
      ∨ get st "code" = "active".
Proof.
  destruct (String.eqb_spec (get st "code") "completed") as [->|Hc];
    [simpl; tauto|].
  destruct (String.eqb_spec (get st "code") "active") as [->|Ha];
    [simpl; tauto|].
  simpl. rewrite andb_true_r, truthy_false. tauto.
Qed.

Lemma should_include_entry_iff node :
  should_include_entry (Some node) = true <->
  (get node "moodCode" = "" ∨ get node "moodCode" = "EVN") ∧
  match find node "statusCode" with
  | None => True
  | Some st =>
      get st "code" = "" ∨ get st "code" = "completed"
      ∨ get st "code" = "active"
  end.
Proof.
  unfold should_include_entry.
  pose proof (mood_check node) as Hm.
  destruct (truthy (get node "moodCode")
            && negb (String.eqb (get node "moodCode") "EVN")).
  { split; [done|]. intros [Hmood _]. apply Hm in Hmood. done. }
  destruct (find node "statusCode") as [st|].
  - pose proof (status_check st) as Hs.
    destruct (truthy (get st "code") && _).
    + split; [done|]. intros [_ Hst]. apply Hs in Hst. done.
    + split; [|done]. intros _. split; [by apply Hm|by apply Hs].
  - split; [|done]. intros _. split; [by apply Hm|done].
Qed.

(** C5. The inclusion filter: an absent node is excluded; a present one
    is included exactly when its moodCode attribute is absent, empty or
    "EVN" and its first statusCode child, if there is one, has a code
    that is absent, empty, "completed" or "active". An excluded entry
    maps to no record, whatever the rule, the vocabulary and the
    interpreter; so does an entry with mood "INT" or status "cancelled". *)
Theorem should_include_entry_spec :
  should_include_entry None = false ∧
  (∀ node,
      should_include_entry (Some node) = true <->
      (get node "moodCode" = "" ∨ get node "moodCode" = "EVN") ∧
      match find node "statusCode" with
      | None => True
      | Some st =>
          get st "code" = "" ∨ get st "code" = "completed"
          ∨ get st "code" = "active"
      end) ∧
  (∀ (B : Builtins) vocab rule entry person_id visit_map entries_required,
      should_include_entry entry = false ->
      RuleEngine.map_entry vocab rule entry person_id visit_map
                           entries_required = Ok []) ∧
  (∀ node, get node "moodCode" = "INT" ->
           should_include_entry (Some node) = false) ∧
  (∀ node st, find node "statusCode" = Some st ->
              get st "code" = "cancelled" ->
              should_include_entry (Some node) = false).
Proof.
  split; [done|]. split; [exact should_include_entry_iff|].
  split.
  { intros B vocab rule [node|] person_id visit_map er Hex; [|done].
    unfold RuleEngine.map_entry. by rewrite Hex. }
  split.
  - intros node Hmood. apply not_true_is_false.
    rewrite should_include_entry_iff, Hmood. intros [[?|?] _]; done.
  - intros node st Hfind Hcode. apply not_true_is_false.
    rewrite should_include_entry_iff, Hfind, Hcode.
    intros [_ [?|[?|?]]]; done.
Qed.

Lemma should_include_entry_spec_witness :
  RuleEngine.map_entry (H := Fragment.builtins) Examples.vocab
    Examples.condition_rule (Some Examples.planned) 12345 ∅ true = Ok [] ∧
  Extractor.should_include_entry (Some Examples.cancelled) = false.
Proof.
  destruct should_include_entry_spec as (_ & _ & Hmap & Hint & Hcancel).
  split.
  - apply Hmap. apply Hint. reflexivity.
  - apply (Hcancel _ (Elem "statusCode" [("code", "cancelled")] None []));
      reflexivity.
Defined.

End ExtractorFacts.

Section EngineFacts.
Import Extractor RuleEngine EngineSpec.
Context `{Builtins}.
Variable vocab : VocabularyMapper.t.

(** *** The loop over the field mappings *)

Lemma fill_fields_None entry cid vm er fields : ∀ rec,
  fill_fields vocab fields entry cid vm er rec = None <->
  Exists (required_field_fails vocab entry cid vm er) fields.
Proof.
  induction fields as [|fm fields IH]; intros rec; simpl.
  { rewrite Exists_nil. split; [done|tauto]. }
  rewrite Exists_cons.
  unfold required_field_fails at 1, field_fails, is_optional.
  destruct (_extract_field_value vocab entry fm cid vm) as [[v|]|e].
  - rewrite IH. tauto.
  - destruct (FieldMapping.optional fm || negb er).
    + rewrite IH. split; [tauto|]. intros [[? _]|?]; [done|tauto].
    + tauto.
  - destruct (FieldMapping.optional fm || negb er).
    + rewrite IH. split; [tauto|]. intros [[? _]|?]; [done|tauto].
    + tauto.
Qed.

(** A column that no succeeding field mapping writes keeps its value. *)
Lemma fill_fields_untouched entry cid vm er key fields : ∀ rec r,
  fill_fields vocab fields entry cid vm er rec = Some r ->
  Forall (fun fm => FieldMapping.target fm = key ->
                    field_fails vocab entry cid vm fm) fields ->
  r !! key = rec !! key.
Proof.
  induction fields as [|fm fields IH]; intros rec r; simpl.
  { by intros [= ->]. }
  intros Hfill Hall. apply Forall_cons in Hall as [Hfm Hall].
  unfold field_fails in Hfm.
  destruct (_extract_field_value vocab entry fm cid vm) as [[v|]|e].
  - rewrite (IH _ _ Hfill Hall).
    apply lookup_insert_ne. intros Heq. by apply Hfm.
  - destruct (FieldMapping.optional fm || negb er); [eauto|done].
  - destruct (FieldMapping.optional fm || negb er); [eauto|done].
Qed.

Lemma untargeted_fails entry cid vm rule key :
  untargeted rule key ->
  Forall (fun fm => FieldMapping.target fm = key ->
                    field_fails vocab entry cid vm fm)
         (MappingRule.fields rule).
Proof.
  intros Hun. apply Forall_forall. intros fm Hin Heq.
  exfalso. apply Hun. apply list_elem_of_fmap. by exists fm.
Qed.

(** *** [_create_record] *)

Lemma create_record_None rule entry person_id record_id cid vm er :
  _create_record vocab rule entry person_id record_id cid vm er = None <->
  Exists (required_field_fails vocab entry cid vm er)
         (MappingRule.fields rule).
Proof.
  unfold _create_record.
  match goal with
  | |- context [fill_fields _ ?fs _ _ _ _ ?rec] =>
      pose proof (fill_fields_None entry cid vm er fs rec) as Hn;
      destruct (fill_fields vocab fs entry cid vm er rec)
  end.
  - split; [done|]. intros Hex. by apply Hn in Hex.
  - split; [|done]. intros _. by apply Hn.
Qed.

Lemma create_record_not_required rule entry person_id record_id cid vm :
  is_Some (_create_record vocab rule entry person_id record_id cid vm false).
Proof.
  destruct (_create_record _ _ _ _ _ _ _ _) eqn:E; [eauto|].
  apply create_record_None in E. apply Exists_exists in E.
  destruct E as (fm & _ & Hopt & _). unfold is_optional in Hopt.
  by rewrite orb_true_r in Hopt.
Qed.

Lemma create_record_provenance rule entry person_id record_id cid vm er r :
  _create_record vocab rule entry person_id record_id cid vm er = Some r ->
  r !! "mapping_rule"
    = Some (VStr ("RuleMapper:" +:+ MappingRule.name rule)).
Proof.
  unfold _create_record.
  destruct (fill_fields _ _ _ _ _ _ _); [|done].
  intros [= <-]. apply lookup_insert_eq.
Qed.

(** A column other than the provenance tag, which no succeeding field
    mapping writes, holds what the initial dictionary gave it. *)
Lemma create_record_untouched
    rule entry person_id record_id cid vm er r key :
  _create_record vocab rule entry person_id record_id cid vm er = Some r ->
  key ≠ "mapping_rule" ->
  Forall (fun fm => FieldMapping.target fm = key ->
                    field_fails vocab entry cid vm fm)
         (MappingRule.fields rule) ->
  r !! key =
    (<[type_field rule :=
         VInt (TargetSpec.type_concept_id (MappingRule.target rule))]>
       (<["person_id" := VInt person_id]>
          (<[id_field rule := VInt record_id]> (∅ : record)))) !! key.
Proof.
  unfold _create_record.
  destruct (fill_fields _ _ _ _ _ _ _) as [r0|] eqn:Hfill; [|done].
  intros [= <-] Hkey Hall.
  rewrite lookup_insert_ne by done.
  by apply (fill_fields_untouched _ _ _ _ _ _ _ _ Hfill).
Qed.

(** *** The loop over the concept ids *)

Lemma fan_out_candidates rule entry person_id base_id vm er cids : ∀ i,
  fan_out vocab rule entry person_id base_id vm er i cids =
  omap id
    (imap (fun k cid =>
             _create_record vocab rule entry person_id
                            (base_id + (i + Z.of_nat k)) cid vm er)
          cids).
Proof.
  induction cids as [|cid cids IH]; intros i; [done|].
  simpl fan_out. rewrite imap_cons. simpl omap.
  replace (base_id + (i + Z.of_nat 0)) with (base_id + i) by lia.
  rewrite IH.
  assert (Hext :
    imap (fun k c => _create_record vocab rule entry person_id
                       (base_id + (i + 1 + Z.of_nat k)) c vm er) cids
    = imap ((fun k c => _create_record vocab rule entry person_id
                          (base_id + (i + Z.of_nat k)) c vm er) ∘ S) cids).
  { apply imap_ext. intros k c _. simpl. f_equal. lia. }
  rewrite Hext.
  by destruct (_create_record vocab rule entry person_id (base_id + i)
                              cid vm er).
Qed.

(** What [map_entry] does once the concept ids are known. *)
Lemma map_entry_resolved rule node person_id vm er cids :
  should_include_entry (Some node) = true ->
  _extract_concept_ids vocab rule node er = Ok cids ->
  cids ≠ [] ->
  map_entry vocab rule (Some node) person_id vm er =
    if match SourceSpec.conditions (MappingRule.source rule) with
       | [] => false
       | _ :: _ => true
       end
       && negb (_check_conditions vocab
                  (SourceSpec.conditions (MappingRule.source rule))
                  node (List.hd 0 cids))
    then Ok []
    else
      let! base_id := _generate_id rule node person_id in
      Ok (fan_out vocab rule node person_id base_id vm er 0 cids).
Proof.
  intros Hinc Hex Hne. unfold map_entry. rewrite Hinc, Hex. simpl.
  by destruct cids.
Qed.

Lemma conditions_pass_test rule node cid :
  conditions_pass vocab rule node cid ->
  (match SourceSpec.conditions (MappingRule.source rule) with
   | [] => false
   | _ :: _ => true
   end
   && negb (_check_conditions vocab
              (SourceSpec.conditions (MappingRule.source rule)) node cid))
  = false.
Proof.
  intros [Hnil|Hok].
  - by rewrite Hnil.
  - rewrite Hok. apply andb_false_r.
Qed.

(** *** Conditions *)

Lemma check_conditions_Forall conds entry cid :
  _check_conditions vocab conds entry cid = true <->
  Forall (condition_holds vocab cid) conds.
Proof.
  induction conds as [|cond conds IH]; simpl.
  { split; [constructor|done]. }
  rewrite Forall_cons. unfold condition_holds at 1.
  destruct (String.eqb_spec (Condition.type cond) "domain_equals") as [He|He];
    [|destruct (String.eqb_spec (Condition.type cond) "domain_not_equals")
        as [Hn|Hn]];
    try destruct (String.eqb_spec
                    (VocabularyMapper.get_concept_domain vocab cid)
                    (Condition.value cond)) as [Hd|Hd];
    simpl; rewrite ?IH; intuition congruence.
Qed.

(** C4. When the vocabulary field resolves to [c :: rest] and the rule
    has conditions, they are read against [c] alone: if one of them
    fails for [c] the entry maps to no record, whatever [rest] is; and
    if they all hold for [c] every concept id of [c :: rest] is fanned
    out, whatever the domains of [rest]. A condition on the domain
    compares the domain of [c]; any other kind of condition holds. *)
Theorem map_entry_conditions_first rule node person_id vm er c rest :
  _extract_concept_ids vocab rule node er = Ok (c :: rest) ->
  SourceSpec.conditions (MappingRule.source rule) ≠ [] ->
  (_check_conditions vocab (SourceSpec.conditions (MappingRule.source rule))
                     node c = true <->
   Forall (condition_holds vocab c)
          (SourceSpec.conditions (MappingRule.source rule)))
  ∧ (_check_conditions vocab
       (SourceSpec.conditions (MappingRule.source rule)) node c = false ->
     map_entry vocab rule (Some node) person_id vm er = Ok [])
  ∧ (should_include_entry (Some node) = true ->
     _check_conditions vocab
       (SourceSpec.conditions (MappingRule.source rule)) node c = true ->
     map_entry vocab rule (Some node) person_id vm er =
       let! base_id := _generate_id rule node person_id in
       Ok (fan_out vocab rule node person_id base_id vm er 0 (c :: rest))).
Proof.
  intros Hex Hconds. split; [apply check_conditions_Forall|]. split.
  - intros Hfail.
    destruct (should_include_entry (Some node)) eqn:Hinc.
    + rewrite (map_entry_resolved _ _ _ _ _ _ Hinc Hex) by done.
      simpl List.hd. rewrite Hfail.
      by destruct (SourceSpec.conditions (MappingRule.source rule)).
    + unfold map_entry. by rewrite Hinc.
  - intros Hinc Hok.
    rewrite (map_entry_resolved _ _ _ _ _ _ Hinc Hex) by done.
    simpl List.hd. rewrite Hok. by rewrite andb_false_r.
Qed.

(** *** Unresolved codes *)

Lemma extract_nothing entry fields :
  Forall
    (fun fm =>
       FieldMapping.transform fm = "vocab" ->
       ∃ code,
         _extract_xpath_value entry (FieldMapping.xpath fm)
                              (FieldMapping.fallback_xpath fm) = Ok code ∧
         (code = "" ∨ vocab_field_ids vocab entry fm code = Ok []))
    fields ->
  extract_concept_ids_loop vocab fields entry true = Ok [] ∧
  (extract_concept_ids_loop vocab fields entry false = Ok [] ∨
   extract_concept_ids_loop vocab fields entry false = Ok [0]).
Proof.
  induction 1 as [|fm fields Hfm _ IH]; simpl; [tauto|].
  destruct (String.eqb_spec (FieldMapping.transform fm) "vocab") as [Hv|Hv];
    [|exact IH].
  destruct (Hfm Hv) as (code & -> & Hcode). simpl.
  destruct Hcode as [->|Hids]; [exact IH|].
  destruct (truthy code); simpl; [|exact IH].
  rewrite Hids. simpl. tauto.
Qed.

(** C6. For an included entry none of whose vocabulary fields resolves
    to a concept: with [entries_required] the entry maps to no record;
    without it [map_entry] goes on with the single concept id 0, that
    is, reads the conditions against 0, makes the seed and fans out over
    [[0]]; and when the conditions pass and the seed is made, the result
    is exactly one record, the one created for concept id 0 with the
    seed as record id. *)
Theorem map_entry_placeholder rule node person_id vm :
  should_include_entry (Some node) = true ->
  resolves_nothing vocab rule node ->
  map_entry vocab rule (Some node) person_id vm true = Ok []
  ∧ map_entry vocab rule (Some node) person_id vm false =
      (if match SourceSpec.conditions (MappingRule.source rule) with
          | [] => false
          | _ :: _ => true
          end
          && negb (_check_conditions vocab
                     (SourceSpec.conditions (MappingRule.source rule))
                     node 0)
       then Ok []
       else
         let! base_id := _generate_id rule node person_id in
         Ok (fan_out vocab rule node person_id base_id vm false 0 [0]))
  ∧ (conditions_pass vocab rule node 0 ->
     ∀ base_id,
       _generate_id rule node person_id = Ok base_id ->
       ∃ r,
         _create_record vocab rule node person_id base_id 0 vm false
           = Some r ∧
         map_entry vocab rule (Some node) person_id vm false = Ok [r]).
Proof.
  intros Hinc Hnone.
  destruct (extract_nothing _ _ Hnone) as [Hreq Hopt].
  assert (Hgo :
    map_entry vocab rule (Some node) person_id vm false =
      (if match SourceSpec.conditions (MappingRule.source rule) with
          | [] => false
          | _ :: _ => true
          end
          && negb (_check_conditions vocab
                     (SourceSpec.conditions (MappingRule.source rule))
                     node 0)
       then Ok []
       else
         let! base_id := _generate_id rule node person_id in
         Ok (fan_out vocab rule node person_id base_id vm false 0 [0]))).
  { unfold map_entry, _extract_concept_ids. rewrite Hinc. simpl.
    destruct Hopt as [-> | ->]; reflexivity. }
  split; [|split; [exact Hgo|]].
  - unfold map_entry, _extract_concept_ids. rewrite Hinc, Hreq. reflexivity.
  - intros Hcond base_id Hid.
    destruct (create_record_not_required rule node person_id base_id 0 vm)
      as [r Hr].
    exists r. split; [exact Hr|].
    rewrite Hgo, (conditions_pass_test _ _ _ Hcond), Hid. simpl.
    replace (base_id + 0) with base_id by lia. by rewrite Hr.
Qed.

(** *** Exceptions *)

Lemma map_entry_Raise rule entry person_id vm er e :
  map_entry vocab rule entry person_id vm er = Raise e ->
  ∃ node,
    entry = Some node ∧ should_include_entry entry = true ∧
    (_extract_concept_ids vocab rule node er = Raise e ∨
     _generate_id rule node person_id = Raise e).
Proof.
  unfold map_entry. destruct entry as [node|]; [|done].
  destruct (should_include_entry (Some node)); [|done]. simpl.
  intros Hraise. exists node. split; [done|]. split; [done|].
  destruct (_extract_concept_ids vocab rule node er) as [cids|e'];
    simpl in Hraise; [|left; congruence].
  right.
  destruct cids as [|c cids]; [destruct er; simpl in Hraise; [done|]|];
    simpl in Hraise;
    (match type of Hraise with
     | context [if ?b then Ok [] else _] => destruct b
     end; [done|]);
    destruct (_generate_id rule node person_id); simpl in Hraise;
    congruence.
Qed.

(** Where a failure is caught and where it is not. Inside record
    creation a failing field is caught: [_create_record] never raises,
    it gives up the record exactly when a non-optional field fails, and
    a column that only failing fields were to write is absent from the
    record. An exception leaves [map_entry] only from the resolution of
    the concept ids or from the making of the seed, both of which
    evaluate XPath expressions outside any handler; when neither raises,
    [map_entry] returns. *)
Theorem map_entry_exceptions rule entry person_id vm er :
  (∀ e,
      map_entry vocab rule entry person_id vm er = Raise e ->
      ∃ node,
        entry = Some node ∧ should_include_entry entry = true ∧
        (_extract_concept_ids vocab rule node er = Raise e ∨
         _generate_id rule node person_id = Raise e))
  ∧ (∀ node,
        entry = Some node ->
        ¬ raises (_extract_concept_ids vocab rule node er) ->
        ¬ raises (_generate_id rule node person_id) ->
        ∃ records, map_entry vocab rule entry person_id vm er = Ok records)
  ∧ (∀ node record_id cid,
        _create_record vocab rule node person_id record_id cid vm er = None
        <-> Exists (required_field_fails vocab node cid vm er)
                   (MappingRule.fields rule))
  ∧ (∀ node record_id cid r key,
        _create_record vocab rule node person_id record_id cid vm er
          = Some r ->
        key ∉ [id_field rule; "person_id"; type_field rule; "mapping_rule"] ->
        Forall (fun fm => FieldMapping.target fm = key ->
                          field_fails vocab node cid vm fm)
               (MappingRule.fields rule) ->
        r !! key = None).
Proof.
  split; [intros e; apply map_entry_Raise|]. split; [|split].
  - intros node -> Hex Hid.
    destruct (map_entry vocab rule (Some node) person_id vm er)
      as [records|e] eqn:Hmap; [eauto|].
    apply map_entry_Raise in Hmap as (node' & [= <-] & _ & [Hr|Hr]);
      exfalso; [apply Hex|apply Hid]; by rewrite Hr.
  - intros node record_id cid. apply create_record_None.
  - intros node record_id cid r key Hrec Hkey Hall.
    assert (Hk1 : id_field rule ≠ key) by (intros <-; set_solver).
    assert (Hk2 : "person_id" ≠ key) by (intros <-; set_solver).
    assert (Hk3 : type_field rule ≠ key) by (intros <-; set_solver).
    assert (Hk4 : key ≠ "mapping_rule") by (intros ->; set_solver).
    rewrite (create_record_untouched _ _ _ _ _ _ _ _ _ Hrec) by done.
    by rewrite !lookup_insert_ne, lookup_empty.
Qed.

(** *** The fixed columns of a record *)

Lemma string_length_app a b :
  String.length (a +:+ b) = (String.length a + String.length b)%nat.
Proof. induction a as [|c a IH]; simpl; [done|]. by rewrite IH. Qed.

Lemma last_char_app a b :
  b ≠ "" -> last_char (a +:+ b) = last_char b.
Proof.
  intros Hb. induction a as [|c a IH]; [done|].
  simpl. rewrite IH.
  destruct (a +:+ b) eqn:E; [|done].
  destruct a; simpl in E; [by apply Hb in E|done].
Qed.

Lemma type_field_long rule :
  (16 <= String.length (type_field rule))%nat.
Proof. unfold type_field. rewrite string_length_app. simpl. lia. Qed.

Lemma type_field_not_provenance rule : type_field rule ≠ "mapping_rule".
Proof.
  intros Heq. pose proof (type_field_long rule) as Hlen.
  rewrite Heq in Hlen. simpl in Hlen. lia.
Qed.

Lemma type_field_not_person rule : type_field rule ≠ "person_id".
Proof.
  intros Heq. pose proof (type_field_long rule) as Hlen.
  rewrite Heq in Hlen. simpl in Hlen. lia.
Qed.

Lemma id_field_not_provenance rule : id_field rule ≠ "mapping_rule".
Proof.
  intros Heq. assert (Hlast : last_char (id_field rule) = Some "d"%char).
  { unfold id_field. by rewrite last_char_app. }
  rewrite Heq in Hlast. simpl in Hlast. congruence.
Qed.

(** *** The candidates of an entry *)






Local Arguments fan_out : simpl never.

(** Where the records of [map_entry] come from. *)
Lemma map_entry_elem rule node person_id vm er records r :
  map_entry vocab rule (Some node) person_id vm er = Ok records ->
  r ∈ records ->
  ∃ base_id i cid,
    _generate_id rule node person_id = Ok base_id ∧
    _create_record vocab rule node person_id (base_id + Z.of_nat i) cid
                   vm er = Some r.
Proof.
  unfold map_entry.
  destruct (should_include_entry (Some node)); simpl; [|by intros [= <-] ?%elem_of_nil].
  destruct (_extract_concept_ids vocab rule node er) as [cids|]; [|done].
  simpl.
  assert (Hfan : ∀ cids' base_id,
            r ∈ fan_out vocab rule node person_id base_id vm er 0 cids' ->
            ∃ i cid,
              _create_record vocab rule node person_id
                (base_id + Z.of_nat i) cid vm er = Some r).
  { intros cids' base_id. rewrite fan_out_candidates.
    intros (o & Ho & Hsome)%list_elem_of_omap. simpl in Hsome. subst o.
    apply elem_of_lookup_imap in Ho as (i & cid & Heq & _).
    exists i, cid. by rewrite Heq. }
  destruct cids as [|c cids]; [destruct er; [by intros [= <-] ?%elem_of_nil|]|];
    simpl;
    (match goal with
     | |- context [if ?b then Ok [] else _] => destruct b
     end; [by intros [= <-] ?%elem_of_nil|]);
    (destruct (_generate_id rule node person_id) as [base_id|]; [|done]);
    simpl; intros [= <-] Hin;
    destruct (Hfan _ _ Hin) as (i & cid & Hrec); eauto.
Qed.

(** C10, as the code has it. Every record [map_entry] returns carries
    the provenance tag "RuleMapper:" followed by the name of the rule.
    It carries the type-concept constant under the type column, the
    person id under "person_id" and its record id (the seed plus a
    position) under the id column, each provided that no field mapping
    of the rule writes that column, and for the id column provided also
    that it is neither "person_id" nor the type column. *)
Theorem map_entry_record_keys rule node person_id vm er records r :
  map_entry vocab rule (Some node) person_id vm er = Ok records ->
  r ∈ records ->
  r !! "mapping_rule" = Some (VStr ("RuleMapper:" +:+ MappingRule.name rule))
  ∧ (untargeted rule (type_field rule) ->
     r !! type_field rule
       = Some (VInt (TargetSpec.type_concept_id (MappingRule.target rule))))
  ∧ (untargeted rule "person_id" ->
     r !! "person_id" = Some (VInt person_id))
  ∧ (untargeted rule (id_field rule) ->
     id_field rule ≠ "person_id" ->
     id_field rule ≠ type_field rule ->
     ∃ base_id i,
       _generate_id rule node person_id = Ok base_id ∧
       r !! id_field rule = Some (VInt (base_id + Z.of_nat i))).
Proof.
  intros Hmap Hin.
  destruct (map_entry_elem _ _ _ _ _ _ _ Hmap Hin)
    as (base_id & i & cid & Hid & Hrec).
  split; [by eapply create_record_provenance|]. split; [|split].
  - intros Hun.
    rewrite (create_record_untouched _ _ _ _ _ _ _ _ _ Hrec).
    + apply lookup_insert_eq.
    + apply type_field_not_provenance.
    + by apply untargeted_fails.
  - intros Hun.
    rewrite (create_record_untouched _ _ _ _ _ _ _ _ _ Hrec).
    + rewrite lookup_insert_ne by apply type_field_not_person.
      apply lookup_insert_eq.
    + done.
    + by apply untargeted_fails.
  - intros Hun Hperson Htype. exists base_id, i. split; [done|].
    rewrite (create_record_untouched _ _ _ _ _ _ _ _ _ Hrec).
    + rewrite !lookup_insert_ne by done. apply lookup_insert_eq.
    + apply id_field_not_provenance.
    + by apply untargeted_fails.
Qed.

End EngineFacts.

(** ** The properties at work on the worked data *)

Section Worked.
Import Extractor RuleEngine EngineSpec Examples.
#[local] Existing Instance Fragment.builtins.

Lemma concepts_loaded_indexed : VocabLoader.indexed_by_id concepts_loaded.
Proof.
  apply (load_concepts_indexed concept_rows VocabLoader.new 4).
  - apply new_indexed.
  - vm_compute. reflexivity.
Qed.

Lemma get_standard_concept_ids_spec_witness :
  VocabLoader.get_standard_concept_ids loaded "ICD10CM" "E11.21"
    = VocabLoader.live_targets (tail relationship_rows) 45561952
  ∧ VocabLoader.get_standard_concept_ids loaded "ICD10CM" "E11.21"
    = [443731; 201826]
  ∧ VocabLoader.get_standard_concept_ids loaded "SNOMED" "44054006"
    = [201826].
Proof.
  pose proof (get_standard_concept_ids_spec loaded "ICD10CM" "E11.21") as Hs.
  pose proof (get_standard_concept_ids_spec loaded "SNOMED" "44054006")
    as Hstd.
  assert (Hc : VocabLoader.lookup_concept loaded "ICD10CM" "E11.21"
               = Some nephropathy_concept) by (vm_compute; reflexivity).
  assert (Hc' : VocabLoader.lookup_concept loaded "SNOMED" "44054006"
                = Some diabetes_concept) by (vm_compute; reflexivity).
  rewrite Hc in Hs. rewrite Hc' in Hstd.
  destruct Hs as (_ & _ & Hedges & _ & Hload).
  destruct Hstd as (_ & HS & _).
  assert (Hget : VocabLoader.maps_to_get loaded 45561952 = [443731; 201826])
    by (vm_compute; reflexivity).
  assert (Hlive :
    VocabLoader.maps_to_get loaded 45561952
    = VocabLoader.live_targets (tail relationship_rows) 45561952).
  { apply (Hload concepts_loaded (hd [] relationship_rows)
                 (tail relationship_rows) 2).
    - apply concepts_loaded_indexed.
    - vm_compute. reflexivity.
    - vm_compute. reflexivity. }
  assert (Hres :
    VocabLoader.get_standard_concept_ids loaded "ICD10CM" "E11.21"
    = VocabLoader.maps_to_get loaded 45561952).
  { apply Hedges.
    - simpl. discriminate.
    - simpl VocabLoader.concept_id. rewrite Hget. discriminate. }
  split; [|split].
  - by rewrite Hres.
  - by rewrite Hres.
  - apply HS. reflexivity.
Defined.

Lemma not_among (x : string) (l : list string) :
  bool_decide (x ∈ l) = false -> x ∉ l.
Proof. intros Hb Hin. apply bool_decide_eq_false in Hb. by apply Hb. Qed.



(** The observation rule wants the domain "Observation"; the first
    concept of the entry is a condition, so the entry is dropped. *)
Lemma map_entry_conditions_first_witness :
  map_entry vocab observation_rule (Some diabetes_nephropathy) 12345 ∅ true
    = Ok [].
Proof.
  apply (map_entry_conditions_first vocab observation_rule
           diabetes_nephropathy 12345 ∅ true 443731 [201826]).
  - vm_compute. reflexivity.
  - discriminate.
  - vm_compute. reflexivity.
Defined.

Lemma unknown_code_resolves_nothing :
  resolves_nothing vocab plain_rule unknown_code.
Proof.
  unfold resolves_nothing. simpl MappingRule.fields.
  repeat constructor.
  - intros _. exists "X99". split; [vm_compute; reflexivity|].
    right. vm_compute. reflexivity.
  - intros Hv. simpl in Hv. discriminate.
Qed.

(** The code X99 is in no vocabulary: with entries required the entry
    gives nothing, without that it gives one record for concept id 0. *)
Lemma map_entry_placeholder_witness :
  map_entry vocab plain_rule (Some unknown_code) 12345 ∅ true = Ok []
  ∧ ∃ r,
      _create_record vocab plain_rule unknown_code 12345
                     2232712345584705884 0 ∅ false = Some r ∧
      map_entry vocab plain_rule (Some unknown_code) 12345 ∅ false = Ok [r].
Proof.
  destruct (map_entry_placeholder vocab plain_rule unknown_code 12345 ∅)
    as (Hreq & _ & Hopt).
  - vm_compute. reflexivity.
  - apply unknown_code_resolves_nothing.
  - split; [exact Hreq|].
    apply Hopt.
    + left. reflexivity.
    + vm_compute. reflexivity.
Defined.

(** C7: the code lets an exception through. A vocabulary field whose
    XPath expression is malformed makes [map_entry] raise. The same
    expression in a field other than the vocabulary field is caught
    where the record is built: [map_entry] returns, without the record
    when the field is required and with it when it is not. *)
Lemma map_entry_raises :
  map_entry vocab malformed_rule (Some diabetes) 12345 ∅ true
    = Raise XPathEvalError
  ∧ is_ok (map_entry vocab caught_rule (Some diabetes) 12345 ∅ true) = true
  ∧ length (value_or [] (map_entry vocab caught_rule (Some diabetes)
                           12345 ∅ true)) = 0%nat
  ∧ is_ok (map_entry vocab caught_rule (Some diabetes) 12345 ∅ false) = true
  ∧ length (value_or [] (map_entry vocab caught_rule (Some diabetes)
                           12345 ∅ false)) = 1%nat.
Proof.
  split; [vm_compute; reflexivity|]. split; [vm_compute; reflexivity|].
  split; [vm_compute; reflexivity|]. split; vm_compute; reflexivity.
Qed.

Lemma map_entry_exceptions_witness :
  ∃ node,
    Some diabetes = Some node ∧
    should_include_entry (Some diabetes) = true ∧
    (_extract_concept_ids vocab malformed_rule node true
       = Raise XPathEvalError ∨
     _generate_id malformed_rule node 12345 = Raise XPathEvalError).
Proof.
  apply (proj1 (map_entry_exceptions vocab malformed_rule (Some diabetes)
                  12345 ∅ true) XPathEvalError).
  vm_compute. reflexivity.
Defined.

(** C10 fails as stated: a field mapping that writes "person_id"
    replaces the person id of the record. *)
Lemma person_id_overwritten :
  is_ok (map_entry vocab overwriting_rule (Some diabetes) 12345 ∅ true)
    = true
  ∧ (λ r : record, r !! "person_id") <$> overwritten_records
    = [Some (VStr "Type 2 diabetes mellitus")]
  ∧ ¬ Forall (λ r : record, r !! "person_id" = Some (VInt 12345))
             overwritten_records.
Proof.
  assert (Hcol : (λ r : record, r !! "person_id") <$> overwritten_records
                 = [Some (VStr "Type 2 diabetes mellitus")])
    by (vm_compute; reflexivity).
  split; [vm_compute; reflexivity|]. split; [exact Hcol|].
  intros Hall. destruct overwritten_records as [|r rs]; [done|].
  apply Forall_cons in Hall as [Hr _].
  assert (Hhead : r !! "person_id" = Some (VStr "Type 2 diabetes mellitus"))
    by (by injection Hcol).
  congruence.
Qed.

Lemma returned {A} (d : A) (m : res A) :
  is_ok m = true -> m = Ok (value_or d m).
Proof. by destruct m. Qed.

Lemma map_entry_record_keys_witness :
  Forall
    (λ r : record,
       r !! "mapping_rule" = Some (VStr "RuleMapper:problem_to_condition") ∧
       r !! "condition_type_concept_id" = Some (VInt 32817) ∧
       r !! "person_id" = Some (VInt 12345))
    nephropathy_records.
Proof.
  apply Forall_forall. intros r Hin.
  destruct (map_entry_record_keys vocab condition_rule diabetes_nephropathy
              12345 ∅ true nephropathy_records r)
    as (Hprov & Htype & Hperson & _).
  - apply returned. vm_compute. reflexivity.
  - exact Hin.
  - split; [exact Hprov|]. split.
    + apply Htype. apply not_among. vm_compute. reflexivity.
    + apply Hperson. apply not_among. vm_compute. reflexivity.
Defined.

End Worked.

Section LoaderFacts.
Import RuleLoader LoaderSpec.

Lemma ascii_compare_refl c : Ascii.compare c c = Eq.
Proof. unfold Ascii.compare. apply N.compare_refl. Qed.

Lemma string_leb_trans a b c :
  String.leb a b = true -> String.leb b c = true -> String.leb a c = true.
Proof.
  unfold String.leb.
  revert b c. induction a as [|x a IH]; intros [|y b] [|z c]; simpl;
    try done.
  unfold Ascii.compare.
  destruct (N.compare_spec (N_of_ascii x) (N_of_ascii y)) as [Hxy|Hxy|Hxy];
    destruct (N.compare_spec (N_of_ascii y) (N_of_ascii z)) as [Hyz|Hyz|Hyz];
    destruct (N.compare_spec (N_of_ascii x) (N_of_ascii z)) as [Hxz|Hxz|Hxz];
    try done; try lia.
  apply IH.
Qed.

#[local] Instance path_le_trans : Transitive path_le.
Proof. intros f g h. apply string_leb_trans. Qed.

#[local] Instance path_le_total : Total path_le.
Proof. intros f g. apply String.leb_total. Qed.

Lemma extend_with_concatenated rules files :
  extend_with rules files
  = let! more := concatenated (_load_rules_from_file <$> files) in
    Ok (rules ++ more).
Proof.
  revert rules. induction files as [|f files IH]; intros rules.
  - simpl. by rewrite app_nil_r.
  - rewrite fmap_cons. cbn [extend_with concatenated].
    destruct (_load_rules_from_file f) as [file_rules|e]; cbn [Py.bind];
      [|done].
    rewrite IH.
    destruct (concatenated _); cbn [Py.bind]; [|done].
    by rewrite app_assoc.
Qed.

Lemma names_inj (l : list Path.t) f g :
  NoDup (Path.name <$> l) -> f ∈ l -> g ∈ l ->
  Path.name f = Path.name g -> f = g.
Proof.
  induction l as [|h l IH]; simpl; intros Hnd Hf Hg Heq.
  - by apply elem_of_nil in Hf.
  - apply NoDup_cons in Hnd as [Hh Hnd].
    apply elem_of_cons in Hf as [->|Hf]; apply elem_of_cons in Hg as [->|Hg];
      try done.
    + exfalso. apply Hh. rewrite Heq. by apply list_elem_of_fmap_2.
    + exfalso. apply Hh. rewrite <- Heq. by apply list_elem_of_fmap_2.
    + by apply IH.
Qed.

Lemma yaml_files_Permutation listing :
  yaml_files listing ≡ₚ filter recognized listing.
Proof. apply merge_sort_Permutation. Qed.

Lemma yaml_files_unique listing files :
  NoDup (Path.name <$> listing) ->
  files ≡ₚ filter recognized listing ->
  Sorted path_le files ->
  files = yaml_files listing.
Proof.
  intros Hnd Hperm Hsorted.
  apply (Sorted_unique_strong path_le); [| done | |].
  - intros f g Hf Hg Hfg Hgf.
    apply (names_inj listing); [done| | |].
    + rewrite Hperm in Hf. by apply list_elem_of_filter in Hf as [_ ?].
    + rewrite yaml_files_Permutation in Hg.
      by apply list_elem_of_filter in Hg as [_ ?].
    + by apply String.leb_antisym.
  - apply Sorted_merge_sort; apply _.
  - by rewrite yaml_files_Permutation.
Qed.


Lemma concatenated_Ok {A} (loaded : list (res (list A))) rules :
  concatenated loaded = Ok rules <->
  Forall (λ m, is_ok m = true) loaded
  ∧ rules = concat (value_or [] <$> loaded).
Proof.
  revert rules. induction loaded as [|m loaded IH]; intros rules.
  - simpl. split; [by intros [= <-]|by intros [_ ->]].
  - rewrite fmap_cons. cbn [concatenated concat].
    destruct m as [x|e]; cbn [Py.bind value_or].
    + destruct (concatenated loaded) as [more|e] eqn:Hmore; cbn [Py.bind].
      * destruct (proj1 (IH more) eq_refl) as [Hall ->].
        split; [by intros [= <-]; split; [constructor|]|by intros [_ ->]].
      * split; [done|]. intros [Hall _].
        apply Forall_cons in Hall as [_ Hall].
        pose proof (proj2 (IH _) (conj Hall eq_refl)) as Habs. done.
    + split; [done|]. intros [Hall _]. by apply Forall_cons in Hall as [? _].
Qed.

Lemma concatenated_Raise {A} (loaded : list (res (list A))) e :
  concatenated loaded = Raise e <->
  ∃ before after,
    loaded = before ++ Raise e :: after
    ∧ Forall (λ m, is_ok m = true) before.
Proof.
  induction loaded as [|m loaded IH].
  - simpl. split; [done|]. intros (before & after & Heq & _).
    by destruct before.
  - cbn [concatenated]. destruct m as [x|e']; cbn [Py.bind].
    + destruct (concatenated loaded) as [more|e''] eqn:Hmore; cbn [Py.bind].
      * split; [done|]. intros (before & after & Heq & Hall).
        destruct before as [|b before]; [done|].
        injection Heq as <- ->. apply Forall_cons in Hall as [_ Hall].
        assert (Ok more = Raise e) as Habs; [|done].
        apply IH. eauto.
      * split.
        -- intros [= ->]. destruct (proj1 IH eq_refl)
             as (before & after & -> & Hall).
           exists (Ok x :: before), after. split; [done|].
           by constructor.
        -- intros (before & after & Heq & Hall).
           destruct before as [|b before]; [done|].
           injection Heq as <- ->. apply Forall_cons in Hall as [_ Hall].
           apply IH. eauto.
    + split.
      * intros [= ->]. exists [], loaded. by split.
      * intros (before & after & Heq & Hall).
        destruct before as [|b before].
        -- by injection Heq as ->.
        -- injection Heq as <- _. by apply Forall_cons in Hall as [? _].
Qed.

(** X1. Of a directory whose entries have distinct names, the files
    loaded are the regular files with suffix .yaml or .yml, in the one
    order that sorts them by name; the result is the concatenation of
    their rules in that order, and it does not depend on the order in
    which the directory lists its entries. *)
Theorem load_rules_from_directory_sorted (listing : list Path.t) :
  NoDup (Path.name <$> listing) ->
  yaml_files listing ≡ₚ filter recognized listing
  ∧ Sorted path_le (yaml_files listing)
  ∧ (∀ files,
        files ≡ₚ filter recognized listing -> Sorted path_le files ->
        files = yaml_files listing)
  ∧ load_rules_from_yaml (Directory listing)
    = concatenated (_load_rules_from_file <$> yaml_files listing)
  ∧ (∀ listing',
        listing' ≡ₚ listing ->
        load_rules_from_yaml (Directory listing')
        = load_rules_from_yaml (Directory listing)).
Proof.
  intros Hnd. split; [apply yaml_files_Permutation|].
  split; [apply Sorted_merge_sort; apply _|].
  split; [intros files; apply yaml_files_unique; done|].
  split.
  - simpl. unfold _load_rules_from_directory.
    rewrite extend_with_concatenated.
    by destruct (concatenated _).
  - intros listing' Hperm. simpl. unfold _load_rules_from_directory.
    f_equal. symmetry. apply yaml_files_unique; [by rewrite Hperm| |].
    + rewrite yaml_files_Permutation. by rewrite Hperm.
    + apply Sorted_merge_sort; apply _.
Qed.

(** X2. Loading a directory returns exactly when every rule file of it
    loads, and raises what the first file that fails raises: no rule of
    the other files is then returned. An entry that is not a rule file is
    never opened. *)
Theorem load_rules_from_directory_all_or_nothing (listing : list Path.t) :
  (∀ rules,
      load_rules_from_yaml (Directory listing) = Ok rules <->
      Forall (λ f, is_ok (_load_rules_from_file f) = true)
             (yaml_files listing)
      ∧ rules = concat ((λ f, value_or [] (_load_rules_from_file f))
                          <$> yaml_files listing))
  ∧ (∀ e,
        load_rules_from_yaml (Directory listing) = Raise e <->
        ∃ before f after,
          yaml_files listing = before ++ f :: after
          ∧ Forall (λ f, is_ok (_load_rules_from_file f) = true) before
          ∧ _load_rules_from_file f = Raise e)
  ∧ (∀ before f after,
        listing = before ++ f :: after -> recognized f = false ->
        load_rules_from_yaml (Directory listing)
        = load_rules_from_yaml (Directory (before ++ after))).
Proof.
  assert (Hload : load_rules_from_yaml (Directory listing)
                  = concatenated (_load_rules_from_file <$> yaml_files listing)).
  { simpl. unfold _load_rules_from_directory.
    rewrite extend_with_concatenated. by destruct (concatenated _). }
  split; [|split].
  - intros rules. rewrite Hload, concatenated_Ok.
    rewrite Forall_fmap, <- list_fmap_compose. done.
  - intros e. rewrite Hload, concatenated_Raise. split.
    + intros (before & after & Heq & Hall).
      apply fmap_app_inv in Heq as (fs & rest & -> & Hrest & Hfiles).
      symmetry in Hrest.
      apply fmap_cons_inv in Hrest as (f & gs & Hf & -> & ->).
      exists fs, f, gs. split; [done|]. split; [|done].
      by apply Forall_fmap in Hall.
    + intros (before & f & after & -> & Hall & Hf).
      exists (_load_rules_from_file <$> before),
             (_load_rules_from_file <$> after).
      rewrite fmap_app, fmap_cons, Hf. split; [done|].
      by apply Forall_fmap.
  - intros before f after -> Hrec. simpl.
    unfold _load_rules_from_directory, yaml_files.
    rewrite !filter_app.
    by rewrite filter_cons_False by (rewrite Hrec; simpl; auto).
Qed.



Lemma raises_only_bind {A B} P (m : res A) (k : A -> res B) :
  raises_only P m -> (∀ a, raises_only P (k a)) ->
  raises_only P (let! a := m in k a).
Proof.
  intros Hm Hk e. destruct m as [a|e']; simpl; [apply Hk|].
  intros [= ->]. by apply Hm.
Qed.

Lemma raises_only_Ok {A} P (a : A) : raises_only P (Ok a).
Proof. by intros e. Qed.


Lemma raises_only_get d key default :
  raises_only lookup_error (Yaml.get d key default).
Proof. intros e. destruct d; simpl; intros [= <-]; by left. Qed.

Lemma raises_only_iter d : raises_only lookup_error (Yaml.iter d).
Proof. intros e. destruct d; simpl; intros [= <-]; by right. Qed.

Lemma raises_only_comprehension {A B} P (f : A -> res B) xs :
  (∀ x, raises_only P (f x)) -> raises_only P (comprehension f xs).
Proof.
  intros Hf. induction xs as [|x xs IH]; simpl; [apply raises_only_Ok|].
  apply raises_only_bind; [apply Hf|]. intros y.
  apply raises_only_bind; [apply IH|]. intros ys. apply raises_only_Ok.
Qed.

Ltac raises_only_steps :=
  repeat (first
    [ apply raises_only_Ok
    | apply raises_only_get
    | apply raises_only_iter
    | apply raises_only_bind; [|intros ?] ]).

Lemma raises_only_converted {A} (convert : Yaml.value -> res A) d key :
  (∀ x, raises_only lookup_error (convert x)) ->
  raises_only lookup_error (converted convert d key).
Proof.
  intros Hc. unfold converted. raises_only_steps.
  by apply raises_only_comprehension.
Qed.

Lemma raises_only_convert_yaml_rule data :
  raises_only lookup_error (_convert_yaml_rule data).
Proof.
  unfold _convert_yaml_rule.
  repeat (first
    [ apply raises_only_Ok
    | apply raises_only_get
    | apply raises_only_converted; intros ?;
      unfold convert_condition, convert_extraction, convert_field;
      raises_only_steps
    | apply raises_only_bind; [|intros ?] ]).
Qed.

Lemma comprehension_Ok {A B} (f : A -> res B) xs ys :
  comprehension f xs = Ok ys <-> Forall2 (λ x y, f x = Ok y) xs ys.
Proof.
  revert ys. induction xs as [|x xs IH]; intros ys; simpl.
  - split; [intros [= <-]; constructor|by intros ->%Forall2_nil_inv_l].
  - destruct (f x) as [y|e] eqn:Hx; simpl.
    + destruct (comprehension f xs) as [ys'|e] eqn:Hxs; simpl.
      * split.
        -- intros [= <-]. constructor; [done|]. by apply IH.
        -- intros (y' & ys'' & Hy & Hys & ->)%Forall2_cons_inv_l.
           apply IH in Hys. congruence.
      * split; [done|].
        intros (y' & ys'' & Hy & Hys & ->)%Forall2_cons_inv_l.
        apply IH in Hys. congruence.
    + split; [done|].
      intros (y' & ys'' & Hy & Hys & ->)%Forall2_cons_inv_l. congruence.
Qed.


(** X3. A rule file whose document is not a mapping. Nothing, or a
    sequence or text that mentions neither "name" nor "rules", gives
    no rule; a number, truth value, date or byte string raises
    [TypeError]; a sequence or text that mentions "name" is taken for
    a rule and raises [AttributeError]; one that only mentions "rules"
    raises [TypeError]. *)
Theorem load_rules_from_file_not_a_mapping (filepath : Path.t) d :
  Path.parsed filepath = Ok d ->
  is_mapping d = false ->
  (unrecognized d = true ->
     load_rules_from_yaml (NotDirectory filepath) = Ok [])
  ∧ (scalar d = true ->
     load_rules_from_yaml (NotDirectory filepath) = Raise TypeError)
  ∧ (mentions "name" d = true ->
     load_rules_from_yaml (NotDirectory filepath) = Raise AttributeError)
  ∧ (mentions "name" d = false -> mentions "rules" d = true ->
     load_rules_from_yaml (NotDirectory filepath) = Raise TypeError).
Proof.
  intros Hd Hmap. simpl. unfold _load_rules_from_file. rewrite Hd. simpl.
  destruct d as [| | | | | |s|items|items]; simpl in *; try done.
  all: split; [|split; [done|split]].
  1, 4: intros [Hname Hrules]%andb_prop;
    apply negb_true_iff in Hname, Hrules; by rewrite Hname, Hrules.
  1, 3: intros ->; reflexivity.
  all: intros -> ->; reflexivity.
Qed.


(** X4. A rule file whose document is a mapping. With a "name" key it
    is one rule, whatever else it holds; otherwise the elements of the
    list under "rules" are converted one by one, in order, all or
    none; an empty "rules:" raises [TypeError]; with neither key there
    is no rule. Nothing but [AttributeError] and [TypeError] is ever
    raised. *)
Theorem load_rules_from_file_mapping (filepath : Path.t) items :
  Path.parsed filepath = Ok (Yaml.Map items) ->
  (Yaml.has_key "name" items = true ->
     ∀ rules, load_rules_from_yaml (NotDirectory filepath) = Ok rules <->
              ∃ rule, _convert_yaml_rule (Yaml.Map items) = Ok rule
                      ∧ rules = [rule])
  ∧ (Yaml.has_key "name" items = false ->
     ∀ listed, Yaml.lookup "rules" items = Some (Yaml.Seq listed) ->
     ∀ rules, load_rules_from_yaml (NotDirectory filepath) = Ok rules <->
              Forall2 (λ r rule, _convert_yaml_rule r = Ok rule)
                      listed rules)
  ∧ (Yaml.has_key "name" items = false ->
     Yaml.lookup "rules" items = Some Yaml.Null ->
     load_rules_from_yaml (NotDirectory filepath) = Raise TypeError)
  ∧ (Yaml.has_key "name" items = false ->
     Yaml.has_key "rules" items = false ->
     load_rules_from_yaml (NotDirectory filepath) = Ok [])
  ∧ raises_only lookup_error
      (load_rules_from_yaml (NotDirectory filepath)).
Proof.
  intros Hd. simpl. unfold _load_rules_from_file. rewrite Hd. simpl.
  split; [|split; [|split; [|split]]].
  - intros -> rules.
    destruct (_convert_yaml_rule (Yaml.Map items)) as [rule|e]; simpl.
    + split; [intros [= <-]; eauto|].
      by intros (rule' & [= <-] & ->).
    + split; [done|]. by intros (rule' & ? & _).
  - intros -> listed Hrules rules. unfold Yaml.has_key. rewrite Hrules.
    simpl. apply comprehension_Ok.
  - intros -> Hrules. unfold Yaml.has_key. by rewrite Hrules.
  - by intros -> ->.
  - destruct (Yaml.has_key "name" items).
    + apply raises_only_bind; [apply raises_only_convert_yaml_rule|].
      intros rule. apply raises_only_Ok.
    + unfold Yaml.has_key.
      destruct (Yaml.lookup "rules" items) as [v|]; simpl;
        [|apply raises_only_Ok].
      apply raises_only_bind; [apply raises_only_iter|]. intros listed.
      apply raises_only_comprehension.
      apply raises_only_convert_yaml_rule.
Qed.

(** X5. [_convert_yaml_rule] raises [AttributeError] on a description
    that is not a mapping, and on one whose "source" is present but is
    not a mapping (an empty "source:" for instance); a mapping with none
    of "source", "target", "id_gen" and "fields" converts to the
    rule with that name and every other attribute at its default; it
    never raises anything but [AttributeError] and [TypeError]. *)
Theorem convert_yaml_rule_missing_keys (data : Yaml.value) :
  (is_mapping data = false ->
     _convert_yaml_rule data = Raise AttributeError)
  ∧ (∀ items v,
        data = Yaml.Map items ->
        Yaml.lookup "source" items = Some v -> is_mapping v = false ->
        _convert_yaml_rule data = Raise AttributeError)
  ∧ (∀ items,
        data = Yaml.Map items ->
        Yaml.lookup "source" items = None ->
        Yaml.lookup "target" items = None ->
        Yaml.lookup "id_gen" items = None ->
        Yaml.lookup "fields" items = None ->
        _convert_yaml_rule data
        = Ok (bare_rule (default (Yaml.Str "")
                                 (Yaml.lookup "name" items))))
  ∧ raises_only lookup_error (_convert_yaml_rule data).
Proof.
  split; [|split; [|split]].
  - by destruct data.
  - intros items v -> Hsource Hv. unfold _convert_yaml_rule. simpl.
    rewrite Hsource. simpl.
    destruct (Yaml.lookup "target" items), (Yaml.lookup "id_gen" items);
      simpl; by destruct v.
  - intros items -> Hsource Htarget Hid Hfields.
    unfold _convert_yaml_rule, converted. simpl.
    rewrite Hsource, Htarget, Hid, Hfields. simpl.
    by destruct (Yaml.lookup "name" items).
  - apply raises_only_convert_yaml_rule.
Qed.


Lemma is_ok_returned {A} (d : A) (m : res A) :
  is_ok m = true -> m = Ok (value_or d m).
Proof. by destruct m. Qed.

Lemma load_rules_from_directory_sorted_witness :
  Path.name <$> yaml_files LoaderExamples.rules_dir
  = ["10_problems.yml"; "20_medications.yaml"]
  ∧ load_rules_from_yaml (Directory (reverse LoaderExamples.rules_dir))
    = load_rules_from_yaml (Directory LoaderExamples.rules_dir).
Proof.
  destruct (load_rules_from_directory_sorted LoaderExamples.rules_dir)
    as (_ & _ & _ & _ & Hperm).
  - apply (bool_decide_unpack _). vm_compute. exact I.
  - split; [vm_compute; reflexivity|].
    apply Hperm. apply reverse_Permutation.
Defined.

Lemma load_rules_from_directory_all_or_nothing_witness :
  Loaded.MappingRule.name
    <$> value_or [] (load_rules_from_yaml
                       (Directory LoaderExamples.rules_dir))
  = [ Yaml.Str "problem_to_condition"; Yaml.Str "problem_to_observation";
      Yaml.Str "medications" ]
  ∧ Forall (λ f, is_ok (_load_rules_from_file f) = true)
           (yaml_files LoaderExamples.rules_dir).
Proof.
  split; [vm_compute; reflexivity|].
  eapply (proj1 (proj1 (load_rules_from_directory_all_or_nothing
                          LoaderExamples.rules_dir) _)).
  apply (is_ok_returned []). vm_compute. reflexivity.
Defined.

Lemma load_rules_from_file_not_a_mapping_witness :
  load_rules_from_yaml
    (NotDirectory (LoaderExamples.file "count.yaml" (Yaml.Int 42)))
  = Raise TypeError.
Proof.
  refine (proj1 (proj2 (load_rules_from_file_not_a_mapping
            (LoaderExamples.file "count.yaml" (Yaml.Int 42)) (Yaml.Int 42)
            _ _)) _); reflexivity.
Defined.

Lemma load_rules_from_file_mapping_witness :
  load_rules_from_yaml
    (NotDirectory (LoaderExamples.file "other.yaml"
                     LoaderExamples.other_keys))
  = Ok [].
Proof.
  refine (proj1 (proj2 (proj2 (proj2 (load_rules_from_file_mapping
            (LoaderExamples.file "other.yaml" LoaderExamples.other_keys)
            _ _)))) _ _); reflexivity.
Defined.

Lemma convert_yaml_rule_missing_keys_witness :
  _convert_yaml_rule (Yaml.Map [(Yaml.Str "name", Yaml.Str "bare")])
  = Ok (bare_rule (Yaml.Str "bare")).
Proof.
  apply (proj1 (proj2 (proj2 (convert_yaml_rule_missing_keys
           (Yaml.Map [(Yaml.Str "name", Yaml.Str "bare")]))))
           [(Yaml.Str "name", Yaml.Str "bare")]); reflexivity.
Defined.

End LoaderFacts.

Section IndexFacts.
Import RuleLoader RuleMapper LoaderSpec.

Lemma index_rule_lookup result rule section :
  index_rule result rule !! section
  = if decide (section_of rule = section)
    then Some (default [] (result !! section) ++ [rule])
    else result !! section.
Proof.
  unfold index_rule. fold (section_of rule).
  destruct (decide (section_of rule = section)) as [<-|Hne].
  - rewrite lookup_insert_eq.
    destruct (result !! section_of rule) eqn:Hl; [by rewrite Hl|].
    by rewrite lookup_insert_eq.
  - rewrite lookup_insert_ne by done.
    destruct (result !! section_of rule) eqn:Hl; [done|].
    by rewrite lookup_insert_ne.
Qed.

Lemma index_fold_lookup rules result section :
  fold_left index_rule rules result !! section
  = match filter (λ r, section_of r = section) rules with
    | [] => result !! section
    | group => Some (default [] (result !! section) ++ group)
    end.
Proof.
  revert result. induction rules as [|rule rules IH]; intros result.
  - done.
  - simpl. rewrite IH, index_rule_lookup, filter_cons.
    destruct (decide (section_of rule = section)) as [Heq|Hne]; [|done].
    destruct (filter _ rules) as [|g group]; simpl; [done|].
    by rewrite <- app_assoc.
Qed.

Lemma get_rule_by_section_head rules section :
  get_rule_by_section rules section
  = head (filter (λ r, section_of r = section) rules).
Proof.
  induction rules as [|rule rules IH]; [done|].
  simpl. rewrite filter_cons. fold (section_of rule).
  destruct (decide (section_of rule = section)) as [Heq|Hne].
  - by rewrite (proj2 (String.eqb_eq _ _) Heq).
  - by rewrite (proj2 (String.eqb_neq _ _) Hne).
Qed.

(** X6. [index_rules_by_section] files under each section the rules of
    that section, in the order of the rule list; a section without rule
    has no entry, and no entry is empty. The first rule the mapper finds
    for a section through the index is the one [get_rule_by_section]
    finds in the list. *)
Theorem index_rules_by_section_groups (rules : list MappingRule.t)
    (section : string) :
  _get_rules_by_section (index_rules_by_section rules) section
  = filter (λ r, SourceSpec.section (MappingRule.source r) = section) rules
  ∧ (index_rules_by_section rules !! section = None <->
     Forall (λ r, SourceSpec.section (MappingRule.source r) ≠ section) rules)
  ∧ index_rules_by_section rules !! section ≠ Some []
  ∧ _get_rule_by_section (index_rules_by_section rules) section
    = get_rule_by_section rules section.
Proof.
  unfold _get_rule_by_section, _get_rules_by_section, index_rules_by_section.
  rewrite index_fold_lookup, get_rule_by_section_head, lookup_empty.
  change (λ r, SourceSpec.section (MappingRule.source r) = section)
    with (λ r, section_of r = section).
  destruct (filter _ rules) as [|rule group] eqn:Hf; simpl.
  - split; [done|]. split; [|done]. split; [|done]. intros _.
    apply Forall_forall. intros r Hr Heq.
    assert (r ∈ filter (λ r, section_of r = section) rules) as Hin
      by (by apply list_elem_of_filter).
    rewrite Hf in Hin. by apply elem_of_nil in Hin.
  - split; [done|]. split; [|done]. split; [done|]. intros Hall.
    assert (rule ∈ filter (λ r, section_of r = section) rules) as Hin
      by (rewrite Hf; left).
    apply list_elem_of_filter in Hin as [Heq Hin].
    rewrite Forall_forall in Hall. by destruct (Hall _ Hin).
Qed.

Lemma index_rules_by_section_groups_witness :
  _get_rule_by_section
    (index_rules_by_section
       [Examples.plain_rule; Examples.condition_rule;
        Examples.observation_rule])
    (section_of Examples.condition_rule)
  = get_rule_by_section
      [Examples.plain_rule; Examples.condition_rule;
       Examples.observation_rule]
      (section_of Examples.condition_rule)
  ∧ Forall (λ r, section_of r ≠ "Vitals")
           [Examples.plain_rule; Examples.condition_rule].
Proof.
  split.
  - apply (index_rules_by_section_groups
             [Examples.plain_rule; Examples.condition_rule;
              Examples.observation_rule]).
  - apply (proj1 (proj1 (proj2 (index_rules_by_section_groups
             [Examples.plain_rule; Examples.condition_rule] "Vitals")))).
    apply (index_fold_lookup [Examples.plain_rule; Examples.condition_rule]).
Defined.

End IndexFacts.



Section TypedIdsFacts.
Import Ids TypedIds IdsSpec.

Lemma fed_concat values :
  fed values = concat (map (fun p => encode p ++ [0]) values).
Proof. unfold fed. by rewrite hasher_fold. Qed.

Lemma encode_inj v w : encode v = encode w -> v = w.
Proof.
  unfold encode. revert w. induction v as [|a v IH]; intros [|b w]; simpl;
    try done.
  intros [= Hab Hvw]. f_equal; [|by apply IH].
  apply N2Z.inj in Hab.
  rewrite <- (ascii_N_embedding a), <- (ascii_N_embedding b). by rewrite Hab.
Qed.

Lemma split_at_separator (l1 l2 r1 r2 : list Z) :
  0 ∉ l1 -> 0 ∉ l2 -> l1 ++ 0 :: r1 = l2 ++ 0 :: r2 -> l1 = l2 ∧ r1 = r2.
Proof.
  revert l2. induction l1 as [|x l1 IH]; intros [|y l2] H1 H2; simpl.
  - by intros [= ->].
  - intros [= <- _]. exfalso. apply H2. left.
  - intros [= -> _]. exfalso. apply H1. left.
  - intros [= -> Heq].
    destruct (IH l2) as [-> ->]; [| |done|done].
    + intros Hin. apply H1. by right.
    + intros Hin. apply H2. by right.
Qed.

Lemma fed_inj vs ws :
  Forall nul_free vs -> Forall nul_free ws -> fed vs = fed ws -> vs = ws.
Proof.
  rewrite !fed_concat. revert ws.
  induction vs as [|v vs IH]; intros [|w ws] Hvs Hws; simpl; try done.
  - rewrite <- app_assoc. simpl. by destruct (encode w).
  - rewrite <- app_assoc. simpl. by destruct (encode v).
  - apply Forall_cons in Hvs as [Hv Hvs]. apply Forall_cons in Hws as [Hw Hws].
    rewrite <- !app_assoc. simpl. intros Heq.
    apply split_at_separator in Heq as [Hvw Heq]; [|done|done].
    f_equal; [by apply encode_inj|by apply IH].
Qed.


Lemma encode_app v w : encode (v +:+ w) = encode v ++ encode w.
Proof.
  unfold encode. induction v as [|a v IH]; simpl; [done|]. by rewrite IH.
Qed.

Lemma pretty_N_go_nul_free (x : N) (s : string) :
  nul_free s -> nul_free (pretty_N_go x s).
Proof.
  revert s. induction (N.lt_wf_0 x) as [x _ IH]. intros s Hs.
  destruct (decide (0 < x)%N) as [Hx|Hx].
  - rewrite pretty_N_go_step by done.
    apply IH; [by apply N.div_lt|].
    unfold nul_free, encode in *. simpl. rewrite not_elem_of_cons.
    split; [|done].
    assert (x `mod` 10 < 10)%N as Hlt by (by apply N.mod_lt).
    destruct (x `mod` 10)%N as [|p]; [done|].
    do 4 (destruct p as [p|p|]; try done).
  - assert (x = 0%N) as -> by lia. by rewrite pretty_N_go_0.
Qed.

Ltac nul_free_decide :=
  unfold nul_free; apply (bool_decide_unpack _); vm_compute; exact I.

Lemma str_int_nul_free (n : Z) : nul_free (str_int n).
Proof.
  assert (Hpos : ∀ p : positive, nul_free (pretty p)).
  { intros p. unfold pretty, pretty_positive, pretty, pretty_N.
    destruct (decide _); [done|].
    apply pretty_N_go_nul_free. nul_free_decide. }
  unfold str_int, pretty, pretty_Z. destruct n as [|p|p].
  - nul_free_decide.
  - apply Hpos.
  - unfold nul_free. rewrite encode_app. rewrite not_elem_of_app.
    split; [|apply Hpos]. nul_free_decide.
Qed.

(** X7. The zero byte fed after every value keeps the values apart:
    values free of the character U+0000 are determined by the bytes
    hashed, so that ("ab", "c") and ("a", "bc") are hashed differently.
    A value that holds the character is hashed like the two values on
    either side of it. *)
Theorem generate_id_separator (vs ws : list string) :
  Forall nul_free vs -> Forall nul_free ws ->
  generate_id vs = id_of (fed vs)
  ∧ (fed vs = fed ws -> vs = ws)
  ∧ (∀ v w,
        generate_id ((v +:+ String "000" w) :: vs) = generate_id (v :: w :: vs)).
Proof.
  intros Hvs Hws. split; [done|]. split; [by apply fed_inj|].
  intros v w.
  change (id_of (fed ((v +:+ String "000" w) :: vs))
          = id_of (fed (v :: w :: vs))).
  f_equal. rewrite !fed_concat. simpl.
  rewrite encode_app. simpl. by rewrite <- !app_assoc.
Qed.

Lemma generate_id_separator_witness :
  (fed ["ab"; "c"] = fed ["a"; "bc"] -> ["ab"; "c"] = ["a"; "bc"])
  ∧ generate_id ["a" +:+ String "000" "b"; "c"] = generate_id ["a"; "b"; "c"].
Proof.
  destruct (generate_id_separator ["c"] ["c"]) as (_ & _ & Hnul).
  - repeat constructor. nul_free_decide.
  - repeat constructor. nul_free_decide.
  - split; [|apply Hnul].
    apply (generate_id_separator ["ab"; "c"] ["a"; "bc"]);
      repeat constructor; nul_free_decide.
Defined.


(** X8. The typed generators hash a kind tag, the decimal person id and
    their codes. For codes free of the character U+0000 the bytes hashed
    determine the kind, the person and the codes: two generators of
    different kinds, or the same generator on different arguments, never
    hash the same bytes. *)
Theorem typed_ids_messages (kind kind' : string) (p p' : Z)
    (codes codes' : list string) :
  Forall nul_free (kind :: codes) -> Forall nul_free (kind' :: codes') ->
  (fed (kind :: str_int p :: codes) = fed (kind' :: str_int p' :: codes')
   <-> kind = kind' ∧ p = p' ∧ codes = codes')
  ∧ (∀ e, generate_visit_id p e = id_of (fed ["visit"; str_int p; e]))
  ∧ (∀ c d, generate_condition_id p c d
            = id_of (fed ["condition"; str_int p; c; d]))
  ∧ (∀ c d, generate_drug_exposure_id p c d
            = id_of (fed ["drug"; str_int p; c; d]))
  ∧ (∀ c d, generate_procedure_id p c d
            = id_of (fed ["procedure"; str_int p; c; d]))
  ∧ (∀ c d v, generate_measurement_id p c d v
              = id_of (fed ["measurement"; str_int p; c; d; v]))
  ∧ (∀ c d, generate_observation_id p c d
            = id_of (fed ["observation"; str_int p; c; d]))
  ∧ (∀ c d, generate_device_exposure_id p c d
            = id_of (fed ["device"; str_int p; c; d])).
Proof.
  intros Hk Hk'. split; [|done].
  apply Forall_cons in Hk as [Hk Hc]. apply Forall_cons in Hk' as [Hk' Hc'].
  split.
  - intros Heq. apply fed_inj in Heq.
    + injection Heq as -> Hp ->. by apply (inj pretty) in Hp.
    + repeat (constructor; [done || apply str_int_nul_free|]). done.
    + repeat (constructor; [done || apply str_int_nul_free|]). done.
  - by intros (-> & -> & ->).
Qed.

Lemma typed_ids_messages_witness :
  fed ["condition"; str_int 42; "44054006"; "20200101"]
  ≠ fed ["observation"; str_int 42; "44054006"; "20200101"].
Proof.
  intros Heq.
  apply (typed_ids_messages "condition" "observation" 42 42
           ["44054006"; "20200101"] ["44054006"; "20200101"]) in Heq.
  - by destruct Heq.
  - repeat constructor; nul_free_decide.
  - repeat constructor; nul_free_decide.
Defined.

End TypedIdsFacts.

Section EngineMore.
Import Extractor RuleEngine EngineSpec SeedSpec.
Context `{Builtins}.
Variable vocab : VocabularyMapper.t.

Lemma map_entry_excluded rule entry person_id vm er :
  should_include_entry entry = false ->
  map_entry vocab rule entry person_id vm er = Ok [].
Proof. destruct entry as [node|]; [|done]. simpl. by intros ->. Qed.

(** X9. [map_entries] maps the entries one after the other and joins
    what they give: the records of a list of entries followed by another
    are those of the first followed by those of the second, the whole
    raising what the first failing entry raises; and the entries that
    the inclusion filter rejects can be left out of the list without
    changing the result. *)
Theorem map_entries_concatenation
    rule (entries more : list (option Element)) person_id vm er :
  map_entries vocab rule (entries ++ more) person_id vm er
  = (let! mapped := map_entries vocab rule entries person_id vm er in
     let! others := map_entries vocab rule more person_id vm er in
     Ok (mapped ++ others))
  ∧ map_entries vocab rule
      (filter (λ e, should_include_entry e = true) entries) person_id vm er
    = map_entries vocab rule entries person_id vm er
  ∧ map_entries vocab rule entries person_id vm er
    = LoaderSpec.concatenated
        ((λ e, map_entry vocab rule e person_id vm er) <$> entries).
Proof.
  split; [|split].
  - induction entries as [|e entries IH]; simpl.
    + by destruct (map_entries vocab rule more person_id vm er).
    + destruct (map_entry vocab rule e person_id vm er) as [mapped|];
        simpl; [|done].
      rewrite IH.
      destruct (map_entries vocab rule entries person_id vm er); simpl;
        [|done].
      destruct (map_entries vocab rule more person_id vm er); simpl;
        [|done].
      by rewrite app_assoc.
  - induction entries as [|e entries IH]; [done|].
    rewrite filter_cons.
    destruct (decide (should_include_entry e = true)) as [Hin|Hout].
    + simpl. by rewrite IH.
    + simpl. rewrite map_entry_excluded by (by destruct (should_include_entry e)).
      simpl. rewrite IH.
      by destruct (map_entries vocab rule entries person_id vm er).
  - induction entries as [|e entries IH]; [done|].
    rewrite fmap_cons. simpl. by rewrite IH.
Qed.


Lemma vocab_field_ids_no_loader entry fm code ids :
  VocabularyMapper.vocab_loader vocab = None ->
  vocab_field_ids vocab entry fm code = Ok ids -> ids = [].
Proof.
  intros Hnone. unfold vocab_field_ids. rewrite Hnone.
  destruct (if truthy (FieldMapping.vocab_xpath fm) then _ else _); simpl;
    [|done].
  by intros [= <-].
Qed.

Lemma extract_concept_ids_no_loader fields entry er cids :
  VocabularyMapper.vocab_loader vocab = None ->
  extract_concept_ids_loop vocab fields entry er = Ok cids ->
  cids = [] ∨ (er = false ∧ cids = [0]).
Proof.
  intros Hnone. induction fields as [|fm fields IH]; simpl.
  - intros [= <-]. by left.
  - destruct (String.eqb (FieldMapping.transform fm) "vocab"); [|done].
    destruct (_extract_xpath_value entry _ _) as [code|]; simpl; [|done].
    destruct (negb (truthy code)); [done|].
    destruct (vocab_field_ids vocab entry fm code) as [ids|] eqn:Hids;
      simpl; [|done].
    apply vocab_field_ids_no_loader in Hids as ->; [|done].
    destruct er; simpl; [done|]. intros [= <-]. by right.
Qed.

Lemma no_loader_domain concept_id :
  VocabularyMapper.vocab_loader vocab = None ->
  VocabularyMapper.get_concept_domain vocab concept_id = "".
Proof. unfold VocabularyMapper.get_concept_domain. by intros ->. Qed.

(** X10. Without a loaded vocabulary no concept resolves. When entries
    are required an entry then maps to no record; when they are not, it
    maps to at most the one record of the placeholder concept 0, and to
    none at all under a rule with a condition that the domain equal
    some non-empty name. *)
Theorem map_entry_without_vocabulary rule entry person_id vm :
  VocabularyMapper.vocab_loader vocab = None ->
  (∀ records,
      map_entry vocab rule entry person_id vm true = Ok records ->
      records = [])
  ∧ (∀ records,
        map_entry vocab rule entry person_id vm false = Ok records ->
        records = [] ∨
        ∃ node base_id r,
          entry = Some node
          ∧ _generate_id rule node person_id = Ok base_id
          ∧ _create_record vocab rule node person_id base_id 0 vm false
            = Some r
          ∧ records = [r])
  ∧ (∀ records cond,
        cond ∈ SourceSpec.conditions (MappingRule.source rule) ->
        Condition.type cond = "domain_equals" ->
        Condition.value cond ≠ "" ->
        map_entry vocab rule entry person_id vm false = Ok records ->
        records = []).
Proof.
  intros Hnone.
  assert (Hshape : ∀ er records,
    map_entry vocab rule entry person_id vm er = Ok records ->
    records = [] ∨
    ∃ node base_id,
      entry = Some node ∧ er = false
      ∧ (match SourceSpec.conditions (MappingRule.source rule) with
         | [] => false
         | _ :: _ => true
         end
         && negb (_check_conditions vocab
                    (SourceSpec.conditions (MappingRule.source rule))
                    node 0)) = false
      ∧ _generate_id rule node person_id = Ok base_id
      ∧ records = fan_out vocab rule node person_id base_id vm false 0 [0]).
  { intros er records. destruct entry as [node|];
      [|intros [= <-]; by left].
    unfold map_entry.
    destruct (should_include_entry (Some node)); simpl;
      [|intros [= <-]; by left].
    destruct (_extract_concept_ids vocab rule node er) as [cids|] eqn:Hc;
      simpl; [|done].
    assert (Hresolved :
      match cids with
      | [] => if negb er then Some [0] else None
      | _ :: _ => Some cids
      end = None
      ∨ (er = false
         ∧ match cids with
           | [] => if negb er then Some [0] else None
           | _ :: _ => Some cids
           end = Some [0])).
    { apply extract_concept_ids_no_loader in Hc as [->|[-> ->]];
        [destruct er; simpl; auto|auto|done]. }
    destruct Hresolved as [->|[-> ->]]; [intros [= <-]; by left|].
    simpl.
    destruct (_ && _) eqn:Hcond; [intros [= <-]; by left|].
    destruct (_generate_id rule node person_id) as [base_id|] eqn:Hid;
      simpl; [|done].
    intros [= <-]. right. exists node, base_id. eauto. }
  split; [|split].
  - intros records Hmap.
    destruct (Hshape _ _ Hmap) as [Hr|(? & ? & _ & ? & _)]; done.
  - intros records Hmap.
    destruct (Hshape _ _ Hmap) as [Hr|(node & base_id & -> & _ & _ & Hid & ->)];
      [by left|]. right.
    destruct (create_record_not_required vocab rule node person_id
                (base_id + 0) 0 vm) as [r Hr].
    exists node, base_id, r. split; [done|]. split; [done|].
    simpl. rewrite Hr. split; [|done].
    by replace (base_id + 0) with base_id in Hr by lia.
  - intros records cond Hin Htype Hvalue Hmap.
    destruct (Hshape _ _ Hmap)
      as [Hr|(node & base_id & -> & _ & Hcond & _ & _)]; [done|].
    exfalso.
    destruct (SourceSpec.conditions (MappingRule.source rule))
      as [|c conds] eqn:Hconds; [by apply elem_of_nil in Hin|].
    change (negb (_check_conditions vocab (c :: conds) node 0) = false)
      in Hcond.
    apply negb_false_iff in Hcond.
    apply check_conditions_Forall in Hcond.
    rewrite Forall_forall in Hcond.
    destruct (Hcond _ Hin) as [Heq _].
    specialize (Heq Htype). rewrite no_loader_domain in Heq by done.
    by apply Hvalue.
Qed.

Lemma id_values_acc base_fields entry : ∀ values,
  id_values base_fields entry values
  = let! found := id_values base_fields entry [] in Ok (values ++ found).
Proof.
  induction base_fields as [|field_path rest IH]; intros values; simpl.
  - by rewrite app_nil_r.
  - destruct (xpath_first entry (id_field_xpath field_path)) as [first|];
      simpl; [|done].
    destruct first as [item|]; [|apply IH].
    rewrite IH. rewrite (IH [item_str item]).
    destruct (id_values rest entry []); simpl; [|done].
    by rewrite <- app_assoc.
Qed.

Lemma id_values_length base_fields entry found :
  id_values base_fields entry [] = Ok found ->
  (length found <= length base_fields)%nat.
Proof.
  revert found. induction base_fields as [|field_path rest IH];
    intros found; simpl.
  - by intros [= <-].
  - destruct (xpath_first entry (id_field_xpath field_path)) as [first|];
      simpl; [|done].
    destruct first as [item|].
    + rewrite id_values_acc.
      destruct (id_values rest entry []) as [found'|]; simpl; [|done].
      intros [= <-]. simpl. specialize (IH _ eq_refl). lia.
    + intros Hrest. specialize (IH _ Hrest). lia.
Qed.

Lemma generate_id_found rule entry person_id :
  _generate_id rule entry person_id
  = let! found := found_values rule entry in
    Ok (Ids.generate_id (generator_of rule :: pretty person_id :: found)).
Proof.
  unfold _generate_id, found_values. rewrite id_values_acc.
  by destruct (id_values _ entry []).
Qed.

(** X11. The seed of an entry is the hash of the generator name (the
    table name when the rule names none), the person id and the values
    its base fields find, a field that finds nothing being passed over.
    Two entries in which the base fields find the same values get the same
    seed; under a rule without base fields every entry of a person gets
    the same seed. *)
Theorem generate_id_seed rule (entry other : Element) person_id :
  (IDGenSpec.base_fields (MappingRule.id_gen rule) = [] ->
   _generate_id rule entry person_id
   = Ok (Ids.generate_id [generator_of rule; pretty person_id]))
  ∧ (found_values rule entry = found_values rule other ->
     _generate_id rule entry person_id = _generate_id rule other person_id)
  ∧ (∀ seed,
        _generate_id rule entry person_id = Ok seed ->
        ∃ found,
          found_values rule entry = Ok found
          ∧ (length found
             <= length (IDGenSpec.base_fields (MappingRule.id_gen rule)))%nat
          ∧ seed = Ids.generate_id
                     (generator_of rule :: pretty person_id :: found)).
Proof.
  rewrite !generate_id_found. split; [|split].
  - unfold found_values. by intros ->.
  - by intros ->.
  - intros seed.
    destruct (found_values rule entry) as [found|] eqn:Hfound; simpl;
      [|done].
    intros [= <-]. exists found. split; [done|]. split; [|done].
    by apply (id_values_length _ entry).
Qed.


Lemma map_entry_fan rule node person_id vm er records :
  map_entry vocab rule (Some node) person_id vm er = Ok records ->
  records = [] ∨
  ∃ base_id cids,
    _extract_concept_ids vocab rule node er = Ok cids
    ∧ _generate_id rule node person_id = Ok base_id
    ∧ records = fan_out vocab rule node person_id base_id vm er 0
                        (match cids with [] => [0] | _ :: _ => cids end).
Proof.
  unfold map_entry.
  destruct (should_include_entry (Some node)); simpl;
    [|intros [= <-]; by left].
  destruct (_extract_concept_ids vocab rule node er) as [cids|] eqn:Hc;
    simpl; [|done].
  destruct cids as [|c cids];
    [destruct er; simpl; [intros [= <-]; by left|]|];
    (destruct (_ && _); [intros [= <-]; by left|]);
    (destruct (_generate_id rule node person_id) as [base_id|] eqn:Hid;
       simpl; [|done]);
    intros [= <-]; right; eauto.
Qed.

Lemma create_record_id rule entry person_id record_id cid vm er r :
  _create_record vocab rule entry person_id record_id cid vm er = Some r ->
  untargeted rule (id_field rule) ->
  id_field rule ≠ "person_id" ->
  id_field rule ≠ type_field rule ->
  r !! id_field rule = Some (VInt record_id).
Proof.
  intros Hr Hun Hperson Htype.
  rewrite (create_record_untouched vocab _ _ _ _ _ _ _ _ _ Hr).
  - rewrite lookup_insert_ne by done. rewrite lookup_insert_ne by done.
    apply lookup_insert_eq.
  - apply id_field_not_provenance.
  - by apply untargeted_fails.
Qed.

Lemma fan_out_id_column rule entry person_id base_id vm er cids :
  untargeted rule (id_field rule) ->
  id_field rule ≠ "person_id" ->
  id_field rule ≠ type_field rule ->
  ∀ i, ∃ offsets,
    StronglySorted Z.lt offsets
    ∧ Forall (λ k, i <= k) offsets
    ∧ (λ r : record, r !! id_field rule)
        <$> fan_out vocab rule entry person_id base_id vm er i cids
      = (λ k, Some (VInt (base_id + k))) <$> offsets.
Proof.
  intros Hun Hperson Htype.
  induction cids as [|cid cids IH]; intros i.
  - exists []. split; [constructor|]. split; [constructor|done].
  - destruct (IH (i + 1)) as (offsets & Hsorted & Hlow & Hcol).
    cbn [fan_out].
    destruct (_create_record vocab rule entry person_id (base_id + i) cid
                             vm er) as [r|] eqn:Hr.
    + exists (i :: offsets). split; [|split].
      * constructor; [done|].
        eapply Forall_impl; [exact Hlow|]. simpl. lia.
      * constructor; [lia|].
        eapply Forall_impl; [exact Hlow|]. simpl. lia.
      * rewrite !fmap_cons, Hcol. f_equal.
        by apply (create_record_id _ _ _ _ _ _ _ _ Hr).
    + exists offsets. split; [done|]. split; [|done].
      eapply Forall_impl; [exact Hlow|]. simpl. lia.
Qed.

Lemma strictly_sorted_NoDup (l : list Z) : StronglySorted Z.lt l -> NoDup l.
Proof.
  induction 1 as [|x l Hsorted IH Hall]; constructor; [|done].
  intros Hin. rewrite Forall_forall in Hall. specialize (Hall _ Hin). lia.
Qed.

(** X12. The records of one entry carry record ids that grow with their
    position: seed plus offsets that increase strictly from 0 on, an
    offset being left out for each discarded candidate. So no two
    records of an entry share their id. This supposes that no field
    mapping of the rule writes the id column and that the id column is
    neither "person_id" nor the type column. *)
Theorem map_entry_record_ids_distinct rule node person_id vm er records :
  map_entry vocab rule (Some node) person_id vm er = Ok records ->
  untargeted rule (id_field rule) ->
  id_field rule ≠ "person_id" ->
  id_field rule ≠ type_field rule ->
  NoDup ((λ r : record, r !! id_field rule) <$> records)
  ∧ (records = [] ∨
     ∃ base_id offsets,
       _generate_id rule node person_id = Ok base_id
       ∧ StronglySorted Z.lt offsets
       ∧ Forall (λ k, 0 <= k) offsets
       ∧ (λ r : record, r !! id_field rule) <$> records
         = (λ k, Some (VInt (base_id + k))) <$> offsets).
Proof.
  intros Hmap Hun Hperson Htype.
  apply map_entry_fan in Hmap as [->|(base_id & cids & _ & Hid & ->)].
  - split; [constructor|by left].
  - destruct (fan_out_id_column rule node person_id base_id vm er
                (match cids with [] => [0] | _ :: _ => cids end)
                Hun Hperson Htype 0) as (offsets & Hsorted & Hlow & Hcol).
    split; [|right; eauto 10].
    rewrite Hcol. apply NoDup_fmap_2; [|by apply strictly_sorted_NoDup].
    intros k k' [= Heq]. lia.
Qed.

Lemma fill_fields_concept entry cid vm er key fields : ∀ rec r,
  fill_fields vocab fields entry cid vm er rec = Some r ->
  (∀ fm, fm ∈ fields -> FieldMapping.target fm = key ->
         FieldMapping.transform fm = "vocab") ->
  rec !! key = Some (VInt cid)
  ∨ (∃ fm, fm ∈ fields ∧ FieldMapping.target fm = key) ->
  r !! key = Some (VInt cid).
Proof.
  induction fields as [|fm fields IH]; intros rec r Hfill Hvocab Hsome.
  - injection Hfill as <-.
    destruct Hsome as [Hrec|(fm & Hin & _)]; [done|].
    by apply elem_of_nil in Hin.
  - cbn [fill_fields] in Hfill.
    assert (Hrest : ∀ fm', fm' ∈ fields -> FieldMapping.target fm' = key ->
                           FieldMapping.transform fm' = "vocab").
    { intros fm' Hin. apply Hvocab. by right. }
    destruct (decide (FieldMapping.target fm = key)) as [Heq|Hne].
    + assert (Htr : FieldMapping.transform fm = "vocab")
        by (apply Hvocab; [left|done]).
      unfold _extract_field_value in Hfill. rewrite Htr in Hfill.
      simpl in Hfill.
      apply (IH _ _ Hfill Hrest). left. rewrite Heq.
      apply lookup_insert_eq.
    + assert (Hstep : ∀ rec',
                rec' !! key = rec !! key ->
                fill_fields vocab fields entry cid vm er rec' = Some r ->
                r !! key = Some (VInt cid)).
      { intros rec' Hsame Hfill'. apply (IH _ _ Hfill' Hrest).
        destruct Hsome as [Hrec|(fm' & Hin & Htarget)].
        - left. by rewrite Hsame.
        - right. exists fm'. split; [|done].
          apply elem_of_cons in Hin as [->|Hin]; done. }
      destruct (_extract_field_value vocab entry fm cid vm) as [[v|]|];
        [apply (Hstep _ (lookup_insert_ne _ _ _ _ Hne) Hfill)| |];
        (destruct (FieldMapping.optional fm || negb er); [|done]);
        by apply (Hstep rec).
Qed.

Lemma create_record_concept rule entry person_id record_id cid vm er r key :
  _create_record vocab rule entry person_id record_id cid vm er = Some r ->
  key ≠ "mapping_rule" ->
  (∃ fm, fm ∈ MappingRule.fields rule ∧ FieldMapping.target fm = key) ->
  (∀ fm, fm ∈ MappingRule.fields rule -> FieldMapping.target fm = key ->
         FieldMapping.transform fm = "vocab") ->
  r !! key = Some (VInt cid).
Proof.
  unfold _create_record.
  destruct (fill_fields _ _ _ _ _ _ _) as [r0|] eqn:Hfill; [|done].
  intros [= <-] Hkey Hsome Hvocab.
  rewrite lookup_insert_ne by done.
  apply (fill_fields_concept _ _ _ _ _ _ _ _ Hfill Hvocab). by right.
Qed.

Lemma fan_out_concept_column
    rule entry person_id base_id vm er key cids :
  key ≠ "mapping_rule" ->
  (∃ fm, fm ∈ MappingRule.fields rule ∧ FieldMapping.target fm = key) ->
  (∀ fm, fm ∈ MappingRule.fields rule -> FieldMapping.target fm = key ->
         FieldMapping.transform fm = "vocab") ->
  ∀ i, ∃ kept,
    sublist kept cids
    ∧ (er = false -> kept = cids)
    ∧ (λ r : record, r !! key)
        <$> fan_out vocab rule entry person_id base_id vm er i cids
      = (λ c, Some (VInt c)) <$> kept.
Proof.
  intros Hkey Hsome Hvocab.
  induction cids as [|cid cids IH]; intros i.
  - exists []. by repeat split.
  - destruct (IH (i + 1)) as (kept & Hsub & Hall & Hcol).
    cbn [fan_out].
    destruct (_create_record vocab rule entry person_id (base_id + i) cid
                             vm er) as [r|] eqn:Hr.
    + exists (cid :: kept). split; [by constructor|]. split.
      * intros Her. by rewrite Hall.
      * rewrite !fmap_cons, Hcol. f_equal.
        by apply (create_record_concept _ _ _ _ _ _ _ _ _ Hr).
    + exists kept. split; [by constructor|]. split; [|done].
      intros ->.
      destruct (create_record_not_required vocab rule entry person_id
                  (base_id + i) cid vm) as [r Hsome'].
      congruence.
Qed.

(** X13. A column that the rule fills by vocabulary fields only holds,
    in the records of an entry, the concept ids the entry resolved to,
    in their order: one record per concept id, each with its own
    concept id, those of discarded candidates missing. When entries are
    not required nothing is discarded. *)
Theorem map_entry_concept_column
    rule node person_id vm er records key cids :
  map_entry vocab rule (Some node) person_id vm er = Ok records ->
  _extract_concept_ids vocab rule node er = Ok cids ->
  key ≠ "mapping_rule" ->
  (∃ fm, fm ∈ MappingRule.fields rule ∧ FieldMapping.target fm = key) ->
  (∀ fm, fm ∈ MappingRule.fields rule -> FieldMapping.target fm = key ->
         FieldMapping.transform fm = "vocab") ->
  ∃ kept,
    sublist kept (match cids with [] => [0] | _ :: _ => cids end)
    ∧ (λ r : record, r !! key) <$> records = (λ c, Some (VInt c)) <$> kept
    ∧ (er = false -> records ≠ [] ->
       kept = match cids with [] => [0] | _ :: _ => cids end).
Proof.
  intros Hmap Hcids Hkey Hsome Hvocab.
  apply map_entry_fan in Hmap as [->|(base_id & cids' & Hcids' & Hid & ->)].
  - exists []. split; [apply sublist_nil_l|]. by split.
  - rewrite Hcids in Hcids'. injection Hcids' as <-.
    destruct (fan_out_concept_column rule node person_id base_id vm er key
                (match cids with [] => [0] | _ :: _ => cids end)
                Hkey Hsome Hvocab 0) as (kept & Hsub & Hall & Hcol).
    exists kept. split; [done|]. split; [done|]. by intros Her _; apply Hall.
Qed.

End EngineMore.

Section EngineWorked.
Import Extractor RuleEngine EngineSpec SeedSpec Examples.
#[local] Existing Instance Fragment.builtins.

Lemma map_entry_without_vocabulary_witness :
  is_ok (map_entry no_vocab condition_rule (Some diabetes) 12345 ∅ false)
  = true
  ∧ value_or [] (map_entry no_vocab condition_rule (Some diabetes) 12345
                           ∅ false) = [].
Proof.
  assert (Hok : is_ok (map_entry no_vocab condition_rule (Some diabetes)
                                 12345 ∅ false) = true)
    by (vm_compute; reflexivity).
  split; [exact Hok|].
  eapply (proj2 (proj2 (map_entry_without_vocabulary no_vocab condition_rule
                          (Some diabetes) 12345 ∅ eq_refl))).
  - left.
  - reflexivity.
  - discriminate.
  - apply returned. exact Hok.
Defined.

Lemma generate_id_seed_witness :
  _generate_id condition_rule diabetes 12345
  = _generate_id condition_rule planned 12345.
Proof.
  apply (generate_id_seed condition_rule diabetes planned 12345).
  vm_compute. reflexivity.
Defined.

Lemma map_entry_record_ids_distinct_witness :
  NoDup ((λ r : record, r !! "condition_occurrence_id")
           <$> nephropathy_records).
Proof.
  apply (map_entry_record_ids_distinct vocab condition_rule
           diabetes_nephropathy 12345 ∅ true nephropathy_records).
  - apply returned. vm_compute. reflexivity.
  - apply not_among. vm_compute. reflexivity.
  - discriminate.
  - discriminate.
Defined.

Lemma map_entry_concept_column_witness :
  ∃ kept,
    sublist kept [443731; 201826]
    ∧ (λ r : record, r !! "condition_concept_id") <$> nephropathy_records
      = (λ c, Some (VInt c)) <$> kept
    ∧ (true = false -> nephropathy_records ≠ [] ->
       kept = [443731; 201826]).
Proof.
  apply (map_entry_concept_column vocab condition_rule diabetes_nephropathy
           12345 ∅ true nephropathy_records "condition_concept_id"
           [443731; 201826]).
  - apply returned. vm_compute. reflexivity.
  - vm_compute. reflexivity.
  - discriminate.
  - exists concept_field. split; [left|reflexivity].
  - intros fm Hin Htarget.
    apply elem_of_cons in Hin as [->|Hin]; [reflexivity|].
    apply elem_of_cons in Hin as [->|Hin]; [discriminate|].
    by apply elem_of_nil in Hin.
Defined.

End EngineWorked.

Section VocabLoading.
Import VocabLoader VocabSpec.
Context `{Builtins}.

Lemma load_concepts_row_accepted count vl row :
  load_concepts_row (count, vl) row
  = match accepted row with
    | None => (count, vl)
    | Some c =>
        (count + 1,
         {| _concept_index := <[key_of c := c]> (_concept_index vl);
            _concept_by_id := <[concept_id c := c]> (_concept_by_id vl);
            _maps_to := _maps_to vl |})
    end.
Proof.
  unfold load_concepts_row, accepted.
  destruct (length row <? 10)%nat; [done|].
  destruct (negb _); [done|].
  destruct (py_int (col row 0)); [|done].
  by destruct (truthy (col row 9)).
Qed.

Lemma last_filter_snoc {A} (P : A -> Prop) `{∀ x, Decision (P x)}
    (l : list A) (x : A) :
  last (filter P (l ++ [x]))
  = if decide (P x) then Some x else last (filter P l).
Proof.
  rewrite filter_app, filter_cons, filter_nil.
  destruct (decide (P x)); [apply last_snoc|by rewrite app_nil_r].
Qed.

Lemma load_concepts_rows body : ∀ count vl,
  let st := fold_left load_concepts_row body (count, vl) in
  st.1 = count + Z.of_nat (length (omap accepted body))
  ∧ _maps_to st.2 = _maps_to vl
  ∧ (∀ key,
        _concept_index st.2 !! key
        = match last (filter (λ c, key_of c = key) (omap accepted body)) with
          | Some c => Some c
          | None => _concept_index vl !! key
          end)
  ∧ (∀ cid,
        _concept_by_id st.2 !! cid
        = match last (filter (λ c, concept_id c = cid)
                             (omap accepted body)) with
          | Some c => Some c
          | None => _concept_by_id vl !! cid
          end).
Proof.
  induction body as [|row body IH] using rev_ind; intros count vl.
  - simpl. split; [lia|]. by repeat split.
  - cbv zeta. rewrite fold_left_app. cbn [fold_left].
    destruct (IH count vl) as (Hcount & Hmaps & Hindex & Hid).
    destruct (fold_left load_concepts_row body (count, vl)) as [n vl1].
    rewrite load_concepts_row_accepted, omap_app.
    cbn [fst snd] in Hcount, Hmaps, Hindex, Hid.
    cbn [omap list_omap option_list].
    destruct (accepted row) as [c|]; cbn [fst snd _concept_index
      _concept_by_id _maps_to].
    + rewrite length_app. simpl. split; [lia|]. split; [done|]. split.
      * intros key. rewrite last_filter_snoc.
        destruct (decide (key_of c = key)) as [<-|Hne].
        -- apply lookup_insert_eq.
        -- rewrite lookup_insert_ne by done. apply Hindex.
      * intros cid. rewrite last_filter_snoc.
        destruct (decide (concept_id c = cid)) as [<-|Hne].
        -- apply lookup_insert_eq.
        -- rewrite lookup_insert_ne by done. apply Hid.
    + rewrite app_nil_r. by repeat split.
Qed.

(** X14. [load_concepts] on the rows of a file. No row at all raises
    [StopIteration], an empty first row [IndexError], a first field that
    does not start with "concept_id" [ValueError]. Otherwise it returns
    the number of rows it kept (ten fields at least, a vocabulary of
    interest, an integer id, no invalid reason); the index grows by no
    more than that number, and the "Maps to" table is left alone. *)
Theorem load_concepts_count rows vl :
  (rows = [] -> load_concepts rows vl = Raise StopIteration)
  ∧ (∀ body, rows = [] :: body -> load_concepts rows vl = Raise IndexError)
  ∧ (∀ h0 header body,
        rows = (h0 :: header) :: body ->
        String.prefix "concept_id" h0 = false ->
        load_concepts rows vl = Raise ValueError)
  ∧ (∀ h0 header body,
        rows = (h0 :: header) :: body ->
        String.prefix "concept_id" h0 = true ->
        ∃ vl',
          load_concepts rows vl
          = Ok (Z.of_nat (length (omap accepted body)), vl')
          ∧ _maps_to vl' = _maps_to vl
          ∧ (size (_concept_index vl')
             <= size (_concept_index vl) + length (omap accepted body))%nat).
Proof.
  split; [by intros ->|]. split; [by intros body ->|]. split.
  - intros h0 header body -> Hprefix. simpl. by rewrite Hprefix.
  - intros h0 header body -> Hprefix. simpl. rewrite Hprefix. simpl.
    destruct (load_concepts_rows body 0 vl) as (Hcount & Hmaps & _ & _).
    destruct (fold_left load_concepts_row body (0, vl)) as [n vl'] eqn:Hfold.
    simpl in *. exists vl'. split; [by rewrite Hcount|]. split; [done|].
    clear Hcount Hmaps. revert n vl' Hfold.
    induction body as [|row body IH] using rev_ind; intros n vl' Hfold.
    + injection Hfold as <- <-. simpl. lia.
    + rewrite fold_left_app in Hfold. cbn [fold_left] in Hfold.
      destruct (fold_left load_concepts_row body (0, vl)) as [n1 vl1].
      specialize (IH _ _ eq_refl).
      rewrite load_concepts_row_accepted in Hfold. rewrite omap_app.
      cbn [omap list_omap].
      destruct (accepted row) as [c|]; cbn [option_list].
      * injection Hfold as <- <-. simpl. rewrite length_app. simpl.
        destruct (_concept_index vl1 !! key_of c) eqn:Hl.
        -- rewrite map_size_insert_Some by done. lia.
        -- rewrite map_size_insert_None by done. lia.
      * injection Hfold as <- <-. rewrite app_nil_r. lia.
Qed.

(** X15. After [load_concepts], a lookup by vocabulary and code gives
    the concept of the last kept row with that key, and what was indexed
    before when no kept row has it; likewise for a lookup by id and for
    the domain of an id. A later row replaces an earlier one. *)
Theorem load_concepts_last_row_wins h0 header body vl n vl' :
  load_concepts ((h0 :: header) :: body) vl = Ok (n, vl') ->
  (∀ vocab_id code,
      lookup_concept vl' vocab_id code
      = match last (filter (λ c, key_of c = _concept_key vocab_id code)
                           (omap accepted body)) with
        | Some c => Some c
        | None => lookup_concept vl vocab_id code
        end)
  ∧ (∀ cid,
        lookup_concept_by_id vl' cid
        = match last (filter (λ c, concept_id c = cid)
                             (omap accepted body)) with
          | Some c => Some c
          | None => lookup_concept_by_id vl cid
          end)
  ∧ (∀ cid,
        get_concept_domain vl' cid
        = match last (filter (λ c, concept_id c = cid)
                             (omap accepted body)) with
          | Some c => domain_id c
          | None => get_concept_domain vl cid
          end).
Proof.
  simpl. destruct (negb (String.prefix "concept_id" h0)); [done|].
  intros [= Hfold].
  destruct (load_concepts_rows body 0 vl) as (_ & _ & Hindex & Hid).
  rewrite Hfold in Hindex, Hid. simpl in Hindex, Hid.
  split; [|split].
  - intros vocab_id code. apply Hindex.
  - intros cid. apply Hid.
  - intros cid. unfold get_concept_domain. rewrite Hid.
    by destruct (last _).
Qed.


Lemma load_relationships_row_live count vl row :
  load_relationships_row (count, vl) row
  = match live row with
    | Some (source_id, target_id) =>
        if _concept_by_id vl !! source_id is Some _ then
          (count + 1,
           {| _concept_index := _concept_index vl;
              _concept_by_id := _concept_by_id vl;
              _maps_to :=
                <[source_id := maps_to_get vl source_id ++ [target_id]]>
                  (_maps_to vl) |})
        else (count, vl)
    | None => (count, vl)
    end.
Proof.
  unfold load_relationships_row, live.
  destruct (length row <? 6)%nat; [done|].
  destruct (negb _); [done|].
  destruct (truthy (col row 5)); [done|].
  destruct (py_int (col row 0)) as [source_id|]; [|done].
  destruct (py_int (col row 1)) as [target_id|]; [|done].
  by destruct (_concept_by_id vl !! source_id).
Qed.

Lemma stored_snoc vl body row :
  stored vl (body ++ [row])
  = stored vl body
    ++ match live row with
       | Some edge =>
           if _concept_by_id vl !! edge.1 is Some _ then [edge] else []
       | None => []
       end.
Proof.
  unfold stored. rewrite omap_app, filter_app. f_equal.
  cbn [omap list_omap]. destruct (live row) as [edge|]; [|done].
  cbn [option_list]. rewrite filter_cons, filter_nil.
  destruct (_concept_by_id vl !! edge.1) as [c|] eqn:Hc.
  - by rewrite decide_True by eauto.
  - by rewrite decide_False by (by intros [? ?]).
Qed.

Lemma load_relationships_rows body : ∀ count vl,
  let st := fold_left load_relationships_row body (count, vl) in
  st.1 = count + Z.of_nat (length (stored vl body))
  ∧ _concept_index st.2 = _concept_index vl
  ∧ _concept_by_id st.2 = _concept_by_id vl
  ∧ (∀ source_id,
        maps_to_get st.2 source_id
        = maps_to_get vl source_id
          ++ (snd <$> filter (λ edge, edge.1 = source_id) (stored vl body)))
  ∧ (edges_sound vl -> edges_sound st.2).
Proof.
  induction body as [|row body IH] using rev_ind; intros count vl.
  - cbv zeta. simpl. split; [lia|]. split; [done|]. split; [done|].
    split; [|done]. intros source_id. by rewrite app_nil_r.
  - cbv zeta. rewrite fold_left_app. cbn [fold_left].
    destruct (IH count vl) as (Hcount & Hindex & Hid & Hedges & Hsound).
    destruct (fold_left load_relationships_row body (count, vl))
      as [n vl1].
    cbn [fst snd] in Hcount, Hindex, Hid, Hedges, Hsound.
    rewrite load_relationships_row_live, stored_snoc.
    destruct (live row) as [[source_id target_id]|];
      [|rewrite !app_nil_r; cbn [fst snd];
       split; [done|split; [done|split; [done|split; done]]]].
    cbn [fst]. rewrite Hid.
    destruct (_concept_by_id vl !! source_id) as [c|] eqn:Hc;
      [|rewrite !app_nil_r; cbn [fst snd];
       split; [done|split; [done|split; [done|split; done]]]].
    cbn [fst snd _concept_index _concept_by_id _maps_to].
    rewrite length_app. simpl. split; [lia|]. split; [done|].
    split; [done|]. split.
    + intros src. rewrite filter_app, filter_cons, filter_nil, fmap_app.
      cbn [fst]. unfold maps_to_get at 1. cbn [_maps_to].
      destruct (decide (source_id = src)) as [<-|Hne].
      * rewrite lookup_insert_eq. simpl. rewrite Hedges.
        by rewrite <- app_assoc.
      * rewrite lookup_insert_ne by done. rewrite app_nil_r.
        apply Hedges.
    + intros Hvl src targets. cbn [_maps_to _concept_by_id].
      destruct (decide (source_id = src)) as [<-|Hne].
      * rewrite lookup_insert_eq. intros [= <-].
        split; [by destruct (maps_to_get vl1 source_id)|eauto].
      * rewrite lookup_insert_ne by done. rewrite <- Hid.
        by apply (Hsound Hvl).
Qed.

(** X16. [load_concept_relationships] leaves the concepts as they are.
    It stores the live "Maps to" rows whose source concept is indexed
    by id, and counts them: the targets of a concept are those it had,
    followed by those of its stored rows in file order. No concept ever
    gets an empty list of targets, and none that is not indexed gets a
    list. *)
Theorem load_concept_relationships_stored h0 header body vl n vl' :
  load_concept_relationships ((h0 :: header) :: body) vl = Ok (n, vl') ->
  n = Z.of_nat (length (stored vl body))
  ∧ _concept_index vl' = _concept_index vl
  ∧ _concept_by_id vl' = _concept_by_id vl
  ∧ (∀ source_id,
        maps_to_get vl' source_id
        = maps_to_get vl source_id
          ++ (snd <$> filter (λ edge, edge.1 = source_id) (stored vl body)))
  ∧ (edges_sound vl -> edges_sound vl').
Proof.
  simpl. destruct (negb (String.prefix "concept_id_1" h0)); [done|].
  intros [= Hfold].
  destruct (load_relationships_rows body 0 vl)
    as (Hcount & Hindex & Hid & Hedges & Hsound).
  rewrite Hfold in Hcount, Hindex, Hid, Hedges, Hsound.
  cbn [fst snd] in Hcount, Hindex, Hid, Hedges, Hsound.
  split; [lia|]. split; [done|]. split; [done|]. split; done.
Qed.

End VocabLoading.

Section VocabWorked.
Import VocabLoader VocabSpec Examples.
#[local] Existing Instance Fragment.builtins.

Lemma load_concepts_count_witness :
  ∃ vl',
    load_concepts concept_rows new = Ok (4, vl')
    ∧ _maps_to vl' = _maps_to new
    ∧ (size (_concept_index vl') <= size (_concept_index new) + 4)%nat.
Proof.
  exact (proj2 (proj2 (proj2 (load_concepts_count concept_rows new)))
           _ _ _ eq_refl eq_refl).
Defined.

Lemma load_concepts_last_row_wins_witness :
  lookup_concept concepts_loaded "SNOMED" "44054006" = Some diabetes_concept
  ∧ get_concept_domain concepts_loaded 45600001 = "Observation"
  ∧ lookup_concept concepts_loaded "SNOMED" "999" = None.
Proof.
  destruct (load_concepts_last_row_wins
              (hd "" (hd [] concept_rows)) (tail (hd [] concept_rows))
              (tail concept_rows) new 4 concepts_loaded)
    as (Hindex & _ & Hdomain).
  - vm_compute. reflexivity.
  - rewrite !Hindex, Hdomain. vm_compute. done.
Defined.

Lemma load_concept_relationships_stored_witness :
  maps_to_get loaded 45561952 = [443731; 201826]
  ∧ maps_to_get loaded 5 = [].
Proof.
  destruct (load_concept_relationships_stored
              (hd "" (hd [] relationship_rows))
              (tail (hd [] relationship_rows))
              (tail relationship_rows) concepts_loaded 2 loaded)
    as (_ & _ & _ & Hedges & _).
  - vm_compute. reflexivity.
  - rewrite !Hedges. vm_compute. done.
Defined.

End VocabWorked.

Section ConceptMapsFacts.
Import Vocabulary ConceptMaps.
Context `{Builtins}.




Lemma get_cons {V} (k : string) (v : V) d key default :
  get ((k, v) :: d) key default
  = if String.eqb k key then v else get d key default.
Proof. unfold get. simpl. by destruct (String.eqb k key). Qed.

Ltac table_cases key :=
  unfold map_gender, map_race, map_ethnicity, map_visit_type,
    get_code_system_name, _gender_concepts, _race_concepts,
    _ethnicity_concepts, _visit_type_concepts, names;
  repeat (rewrite get_cons;
          match goal with
          | |- context [String.eqb ?k key] =>
              destruct (String.eqb_spec k key) as [<-|?]
          end);
  try (unfold get; cbn [List.find]); cbv iota;
  cbv [CONCEPT_MALE CONCEPT_FEMALE CONCEPT_UNKNOWN CONCEPT_UNKNOWN_RACE
       CONCEPT_OUTPATIENT CONCEPT_NO_MAPPING].

Ltac table_done :=
  rewrite ?elem_of_cons, ?not_elem_of_cons, ?elem_of_nil;
  intuition (try congruence; try discriminate).

(** X18. The demographic tables of the mapper. A gender maps to a
    concept other than 0 exactly for "M" and "F", a race exactly for the
    six listed codes, an ethnicity exactly for the two listed codes; an
    encounter class always maps to one of the four visit concepts, to
    outpatient (9202) unless it is "IMP", "EMER" or "VR". *)
Theorem demographic_tables vm code :
  (map_gender vm code ≠ 0 <-> code = "M" ∨ code = "F")
  ∧ (map_race vm code ≠ 0 <->
     code ∈ ["2106-3"; "2054-5"; "2028-9"; "1002-5"; "2076-8"; "2131-1"])
  ∧ (map_ethnicity vm code ≠ 0 <-> code = "2135-2" ∨ code = "2186-5")
  ∧ map_visit_type vm code ∈ [9201; 9202; 9203; 581477]
  ∧ (code ∉ ["IMP"; "EMER"; "VR"] -> map_visit_type vm code = 9202).
Proof.
  split; [|split; [|split; [|split]]]; table_cases code; table_done.
Qed.

Lemma name_cases oid :
  (oid, get_code_system_name oid) ∈ names
  ∨ ((oid ∉ named_oids) ∧ get_code_system_name oid = oid).
Proof.
  unfold get_code_system_name, names.
  repeat (rewrite get_cons;
          match goal with
          | |- context [String.eqb ?k oid] =>
              destruct (String.eqb_spec k oid) as [<-|?]
          end);
    cbv iota;
    try (left; apply (bool_decide_unpack _); vm_compute; exact I).
  right. split; [|done]. unfold named_oids. simpl.
  rewrite !not_elem_of_cons. repeat split; try congruence.
  apply not_elem_of_nil.
Qed.

Ltac named_oid Hin :=
  unfold names in Hin;
  repeat (apply elem_of_cons in Hin as [Hin|Hin];
          [injection Hin as -> Hname|]);
  [..|by apply elem_of_nil in Hin].

(** X19. [get_code_system_name] names seven code systems and returns
    every other string as it is; naming twice is naming once. Each
    identifier it names is one the resolver knows, and the name stands
    for the same vocabulary as the identifier, except "SNOMED-CT", which
    the resolver does not know. *)
Theorem get_code_system_name_resolves oid :
  get_code_system_name (get_code_system_name oid) = get_code_system_name oid
  ∧ (oid ∉ named_oids -> get_code_system_name oid = oid)
  ∧ (get_code_system_name oid ≠ oid ->
     oid ∈ named_oids
     ∧ oid_to_vocabulary_id oid ≠ ""
     ∧ (oid ≠ OID_SNOMED_CT ->
        oid_to_vocabulary_id (get_code_system_name oid)
        = oid_to_vocabulary_id oid)
     ∧ (oid = OID_SNOMED_CT ->
        oid_to_vocabulary_id (get_code_system_name oid) = "")).
Proof.
  destruct (name_cases oid) as [Hin|[Hout Hsame]].
  - assert (Hkey : oid ∈ named_oids).
    { apply list_elem_of_fmap. by exists (oid, get_code_system_name oid). }
    split; [|split; [by intros Hout|intros _; split; [exact Hkey|]]];
      clear Hkey; named_oid Hin; clear Hname;
      try (by vm_compute);
      (split; [by vm_compute|]);
      (split; [intros Hne; try (by vm_compute); by destruct Hne
              |intros Heq; try (by vm_compute); by vm_compute in Heq]).
  - split; [by rewrite !Hsame|]. split; [done|]. by intros Hne.
Qed.

End ConceptMapsFacts.

Section ConceptMapsWorked.
Import Vocabulary ConceptMaps.
#[local] Existing Instance Fragment.builtins.


Lemma demographic_tables_witness :
  map_visit_type Examples.no_vocab "HH" = 9202.
Proof.
  apply (demographic_tables Examples.no_vocab "HH").
  apply (bool_decide_unpack _). vm_compute. exact I.
Defined.

Lemma get_code_system_name_resolves_witness :
  oid_to_vocabulary_id (get_code_system_name OID_SNOMED_CT) = ""
  ∧ oid_to_vocabulary_id (get_code_system_name OID_ICD10CM)
    = oid_to_vocabulary_id OID_ICD10CM.
Proof.
  split.
  - apply (get_code_system_name_resolves OID_SNOMED_CT);
      [by vm_compute|reflexivity].
  - apply (proj2 (proj2 (get_code_system_name_resolves OID_ICD10CM)));
      by vm_compute.
Defined.

End ConceptMapsWorked.

(** ** ccda/hl7_time.py *)

Section Hl7TimeFacts.
Import PyStr Hl7Time.
Variable datetime : Type.
Variable strptime : string -> string -> option datetime.

Lemma ascii_not_continuation c :
  Z.of_N (N_of_ascii c) < 128 ->
  (128 <=? Z.of_N (N_of_ascii c)) && (Z.of_N (N_of_ascii c) <? 192) = false.
Proof. intros Hc. apply andb_false_iff. left. lia. Qed.

Lemma rstrip_snoc c s : rstrip c (s +:+ String c "") = rstrip c s.
Proof.
  induction s as [|a s IH]; simpl.
  - by rewrite Ascii.eqb_refl.
  - by rewrite IH.
Qed.

Lemma rstrip_absent c s :
  Forall (λ a, a ≠ c) (list_ascii_of_string s) -> rstrip c s = s.
Proof.
  induction s as [|a s IH]; simpl; [done|].
  intros [Ha Hs]%Forall_cons. rewrite (IH Hs).
  destruct s; [|done].
  by rewrite (proj2 (Ascii.eqb_neq _ _) Ha).
Qed.

Lemma contains_absent c s :
  Forall (λ a, a ≠ c) (list_ascii_of_string s) -> Str.contains c s = false.
Proof.
  induction s as [|a s IH]; simpl; [done|].
  intros [Ha Hs]%Forall_cons.
  by rewrite (IH Hs), (proj2 (Ascii.eqb_neq _ _) Ha).
Qed.

Lemma contains_app_r c s z :
  Str.contains c (s +:+ String c z) = true.
Proof.
  induction s as [|a s IH]; simpl.
  - by rewrite Ascii.eqb_refl.
  - rewrite IH. apply orb_true_r.
Qed.

Lemma before_last_absent c s :
  Forall (λ a, a ≠ c) (list_ascii_of_string s) -> before_last c s = None.
Proof.
  induction s as [|a s IH]; simpl; [done|].
  intros [Ha Hs]%Forall_cons.
  by rewrite (IH Hs), (proj2 (Ascii.eqb_neq _ _) Ha).
Qed.

Lemma before_last_app c t z :
  Forall (λ a, a ≠ c) (list_ascii_of_string z) ->
  before_last c (t +:+ String c z) = Some t.
Proof.
  intros Hz. induction t as [|a t IH]; simpl.
  - by rewrite (before_last_absent _ _ Hz), Ascii.eqb_refl.
  - by rewrite IH.
Qed.

Lemma list_ascii_app s z :
  list_ascii_of_string (s +:+ z)
  = list_ascii_of_string s ++ list_ascii_of_string z.
Proof. induction s as [|a s IH]; simpl; [done|]. by rewrite IH. Qed.

Lemma skip_continuation_ascii s :
  ascii_only s -> skip_continuation s = s.
Proof.
  destruct s as [|a s]; simpl; [done|].
  intros [Ha _]%Forall_cons. by rewrite ascii_not_continuation.
Qed.

Lemma continuation_ascii s : ascii_only s -> Str.continuation s = "".
Proof.
  destruct s as [|a s]; simpl; [done|].
  intros [Ha _]%Forall_cons. by rewrite ascii_not_continuation.
Qed.

Lemma chars_ascii s :
  ascii_only s ->
  Str.chars s = (λ c, String c "") <$> list_ascii_of_string s.
Proof.
  induction s as [|a s IH]; simpl; [done|].
  intros [Ha Hs]%Forall_cons.
  rewrite (continuation_ascii _ Hs), (IH Hs). done.
Qed.

Lemma len_ascii s : ascii_only s -> len s = String.length s.
Proof.
  intros Hs. unfold len. rewrite (chars_ascii _ Hs), length_fmap.
  clear Hs. induction s as [|a s IH]; simpl; [done|]. by rewrite IH.
Qed.

Lemma prefix_ascii_app n s e :
  ascii_only s -> ascii_only e -> (n <= String.length s)%nat ->
  prefix n (s +:+ e) = prefix n s.
Proof.
  intros Hs He Hn. unfold prefix.
  assert (Hse : ascii_only (s +:+ e)).
  { unfold ascii_only. rewrite list_ascii_app. by apply Forall_app. }
  rewrite (chars_ascii _ Hse), (chars_ascii _ Hs), list_ascii_app, fmap_app.
  rewrite take_app_le; [done|].
  rewrite length_fmap. clear -Hn.
  revert n Hn. induction s as [|a s IH]; simpl; intros n Hn; [lia|].
  destruct n; simpl; [lia|]. specialize (IH n). lia.
Qed.

Lemma first_match_ascii_app fs s e :
  ascii_only s -> ascii_only e ->
  Forall (λ f, (f.2 <= String.length s)%nat) fs ->
  first_match strptime fs (s +:+ e) = first_match strptime fs s.
Proof.
  intros Hs He. induction fs as [|[fmt n] fs IH]; simpl; [done|].
  intros [Hn Hfs]%Forall_cons. simpl in Hn.
  assert (Hse : ascii_only (s +:+ e)).
  { unfold ascii_only. rewrite list_ascii_app. by apply Forall_app. }
  rewrite (len_ascii _ Hse), (len_ascii _ Hs).
  rewrite (prefix_ascii_app _ _ _ Hs He Hn), (IH Hfs).
  assert (String.length (s +:+ e) = String.length s + String.length e)%nat
    as ->.
  { clear. induction s as [|a s IH]; simpl; [done|]. by rewrite IH. }
  destruct (Nat.leb_spec n (String.length s));
    destruct (Nat.leb_spec n (String.length s + String.length e)%nat);
    try done; lia.
Qed.

Lemma first_match_short fs s :
  Forall (λ f, (PyStr.len s < f.2)%nat) fs ->
  first_match strptime fs s = None.
Proof.
  induction fs as [|[fmt n] fs IH]; simpl; [done|].
  intros [Hn Hfs]%Forall_cons. simpl in Hn.
  destruct (Nat.leb_spec n (len s)); [lia|]. by apply IH.
Qed.

Lemma plain_ascii s : plain s -> ascii_only s.
Proof.
  intros Hs. eapply Forall_impl; [exact Hs|]. simpl. tauto.
Qed.

Lemma plain_absent s c :
  plain s -> c = "Z"%char ∨ c = "+"%char ∨ c = "-"%char ->
  Forall (λ a, a ≠ c) (list_ascii_of_string s).
Proof.
  intros Hs Hc. eapply Forall_impl; [exact Hs|]. simpl.
  intros a (_ & HZ & Hp & Hm). by destruct Hc as [->|[->| ->]].
Qed.

Lemma skip_continuation_suffix s :
  ∃ front, s = front +:+ skip_continuation s.
Proof.
  induction s as [|b s [front IH]]; [by exists ""|].
  cbn [skip_continuation].
  destruct (_ && _); [|by exists ""].
  exists (String b front).
  change (String b s = String b (front +:+ skip_continuation s)).
  by f_equal.
Qed.

Lemma after_first_suffix s :
  ∃ front, s = front +:+ after_first s.
Proof.
  destruct s as [|a s]; [by exists ""|]. cbn [after_first].
  destruct (skip_continuation_suffix s) as [front Hs].
  exists (String a front).
  change (String a s = String a (front +:+ skip_continuation s)).
  by f_equal.
Qed.

Lemma cut_at_absent c s :
  Forall (λ a, a ≠ c) (list_ascii_of_string s) -> cut_at c s = None.
Proof.
  intros Hs. unfold cut_at.
  destruct (after_first_suffix s) as [front Hfront].
  rewrite Hfront, list_ascii_app in Hs. apply Forall_app in Hs as [_ Hs].
  by rewrite (contains_absent _ _ Hs).
Qed.

Lemma cut_at_sign c t z :
  Z.of_N (N_of_ascii c) < 128 ->
  ascii_only t -> t ≠ "" ->
  Forall (λ a, a ≠ c) (list_ascii_of_string z) ->
  cut_at c (t +:+ String c z) = Some t.
Proof.
  intros Hc Ht Hne Hz. unfold cut_at. rewrite (before_last_app _ _ _ Hz).
  destruct t as [|a t]; [done|]. simpl.
  apply Forall_cons in Ht as [_ Ht].
  assert (skip_continuation (t +:+ String c z) = t +:+ String c z) as ->.
  { destruct t as [|b t]; simpl.
    - by rewrite ascii_not_continuation.
    - apply Forall_cons in Ht as [Hb _]. by rewrite ascii_not_continuation. }
  by rewrite contains_app_r.
Qed.

Lemma without_zone_plain t : plain t -> without_zone t = t.
Proof.
  intros Ht. unfold without_zone.
  rewrite (rstrip_absent _ _ (plain_absent _ "Z" Ht (or_introl eq_refl))).
  rewrite (cut_at_absent "+" t)
    by (apply (plain_absent _ _ Ht); auto).
  by rewrite (cut_at_absent "-" t)
    by (apply (plain_absent _ _ Ht); auto).
Qed.

Lemma plain_app s e : plain s -> plain e -> plain (s +:+ e).
Proof.
  intros Hs He. unfold plain. rewrite list_ascii_app. by apply Forall_app.
Qed.

Lemma without_zone_offset t z (sign : ascii) :
  sign = "+"%char ∨ sign = "-"%char ->
  plain t -> t ≠ "" -> plain z ->
  without_zone (t +:+ String sign z) = t.
Proof.
  intros Hsign Ht Hne Hz. unfold without_zone.
  assert (HZ : Forall (λ a, a ≠ "Z"%char)
                 (list_ascii_of_string (t +:+ String sign z))).
  { rewrite list_ascii_app. apply Forall_app. split.
    - apply (plain_absent _ _ Ht). auto.
    - simpl. constructor; [by destruct Hsign as [->| ->]|].
      apply (plain_absent _ _ Hz). auto. }
  rewrite (rstrip_absent _ _ HZ).
  destruct Hsign as [->| ->].
  - rewrite cut_at_sign; [done|done|by apply plain_ascii|done|].
    apply (plain_absent _ _ Hz). auto.
  - rewrite (cut_at_absent "+").
    + rewrite cut_at_sign; [done|done|by apply plain_ascii|done|].
      apply (plain_absent _ _ Hz). auto.
    + rewrite list_ascii_app. apply Forall_app. split.
      * apply (plain_absent _ _ Ht). auto.
      * simpl. constructor; [done|]. apply (plain_absent _ _ Hz). auto.
Qed.

Lemma truthy_app s e : truthy s = true -> truthy (s +:+ e) = true.
Proof. by destruct s. Qed.

(** X20. [parse_hl7_time] and the time zone. An empty text has no time.
    A "Z" at the end changes nothing. For a text of plain ASCII
    characters (none of them "Z", "+" or "-"), what follows a "+" or a
    "-" is ignored, and so is whatever plain text follows the first
    fourteen characters, fractions of a second for instance. A text
    that has fewer than four characters once its zone is removed has no
    time. *)
Theorem parse_hl7_time_zone :
  Hl7Time.parse_hl7_time strptime "" = None
  ∧ (∀ s, Hl7Time.parse_hl7_time strptime (s +:+ "Z") = Hl7Time.parse_hl7_time strptime s)
  ∧ (∀ t z sign,
        sign = "+"%char ∨ sign = "-"%char ->
        plain t -> t ≠ "" -> plain z ->
        Hl7Time.parse_hl7_time strptime (t +:+ String sign z)
        = Hl7Time.parse_hl7_time strptime t)
  ∧ (∀ t e,
        plain t -> plain e -> (14 <= String.length t)%nat ->
        Hl7Time.parse_hl7_time strptime (t +:+ e) = Hl7Time.parse_hl7_time strptime t)
  ∧ (∀ s, (len (without_zone s) < 4)%nat ->
          Hl7Time.parse_hl7_time strptime s = None).
Proof.
  split; [done|]. split; [|split; [|split]].
  - intros s. unfold Hl7Time.parse_hl7_time, without_zone.
    rewrite rstrip_snoc. destruct s as [|a s]; [|done]. simpl.
    reflexivity.
  - intros t z sign Hsign Ht Hne Hz. unfold Hl7Time.parse_hl7_time.
    rewrite (without_zone_offset _ _ _ Hsign Ht Hne Hz),
      (without_zone_plain _ Ht).
    destruct t as [|a t]; done.
  - intros t e Ht He Hlen. unfold Hl7Time.parse_hl7_time.
    rewrite (without_zone_plain _ Ht),
      (without_zone_plain _ (plain_app _ _ Ht He)).
    rewrite first_match_ascii_app;
      [|by apply plain_ascii|by apply plain_ascii|].
    + destruct t as [|a t]; [simpl in Hlen; lia|done].
    + unfold formats.
      repeat (apply Forall_cons; split; [cbn [snd]; lia|]).
      by apply Forall_nil.
  - intros s Hlen. unfold Hl7Time.parse_hl7_time.
    destruct (negb (truthy s)); [done|].
    apply first_match_short. unfold formats.
    repeat (apply Forall_cons; split; [cbn [snd]; lia|]).
    by apply Forall_nil.
Qed.

End Hl7TimeFacts.

Section Hl7TimeWorked.
Import Hl7Time TimeExamples.

Lemma parse_hl7_time_zone_witness :
  Hl7Time.parse_hl7_time digits "20240115103000-0500" = Some "20240115103000"
  ∧ Hl7Time.parse_hl7_time digits "20240115103000.123"
    = Some "20240115103000"
  ∧ Hl7Time.parse_hl7_time digits "202" = None.
Proof.
  destruct (parse_hl7_time_zone string digits)
    as (_ & _ & Hoffset & Hfraction & Hshort).
  split; [|split].
  - refine (eq_trans
              (Hoffset "20240115103000" "0500" "-"%char _ _ _ _) _).
    + by right.
    + apply (bool_decide_unpack _). vm_compute. exact I.
    + done.
    + apply (bool_decide_unpack _). vm_compute. exact I.
    + reflexivity.
  - refine (eq_trans (Hfraction "20240115103000" ".123" _ _ _) _).
    + apply (bool_decide_unpack _). vm_compute. exact I.
    + apply (bool_decide_unpack _). vm_compute. exact I.
    + simpl. lia.
    + reflexivity.
  - apply Hshort. vm_compute. lia.
Defined.

End Hl7TimeWorked.

(** ** mapper/rule_mapper.py: mapping the entries of a section *)

Section SectionFacts.
Import Extractor RuleMapper RuleBasedMapper.
Context `{Builtins}.
Variable vocab : VocabularyMapper.t.

Lemma template_found_elements rule templates :
  template_found rule (XElem <$> templates)
  = Ok (existsb (root_matches rule) templates).
Proof.
  induction templates as [|t templates IH]; [done|].
  rewrite fmap_cons. cbn [template_found existsb].
  destruct (root_matches rule t); [done|]. exact IH.
Qed.

Lemma find_section_elements rule templates_of sections :
  (∀ s, s ∈ sections ->
        element_xpath s "templateId" = XNodes (XElem <$> templates_of s)) ->
  find_section rule (XElem <$> sections)
  = Ok (List.find (carries rule templates_of) sections).
Proof.
  induction sections as [|s sections IH]; intros Htemplates; [done|].
  rewrite fmap_cons. cbn [find_section List.find].
  rewrite (Htemplates s) by (apply elem_of_cons; by left).
  cbn [iterate Py.bind]. rewrite template_found_elements. cbn [Py.bind].
  unfold carries at 1.
  destruct (existsb (root_matches rule) (templates_of s)); [done|].
  apply IH. intros s' Hs'. apply Htemplates. apply elem_of_cons; by right.
Qed.

Lemma map_items_elements rule elements person_id visit_map required :
  map_items vocab rule (XElem <$> elements) person_id visit_map required
  = RuleEngine.map_entries vocab rule (Some <$> elements) person_id
      visit_map required.
Proof.
  induction elements as [|e elements IH]; [done|].
  rewrite !fmap_cons. cbn [map_items RuleEngine.map_entries map_item].
  by rewrite IH.
Qed.

Lemma map_section_elements rule root sections section elements
    person_id visit_map section_meta :
  element_xpath root "//component/section" = XNodes (XElem <$> sections) ->
  find_section rule (XElem <$> sections) = Ok (Some section) ->
  element_xpath section (SourceSpec.entry_xpath (MappingRule.source rule))
  = XNodes (XElem <$> elements) ->
  _map_with_xpath vocab rule (Some root) person_id visit_map section_meta
  = RuleEngine.map_entries vocab rule (Some <$> elements) person_id
      visit_map (entries_required_of rule section_meta).
Proof.
  intros Hsections Hfound Hentries. unfold _map_with_xpath.
  rewrite Hsections. cbn [iterate Py.bind]. rewrite Hfound.
  cbn [Py.bind]. rewrite Hentries.
  destruct elements as [|e elements]; [done|].
  rewrite fmap_cons. cbn [nonempty negb iterate Py.bind].
  by rewrite <- fmap_cons, map_items_elements.
Qed.

Lemma get_absent node key :
  key ∉ (attrib node).*1 -> get node key = "".
Proof.
  unfold get. generalize (attrib node) as attributes.
  induction attributes as [|[k v] attributes IH]; [done|].
  rewrite fmap_cons, not_elem_of_cons. intros [Hne Hrest].
  cbn [List.find fst]. destruct (String.eqb_spec k key) as [->|_]; [done|].
  by apply IH.
Qed.

(** X21. [_map_with_xpath] on a document whose sections and templates
    are elements: the section it maps is the first one, in the order of
    the document, one of whose templates has a [root] equal to one of the
    rule's two identifiers. With no such section it returns no record.
    Otherwise it returns what [map_entries] returns for the entries of
    that one section, which are required unless the metadata of the
    rule's section say otherwise; the later sections are not looked at.
    A template without a [root] attribute counts as the empty
    identifier: when the rule leaves one of its identifiers empty, a
    first section with such a template is the one mapped. *)
Theorem map_with_xpath_first_section
    rule root sections templates_of person_id visit_map section_meta :
  element_xpath root "//component/section" = XNodes (XElem <$> sections) ->
  (∀ s, s ∈ sections ->
        element_xpath s "templateId" = XNodes (XElem <$> templates_of s)) ->
  (List.find (carries rule templates_of) sections = None ->
   _map_with_xpath vocab rule (Some root) person_id visit_map section_meta
   = Ok [])
  ∧ (∀ before section after elements,
        sections = before ++ section :: after ->
        Forall (λ s, carries rule templates_of s = false) before ->
        carries rule templates_of section = true ->
        element_xpath section
          (SourceSpec.entry_xpath (MappingRule.source rule))
        = XNodes (XElem <$> elements) ->
        _map_with_xpath vocab rule (Some root) person_id visit_map
          section_meta
        = RuleEngine.map_entries vocab rule (Some <$> elements) person_id
            visit_map
            (default true
               (SectionMetadata.entries_required
                  <$> section_meta
                      !! SourceSpec.section (MappingRule.source rule))))
  ∧ (∀ section after template elements,
        sections = section :: after ->
        template ∈ templates_of section ->
        "root" ∉ (attrib template).*1 ->
        SourceSpec.section_oid (MappingRule.source rule) = ""
        ∨ SourceSpec.section_oid_entries_required (MappingRule.source rule)
          = "" ->
        element_xpath section
          (SourceSpec.entry_xpath (MappingRule.source rule))
        = XNodes (XElem <$> elements) ->
        _map_with_xpath vocab rule (Some root) person_id visit_map
          section_meta
        = RuleEngine.map_entries vocab rule (Some <$> elements) person_id
            visit_map (entries_required_of rule section_meta)).
Proof.
  intros Hsections Htemplates.
  pose proof (find_section_elements rule templates_of sections Htemplates)
    as Hfind.
  assert (Hrequired :
            entries_required_of rule section_meta
            = default true
                (SectionMetadata.entries_required
                   <$> section_meta
                       !! SourceSpec.section (MappingRule.source rule))).
  { unfold entries_required_of. by destruct (section_meta !! _). }
  split; [|split].
  - intros Hnone. unfold _map_with_xpath.
    rewrite Hsections. cbn [iterate Py.bind]. by rewrite Hfind, Hnone.
  - intros before section after elements -> Hbefore Hsection Hentries.
    rewrite <- Hrequired.
    apply (map_section_elements _ _ _ section _ _ _ _ Hsections);
      [|done].
    rewrite Hfind. do 2 f_equal. clear -Hbefore Hsection.
    induction before as [|s before IH]; cbn [app List.find].
    + by rewrite Hsection.
    + apply Forall_cons in Hbefore as [-> Hbefore]. by apply IH.
  - intros section after template elements -> Htemplate Hroot Hempty
      Hentries.
    apply (map_section_elements _ _ _ section _ _ _ _ Hsections);
      [|done].
    rewrite Hfind. cbn [List.find].
    assert (carries rule templates_of section = true) as ->; [|done].
    unfold carries. apply existsb_exists. exists template.
    split; [by apply list_elem_of_In|].
    unfold root_matches. rewrite (get_absent _ _ Hroot).
    destruct Hempty as [-> | ->]; [done|]. apply orb_true_r.
Qed.

Lemma xml_entries_objects entries :
  Forall (λ entry, entry = AsObject) entries -> xml_entries entries = [].
Proof.
  induction 1 as [|entry entries -> _ IH]; [done|]. exact IH.
Qed.

(** X22. [_map_with_rule_or_xpath] reads either the document or the
    entries, never both. Under a rule with an [xpath] field and with a
    document given, the entries passed have no influence on the result.
    Otherwise the result is that of [map_entries] on the entries that are
    lxml elements, in their order; the entries of any other type are
    dropped without a trace, so that a list without elements gives no
    record at all. *)
Theorem map_with_rule_or_xpath_source
    rule entries xml_root person_id visit_map section_meta :
  (_rule_uses_xpath rule = true -> xml_root ≠ None ->
   ∀ entries',
     _map_with_rule_or_xpath vocab rule entries xml_root person_id
       visit_map section_meta
     = _map_with_rule_or_xpath vocab rule entries' xml_root person_id
         visit_map section_meta)
  ∧ (_rule_uses_xpath rule = false ∨ xml_root = None ->
     _map_with_rule_or_xpath vocab rule entries xml_root person_id
       visit_map section_meta
     = RuleEngine.map_entries vocab rule (xml_entries entries) person_id
         visit_map (entries_required_of rule section_meta)
     ∧ (∀ elements,
          entries = AsElement <$> elements ->
          xml_entries entries = Some <$> elements)
     ∧ (Forall (λ entry, entry = AsObject) entries ->
        _map_with_rule_or_xpath vocab rule entries xml_root person_id
          visit_map section_meta
        = Ok [])).
Proof.
  unfold _map_with_rule_or_xpath. split.
  - intros -> Hroot entries'. by destruct xml_root.
  - intros Hsource.
    assert (_rule_uses_xpath rule
            && match xml_root with Some _ => true | None => false end
            = false) as ->.
    { destruct Hsource as [-> | ->]; [done|]. apply andb_false_r. }
    split; [done|]. split.
    + intros elements ->. induction elements as [|e elements IH]; [done|].
      rewrite !fmap_cons. cbn [xml_entries]. by rewrite IH.
    + intros Hobjects. unfold _map_with_rule_and_meta.
      by rewrite (xml_entries_objects _ Hobjects).
Qed.

End SectionFacts.

Section SectionWorked.
Import RuleBasedMapper Examples DocumentExamples.
#[local] Existing Instance DocumentExamples.builtins.

Lemma map_with_xpath_first_section_witness :
  _map_with_xpath vocab condition_rule (Some document) 12345 ∅
    optional_entries
  = RuleEngine.map_entries vocab condition_rule
      [Some diabetes_nephropathy; Some diabetes] 12345 ∅ false
  ∧ _map_with_xpath vocab short_rule
      (Some (document_of [anonymous_section; problems_section])) 12345 ∅
      optional_entries
    = RuleEngine.map_entries vocab short_rule [Some unknown_code]
        12345 ∅ false.
Proof.
  split.
  - refine (eq_trans
              (proj1 (proj2
                 (map_with_xpath_first_section vocab condition_rule
                    document [medications_section; problems_section]
                    templates_of 12345 ∅ optional_entries eq_refl _))
                 [medications_section] problems_section []
                 [diabetes_nephropathy; diabetes] eq_refl _ eq_refl eq_refl)
              _).
    + intros s Hs. apply elem_of_cons in Hs as [-> | Hs]; [reflexivity|].
      apply elem_of_cons in Hs as [-> | Hs]; [reflexivity|].
      by apply elem_of_nil in Hs.
    + apply Forall_cons. split; [reflexivity|]. by apply Forall_nil.
    + unfold optional_entries. by rewrite lookup_singleton_eq.
  - refine (eq_trans
              (proj2 (proj2
                 (map_with_xpath_first_section vocab short_rule
                    (document_of [anonymous_section; problems_section])
                    [anonymous_section; problems_section]
                    templates_of 12345 ∅ optional_entries eq_refl _))
                 anonymous_section [problems_section]
                 (Elem "templateId" [] None []) [unknown_code]
                 eq_refl _ _ (or_intror eq_refl) eq_refl)
              _).
    + intros s Hs. apply elem_of_cons in Hs as [-> | Hs]; [reflexivity|].
      apply elem_of_cons in Hs as [-> | Hs]; [reflexivity|].
      by apply elem_of_nil in Hs.
    + apply elem_of_cons. by left.
    + apply not_elem_of_nil.
    + unfold entries_required_of, optional_entries.
      by rewrite lookup_singleton_eq.
Defined.

Lemma map_with_rule_or_xpath_source_witness :
  _map_with_rule_or_xpath vocab condition_rule [AsElement planned]
    (Some document) 12345 ∅ ∅
  = _map_with_rule_or_xpath vocab condition_rule [] (Some document)
      12345 ∅ ∅
  ∧ _map_with_rule_or_xpath vocab condition_rule [AsObject; AsObject] None
      12345 ∅ ∅
    = Ok [].
Proof.
  split.
  - apply (proj1 (map_with_rule_or_xpath_source vocab condition_rule
                    [AsElement planned] (Some document) 12345 ∅ ∅));
      [reflexivity|done].
  - apply (proj2 (map_with_rule_or_xpath_source vocab condition_rule
                    [AsObject; AsObject] None 12345 ∅ ∅)).
    + by right.
    + repeat (apply Forall_cons; split; [reflexivity|]). by apply Forall_nil.
Defined.

End SectionWorked.

Section LoaderWorked.
Import RuleLoader LoaderExamples.

(** C9: the code raises on a document that is not a mapping. A rule file
    whose document is the number 42 has neither a "name" nor a "rules"
    key, and [_load_rules_from_file] raises [TypeError] at the test
    ["name" in data]; an empty document and a mapping without the two
    keys give no rule and no error. In a directory, one such file fails
    the whole load. *)
Lemma load_rules_from_file_scalar_raises :
  load_rules_from_yaml (NotDirectory (file "rules.yaml" (Yaml.Int 42)))
    = Raise TypeError
  ∧ load_rules_from_yaml (NotDirectory (file "rules.yaml" Yaml.Null))
    = Ok []
  ∧ load_rules_from_yaml (NotDirectory (file "rules.yaml" other_keys))
    = Ok []
  ∧ load_rules_from_yaml
      (Directory [ file "20_number.yaml" (Yaml.Int 42);
                   file "10_problems.yml" problems ])
    = Raise TypeError.
Proof.
  split; [reflexivity|]. split; [reflexivity|].
  split; vm_compute; reflexivity.
Qed.

End LoaderWorked.
